(** * Phase ODE assembly and propeller map ingestion of om-Aviary

    A shallow embedding of

    - [aviary/mission/gasp_based/ode/unsteady_solved/unsteady_solved_ode.py]
      ([UnsteadySolvedODE.setup]),
    - [aviary/mission/gasp_based/ode/groundroll_ode.py]
      ([GroundrollODE.setup]),
    - [aviary/subsystems/propulsion/propeller_map.py]
      ([PropellerMap._read_data]),

    followed by the properties of the specification that concern them.

    [setup] is imperative code that grows an OpenMDAO group by calls of
    [add_subsystem], [set_input_defaults] and assignments of solvers.  It is
    embedded by explicit state passing over a record [Model] that lists, in
    call order, what was added and in which group.  Floating point literals
    are exact rationals ([Q]); the only operations the properties need on
    them are comparison, and multiplication by one or zero.  Where a
    component computes with its inputs, the arithmetic is a parameter of
    the evaluation, with the exact one and binary64 as instances. *)

From Stdlib Require Import QArith Ascii.
From Stdlib Require PrimFloat.
From stdpp Require Import gmap strings list fin_maps.

Open Scope string_scope.

(** ** Python values and numpy arrays *)

(** Values found in keyword-argument dictionaries. *)
Inductive PyVal :=
  | PyInt (z : Z)
  | PyFloat (q : Q)
  | PyStr (s : string)
  | PyBool (b : bool)
  | PyNone
  | PyObj (label : string).

(** A keyword dictionary, [**kwargs]. *)
Abbreviation Kwargs := (gmap string PyVal).

(** [d.update(o)]: the keys of [o] are written over [d]. *)
Definition dict_update (d o : Kwargs) : Kwargs := o ∪ d.

(** One-dimensional arrays over a type of numbers; a scalar is numpy's
    shape [(1,)]. *)
Inductive NDArrOf (F : Type) :=
  | Scalar (q : F)
  | Vec (v : list F).

Arguments Scalar {F} q%_Q.
Arguments Vec {F} v.

(** The arrays of the values [setup] writes down, which are literals. *)
Abbreviation NDArr := (NDArrOf Q).

Definition np_ones (n : nat) : list Q := replicate n 1%Q.
Definition np_zeros (n : nat) : list Q := replicate n 0%Q.
Definition np_scale (c : Q) (v : list Q) : list Q := (fun x => Qmult c x) <$> v.

(** [np.linspace(a, b, n, endpoint=True)]. *)
Definition np_linspace (a b : Q) (n : nat) : list Q :=
  (fun i : nat =>
     a + inject_Z (Z.of_nat i) * ((b - a) / inject_Z (Z.of_nat (n - 1))))%Q
  <$> seq 0 n.

(** ** Variable names

    The constants of [aviary.variable_info.variables] are strings whose
    values are declared outside the files embedded here; each stands for
    itself under the path the source uses. *)
Module Dynamic.
Module Mission.
Definition ALTITUDE := "Dynamic.Mission.ALTITUDE".
Definition DENSITY := "Dynamic.Mission.DENSITY".
Definition SPEED_OF_SOUND := "Dynamic.Mission.SPEED_OF_SOUND".
Definition TEMPERATURE := "Dynamic.Mission.TEMPERATURE".
Definition STATIC_PRESSURE := "Dynamic.Mission.STATIC_PRESSURE".
Definition THROTTLE := "Dynamic.Mission.THROTTLE".
Definition THRUST_TOTAL := "Dynamic.Mission.THRUST_TOTAL".
Definition VELOCITY := "Dynamic.Mission.VELOCITY".
Definition VELOCITY_RATE := "Dynamic.Mission.VELOCITY_RATE".
Definition FLIGHT_PATH_ANGLE := "Dynamic.Mission.FLIGHT_PATH_ANGLE".
Definition DISTANCE := "Dynamic.Mission.DISTANCE".
Definition FUEL_FLOW_RATE_NEGATIVE_TOTAL :=
  "Dynamic.Mission.FUEL_FLOW_RATE_NEGATIVE_TOTAL".
End Mission.
End Dynamic.

Module Aircraft.
Module Wing.
Definition INCIDENCE := "Aircraft.Wing.INCIDENCE".
End Wing.
End Aircraft.

Module Settings.
Definition VERBOSITY := "Settings.VERBOSITY".
End Settings.

(** ** Enumerations of [aviary.variable_info.enums] *)

Inductive SpeedType := TAS | EAS | MACH.
Inductive LegacyCode := FLOPS | GASP.
Inductive AnalysisScheme := COLLOCATION | SHOOTING.

(** The [throttle_enforcement] option: one of the three strings, or
    Python's [None], which is [None] of the option type here. *)
Inductive ThrottleEnforcement :=
  | path_constraint
  | boundary_constraint
  | bounded.

Global Instance ThrottleEnforcement_eq_dec : EqDecision ThrottleEnforcement.
Proof. solve_decision. Defined.

Global Instance LegacyCode_eq_dec : EqDecision LegacyCode.
Proof. solve_decision. Defined.

Global Instance AnalysisScheme_eq_dec : EqDecision AnalysisScheme.
Proof. solve_decision. Defined.

(** ** Subsystem builders

    A builder is an instance of a Python class.  What the assembly code asks
    of the class is [isinstance(subsystem, C)] and [type(subsystem) is C];
    both are answered by the method resolution order of the instance's
    class, whose first entry is the class itself. *)
Inductive PyClass :=
  | SubsystemBuilderBase
  | AerodynamicsBuilderBase
  | PropulsionBuilderBase
  | UserClass (cls : string).

Global Instance PyClass_eq_dec : EqDecision PyClass.
Proof. solve_decision. Defined.

(** A promotion entry: a name, or a pair [(inner, promoted)]. *)
Inductive Promotion :=
  | PName (n : string)
  | PAlias (inner promoted : string).

Global Instance Promotion_eq_dec : EqDecision Promotion.
Proof. solve_decision. Defined.

(** What [build_mission] returns when it is not [None]: an OpenMDAO system,
    opaque to the assembly. *)
Inductive System := MkSystem (label : string).

Record SubsystemBuilder := {
  name : string;
  mro : list PyClass;
  code_origin : option LegacyCode;
  build_mission : Kwargs -> option System;
  mission_inputs : Kwargs -> list Promotion;
  mission_outputs : Kwargs -> list Promotion;
}.

Definition isinstance (b : SubsystemBuilder) (c : PyClass) : bool :=
  bool_decide (c ∈ mro b).

Definition type_is (b : SubsystemBuilder) (c : PyClass) : bool :=
  bool_decide (head (mro b) = Some c).

(** ** Components *)

Inductive Expr :=
  | EVar (x : string)
  | EConst (q : Q)
  | EIndex (x : string) (i : nat)
  | ESub (a b : Expr)
  | EMul (a b : Expr)
  | EDiv (a b : Expr).

Record VarMeta := {
  vm_name : string;
  vm_units : option string;
  vm_shape : option nat;
  vm_val : option NDArr;
  vm_tags : list string;
}.

Definition var_meta (n : string) (u : option string) (s : option nat)
    (v : option NDArr) : VarMeta :=
  {| vm_name := n; vm_units := u; vm_shape := s; vm_val := v; vm_tags := [] |}.

(** One balance of a [BalanceComp]: the state [bal_name] is driven until
    [lhs_name] equals [rhs_name]. *)
Record Balance := {
  bal_name : string;
  bal_units : string;
  bal_val : list Q;
  lhs_name : string;
  rhs_name : string;
  eq_units : string;
  normalize : bool;
  lower : option Q;
  upper : option Q;
  res_ref : option Q;
}.

Inductive Comp :=
  | ParamPort
  | Atmosphere (nn : nat) (output_dsos_dh : bool)
  | GammaComp (nn : nat)
  | UnsteadySolvedFlightConditions (nn : nat) (ground_roll : bool)
      (input_speed_type : SpeedType)
  | UnsteadySolvedEOM (nn : nat) (ground_roll : bool)
  | GroundrollEOM (nn : nat)
  | Group
  | BalanceComp (balances : list Balance)
  | ExecComp (out : string) (rhs : Expr) (units : option string)
      (meta : list VarMeta) (has_diag_partials : bool)
  | Built (s : System).

(** [BalanceComp.add_balance]. *)
Definition add_balance (c : list Balance) (b : Balance) : list Balance :=
  c ++ [b].

(** ** Solvers *)

Inductive LineSearch := BoundsEnforceLS.

(** [om.NewtonSolver]: the options the source sets.  When the source
    assigns nothing, [linesearch] is the [BoundsEnforceLS] the constructor
    creates and [err_on_non_converge] is false. *)
Record NewtonSolver := {
  solve_subsystems : bool;
  atol : Q;
  rtol : Q;
  linesearch : option LineSearch;
  err_on_non_converge : bool;
}.

Definition om_NewtonSolver (ss : bool) (a r : Q) : NewtonSolver :=
  {| solve_subsystems := ss; atol := a; rtol := r;
     linesearch := Some BoundsEnforceLS; err_on_non_converge := false |}.

Definition set_linesearch (ls : LineSearch) (s : NewtonSolver) : NewtonSolver :=
  {| solve_subsystems := solve_subsystems s; atol := atol s; rtol := rtol s;
     linesearch := Some ls; err_on_non_converge := err_on_non_converge s |}.

Definition set_err_on_non_converge (b : bool) (s : NewtonSolver) : NewtonSolver :=
  {| solve_subsystems := solve_subsystems s; atol := atol s; rtol := rtol s;
     linesearch := linesearch s; err_on_non_converge := b |}.

Inductive LinearSolver := DirectSolver (assemble_jac : bool).

(** ** The group under construction *)

Inductive Scope :=
  | TopLevel
  | ControlIterGroup
  | ThrottleBalanceGroup.

Global Instance Scope_eq_dec : EqDecision Scope.
Proof. solve_decision. Defined.

(** One call of [add_subsystem] on the group [scope]. *)
Record Added := {
  scope : Scope;
  sub_name : string;
  subsys : Comp;
  promotes : list Promotion;
  promotes_inputs : list Promotion;
  promotes_outputs : list Promotion;
}.

Record InputDefault := {
  id_name : string;
  id_val : NDArr;
  id_units : option string;
}.

(** The builder methods the assembly calls, for the trace of calls. *)
Inductive Method := BuildMission | MissionInputs | MissionOutputs.

Global Instance Method_eq_dec : EqDecision Method.
Proof. solve_decision. Defined.

Record Call := {
  callee : string;
  method : Method;
  call_kwargs : Kwargs;
}.

(** [self.promotes(name, inputs=..., src_indices=...)]. *)
Record LatePromote := {
  lp_name : string;
  lp_inputs : list string;
  lp_src_indices : list nat;
}.

Record Model := {
  subsystems : list Added;
  nonlinear_solver : Scope -> option NewtonSolver;
  linear_solver : Scope -> option LinearSolver;
  input_defaults : list InputDefault;
  late_promotes : list LatePromote;
  sgm_inputs : list (string * string);
  param_defaults_set : bool;
  calls : list Call;
}.

Definition empty_model : Model :=
  {| subsystems := []; nonlinear_solver := fun _ => None;
     linear_solver := fun _ => None; input_defaults := [];
     late_promotes := []; sgm_inputs := []; param_defaults_set := false;
     calls := [] |}.

Definition add_subsystem (sc : Scope) (n : string) (c : Comp)
    (p pi po : list Promotion) (m : Model) : Model :=
  {| subsystems := subsystems m ++
       [{| scope := sc; sub_name := n; subsys := c; promotes := p;
           promotes_inputs := pi; promotes_outputs := po |}];
     nonlinear_solver := nonlinear_solver m;
     linear_solver := linear_solver m;
     input_defaults := input_defaults m;
     late_promotes := late_promotes m;
     sgm_inputs := sgm_inputs m;
     param_defaults_set := param_defaults_set m;
     calls := calls m |}.

Definition set_nonlinear_solver (sc : Scope) (s : NewtonSolver) (m : Model) : Model :=
  {| subsystems := subsystems m;
     nonlinear_solver := fun sc' => if decide (sc' = sc) then Some s else nonlinear_solver m sc';
     linear_solver := linear_solver m;
     input_defaults := input_defaults m;
     late_promotes := late_promotes m;
     sgm_inputs := sgm_inputs m;
     param_defaults_set := param_defaults_set m;
     calls := calls m |}.

(** Assignment to an option of the solver already attached to a group. *)
Definition modify_nonlinear_solver (sc : Scope)
    (f : NewtonSolver -> NewtonSolver) (m : Model) : Model :=
  {| subsystems := subsystems m;
     nonlinear_solver := fun sc' =>
       if decide (sc' = sc) then f <$> nonlinear_solver m sc'
       else nonlinear_solver m sc';
     linear_solver := linear_solver m;
     input_defaults := input_defaults m;
     late_promotes := late_promotes m;
     sgm_inputs := sgm_inputs m;
     param_defaults_set := param_defaults_set m;
     calls := calls m |}.

Definition set_linear_solver (sc : Scope) (s : LinearSolver) (m : Model) : Model :=
  {| subsystems := subsystems m;
     nonlinear_solver := nonlinear_solver m;
     linear_solver := fun sc' => if decide (sc' = sc) then Some s else linear_solver m sc';
     input_defaults := input_defaults m;
     late_promotes := late_promotes m;
     sgm_inputs := sgm_inputs m;
     param_defaults_set := param_defaults_set m;
     calls := calls m |}.

Definition set_input_defaults (n : string) (v : NDArr) (u : option string)
    (m : Model) : Model :=
  {| subsystems := subsystems m;
     nonlinear_solver := nonlinear_solver m;
     linear_solver := linear_solver m;
     input_defaults := input_defaults m ++
       [{| id_name := n; id_val := v; id_units := u |}];
     late_promotes := late_promotes m;
     sgm_inputs := sgm_inputs m;
     param_defaults_set := param_defaults_set m;
     calls := calls m |}.

Definition self_promotes (n : string) (ins : list string) (idx : list nat)
    (m : Model) : Model :=
  {| subsystems := subsystems m;
     nonlinear_solver := nonlinear_solver m;
     linear_solver := linear_solver m;
     input_defaults := input_defaults m;
     late_promotes := late_promotes m ++
       [{| lp_name := n; lp_inputs := ins; lp_src_indices := idx |}];
     sgm_inputs := sgm_inputs m;
     param_defaults_set := param_defaults_set m;
     calls := calls m |}.

Definition add_SGM_required_inputs (l : list (string * string)) (m : Model) : Model :=
  {| subsystems := subsystems m;
     nonlinear_solver := nonlinear_solver m;
     linear_solver := linear_solver m;
     input_defaults := input_defaults m;
     late_promotes := late_promotes m;
     sgm_inputs := sgm_inputs m ++ l;
     param_defaults_set := param_defaults_set m;
     calls := calls m |}.

(** [ParamPort.set_default_vals(self)]: declared outside these files; only
    the fact that it ran is kept. *)
Definition ParamPort_set_default_vals (m : Model) : Model :=
  {| subsystems := subsystems m;
     nonlinear_solver := nonlinear_solver m;
     linear_solver := linear_solver m;
     input_defaults := input_defaults m;
     late_promotes := late_promotes m;
     sgm_inputs := sgm_inputs m;
     param_defaults_set := true;
     calls := calls m |}.

Definition log_call (b : SubsystemBuilder) (f : Method) (kw : Kwargs)
    (m : Model) : Model :=
  {| subsystems := subsystems m;
     nonlinear_solver := nonlinear_solver m;
     linear_solver := linear_solver m;
     input_defaults := input_defaults m;
     late_promotes := late_promotes m;
     sgm_inputs := sgm_inputs m;
     param_defaults_set := param_defaults_set m;
     calls := calls m ++
       [{| callee := name b; method := f; call_kwargs := kw |}] |}.

(** The balances a model holds, over all its [BalanceComp]s, in order. *)
Definition comp_balances (c : Comp) : list Balance :=
  match c with
  | BalanceComp bs => bs
  | _ => []
  end.

Definition balances_of (m : Model) : list Balance :=
  concat ((fun a => comp_balances (subsys a)) <$> subsystems m).

(** The balances of one group. *)
Definition balances_in (sc : Scope) (m : Model) : list Balance :=
  concat ((fun a => comp_balances (subsys a)) <$>
          filter (fun a => scope a = sc) (subsystems m)).

(** Where a built system called [n] was added, if it was. *)
Definition placed (m : Model) (n : string) (s : System) (sc : Scope) : Prop :=
  ∃ a, a ∈ subsystems m ∧ sub_name a = n ∧ subsys a = Built s ∧ scope a = sc.

(** [l.remove(x)]: the first occurrence goes. *)
Fixpoint list_remove_first (x : Promotion) (l : list Promotion) : list Promotion :=
  match l with
  | [] => []
  | y :: l' => if decide (y = x) then l' else y :: list_remove_first x l'
  end.

(** ** Evaluation of an [ExecComp]

    The right-hand side is evaluated with numpy's broadcasting and written
    into the output array, whose length is the one declared for it.  The
    evaluation is the same for every arithmetic: the type of the numbers,
    the value of a literal and the operations are those of an instance of
    [Arith]. *)

Class Arith (F : Type) := {
  f_lit : Q -> F;
  f_sub : F -> F -> F;
  f_mul : F -> F -> F;
  f_div : F -> F -> F;
}.

(** Exact arithmetic. *)
Global Instance Q_arith : Arith Q :=
  {| f_lit := fun q => q; f_sub := Qminus; f_mul := Qmult; f_div := Qdiv |}.

(** numpy's [float64], which is IEEE binary64, as are the primitive
    floats.  An integer below 2^53 is built exactly, and a literal is the
    correctly rounded quotient of its numerator and denominator. *)
Fixpoint float_of_pos (p : positive) : PrimFloat.float :=
  match p with
  | xH => PrimFloat.one
  | xO p' => PrimFloat.mul PrimFloat.two (float_of_pos p')
  | xI p' =>
      PrimFloat.add (PrimFloat.mul PrimFloat.two (float_of_pos p'))
        PrimFloat.one
  end.

Definition float_of_Z (z : Z) : PrimFloat.float :=
  match z with
  | Z0 => PrimFloat.zero
  | Zpos p => float_of_pos p
  | Zneg p => PrimFloat.opp (float_of_pos p)
  end.

Definition float_of_Q (q : Q) : PrimFloat.float :=
  PrimFloat.div (float_of_Z (Qnum q)) (float_of_pos (Qden q)).

Definition binary64 : Arith PrimFloat.float :=
  {| f_lit := float_of_Q; f_sub := PrimFloat.sub; f_mul := PrimFloat.mul;
     f_div := PrimFloat.div |}.

Definition EnvOf (F : Type) := string -> option (NDArrOf F).

Definition Env := EnvOf Q.

Definition nd_binop {F} (f : F -> F -> F) (a b : NDArrOf F)
    : option (NDArrOf F) :=
  match a, b with
  | Scalar x, Scalar y => Some (Scalar (f x y))
  | Scalar x, Vec v => Some (Vec (f x <$> v))
  | Vec v, Scalar y => Some (Vec ((fun x => f x y) <$> v))
  | Vec v, Vec w =>
      if decide (length v = length w)
      then Some (Vec (zip_with f v w)) else None
  end.

Definition nd_index {F} (a : NDArrOf F) (i : nat) : option (NDArrOf F) :=
  match a with
  | Scalar x => if decide (i = 0%nat) then Some (Scalar x) else None
  | Vec v => Scalar <$> v !! i
  end.

Fixpoint eval_expr {F} {A : Arith F} (env : EnvOf F) (e : Expr)
    : option (NDArrOf F) :=
  match e with
  | EVar x => env x
  | EConst q => Some (Scalar (f_lit q))
  | EIndex x i => a ← env x; nd_index a i
  | ESub a b => x ← eval_expr env a; y ← eval_expr env b; nd_binop f_sub x y
  | EMul a b => x ← eval_expr env a; y ← eval_expr env b; nd_binop f_mul x y
  | EDiv a b => x ← eval_expr env a; y ← eval_expr env b; nd_binop f_div x y
  end.

(** [out[:] = value] for an output of length [n]. *)
Definition nd_assign {F} (n : nat) (a : NDArrOf F) : option (list F) :=
  match a with
  | Scalar x => Some (replicate n x)
  | Vec v => if decide (length v = n) then Some v else None
  end.

Definition meta_length (vm : VarMeta) : nat :=
  match vm_shape vm, vm_val vm with
  | Some n, _ => n
  | None, Some (Vec v) => length v
  | None, _ => 1
  end.

Definition out_length (out : string) (meta : list VarMeta) : nat :=
  match list_find (fun vm => vm_name vm = out) meta with
  | Some (_, vm) => meta_length vm
  | None => 1
  end.

Definition exec_compute {F} {A : Arith F} (c : Comp) (env : EnvOf F)
    : option (list F) :=
  match c with
  | ExecComp out rhs _ meta _ =>
      a ← eval_expr env rhs; nd_assign (out_length out meta) a
  | _ => None
  end.

(** ** The subsystem loop, common shape

    Both [setup] methods start from one [kwargs] dictionary and, for each
    builder in declaration order, first write the builder's entry of
    [subsystem_options] (if any) into that same dictionary and then call
    the builder with it.  The dictionary is never re-created in the loop. *)

Definition loop_kwargs (subsystem_options : gmap string Kwargs)
    (kwargs : Kwargs) (subsystem : SubsystemBuilder) : Kwargs :=
  match subsystem_options !! name subsystem with
  | Some o => dict_update kwargs o
  | None => kwargs
  end.

(** * [UnsteadySolvedODE] *)
Module UnsteadySolvedODE.

(** Options declared by [initialize] and by the base class. *)
Record options := {
  num_nodes : nat;
  aviary_options : PyVal;
  subsystem_options : gmap string Kwargs;
  core_subsystems : list SubsystemBuilder;
  ground_roll : bool;
  clean : bool;
  include_param_comp : bool;
  input_speed_type : SpeedType;
  throttle_enforcement : option ThrottleEnforcement;
  initial_throttle_lapse : Q;
  final_throttle_lapse : Q;
}.

(** Default values of the options [initialize] declares. *)
Definition defaults (nn : nat) (av : PyVal) (so : gmap string Kwargs)
    (cs : list SubsystemBuilder) : options :=
  {| num_nodes := nn; aviary_options := av; subsystem_options := so;
     core_subsystems := cs; ground_roll := false; clean := false;
     include_param_comp := true; input_speed_type := TAS;
     throttle_enforcement := Some path_constraint;
     initial_throttle_lapse := 0; final_throttle_lapse := 0 |}.

Definition is_bounded (te : option ThrottleEnforcement) : bool :=
  bool_decide (te = Some bounded).

(** Lines 152-163: the arguments of [add_balance] for the throttle. *)
Definition throttle_balance (nn : nat)
    (te : option ThrottleEnforcement) : Balance :=
  {| bal_name := Dynamic.Mission.THROTTLE;
     bal_units := "unitless";
     bal_val := np_scale (1 # 2) (np_ones nn);
     lhs_name := Dynamic.Mission.THRUST_TOTAL;
     rhs_name := "thrust_req";
     eq_units := "lbf";
     normalize := false;
     lower := if is_bounded te then Some 0%Q else None;
     upper := if is_bounded te then Some 1%Q else None;
     res_ref := Some (1000000 # 1) |}.

(** Lines 151-163. *)
Definition throttle_balance_comp (nn : nat)
    (te : option ThrottleEnforcement) : list Balance :=
  add_balance [] (throttle_balance nn te).

Definition alpha_balance (nn : nat) : Balance :=
  {| bal_name := "alpha";
     bal_units := "rad";
     bal_val := np_zeros nn;
     lhs_name := "dgam_dt_approx";
     rhs_name := "dgam_dt";
     eq_units := "rad/s";
     normalize := false;
     lower := None;
     upper := None;
     res_ref := None |}.

Definition thrust_req_balance (nn : nat) : Balance :=
  {| bal_name := "thrust_req";
     bal_units := "N";
     bal_val := np_scale (100 # 1) (np_ones nn);
     lhs_name := "dTAS_dt_approx";
     rhs_name := "dTAS_dt";
     eq_units := "m/s**2";
     normalize := false;
     lower := None;
     upper := None;
     res_ref := None |}.

(** Lines 240-258. *)
Definition thrust_alpha_bal (nn : nat) (gr : bool) : list Balance :=
  let b := [] in
  let b := if negb gr then add_balance b (alpha_balance nn) else b in
  add_balance b (thrust_req_balance nn).

(** Lines 207-227: where one built system goes. *)
Definition add_built (subsystem : SubsystemBuilder) (system : System)
    (kwargs : Kwargs) (m : Model) : Model :=
  if isinstance subsystem AerodynamicsBuilderBase then
    let m := log_call subsystem MissionInputs kwargs m in
    let mission_inputs := mission_inputs subsystem kwargs in
    let mission_inputs :=
      if bool_decide (code_origin subsystem = Some FLOPS)
         && bool_decide (PName "angle_of_attack" ∈ mission_inputs)
      then (list_remove_first (PName "angle_of_attack") mission_inputs
            ++ [PAlias "angle_of_attack" "alpha"])%list
      else mission_inputs in
    let m := log_call subsystem MissionOutputs kwargs m in
    add_subsystem ControlIterGroup (name subsystem) (Built system) []
      mission_inputs (mission_outputs subsystem kwargs) m
  else if isinstance subsystem PropulsionBuilderBase then
    let m := log_call subsystem MissionInputs kwargs m in
    let m := log_call subsystem MissionOutputs kwargs m in
    add_subsystem ThrottleBalanceGroup (name subsystem) (Built system) []
      (mission_inputs subsystem kwargs) (mission_outputs subsystem kwargs) m
  else
    let m := log_call subsystem MissionInputs kwargs m in
    let m := log_call subsystem MissionOutputs kwargs m in
    add_subsystem TopLevel (name subsystem) (Built system) []
      (mission_inputs subsystem kwargs) (mission_outputs subsystem kwargs) m.

(** Lines 201-227: one iteration of [for subsystem in core_subsystems]. *)
Definition loop_body (so : gmap string Kwargs) (st : Model * Kwargs)
    (subsystem : SubsystemBuilder) : Model * Kwargs :=
  let '(m, kwargs) := st in
  let kwargs := loop_kwargs so kwargs subsystem in
  let m := log_call subsystem BuildMission kwargs m in
  match build_mission subsystem kwargs with
  | Some system => (add_built subsystem system kwargs m, kwargs)
  | None => (m, kwargs)
  end.

(** Lines 194-200. *)
Definition initial_kwargs (o : options) : Kwargs :=
  let kwargs : Kwargs :=
    <["method" := PyStr "low_speed"]>
      (<["aviary_inputs" := aviary_options o]>
         (<["num_nodes" := PyInt (Z.of_nat (num_nodes o))]> ∅)) in
  if clean o then <["method" := PyStr "cruise"]> kwargs else kwargs.

(** [setup]; [rho_sl] is the constant [RHO_SEA_LEVEL_ENGLISH] of
    [aviary.constants]. *)
Definition setup (rho_sl : Q) (o : options) : Model :=
  let nn := num_nodes o in
  let m := empty_model in
  let m := if include_param_comp o
           then add_subsystem TopLevel "params" ParamPort [PName "*"] [] [] m
           else m in
  let m := add_subsystem TopLevel "atmosphere" (Atmosphere nn true) []
             [PName Dynamic.Mission.ALTITUDE]
             [PName Dynamic.Mission.DENSITY;
              PName Dynamic.Mission.SPEED_OF_SOUND;
              PName Dynamic.Mission.TEMPERATURE;
              PName Dynamic.Mission.STATIC_PRESSURE;
              PName "viscosity_corr";
              PName "drhos_dh_corr";
              PName "dsos_dh_corr"] m in
  let m := add_subsystem TopLevel "flight_path_angle" (GammaComp nn) []
             [PName "*"] [PName "*"] m in
  let m := add_subsystem TopLevel "fc"
             (UnsteadySolvedFlightConditions nn (ground_roll o)
                (input_speed_type o)) []
             [PName "*"] [PName "*"] m in
  let m := add_subsystem TopLevel "control_iter_group" Group []
             [PName "*"] [PName "*"] m in
  let m := add_subsystem TopLevel "throttle_balance_group" Group
             [PName "*"] [] [] m in
  let m := add_subsystem ThrottleBalanceGroup "throttle_balance_comp"
             (BalanceComp (throttle_balance_comp nn (throttle_enforcement o)))
             [] [PName "*"] [PName "*"] m in
  let m := set_nonlinear_solver ThrottleBalanceGroup
             (om_NewtonSolver true (1 # 10000000000) (1 # 10000000000)) m in
  let m := modify_nonlinear_solver ThrottleBalanceGroup
             (set_linesearch BoundsEnforceLS) m in
  let m := set_linear_solver ThrottleBalanceGroup (DirectSolver true) m in
  let m := modify_nonlinear_solver ThrottleBalanceGroup
             (set_err_on_non_converge true) m in
  let m := add_subsystem TopLevel "compute_phase_time"
             (ExecComp "phase_time" (ESub (EVar "time") (EIndex "time" 0))
                (Some "s")
                [var_meta "time" None (Some nn) None;
                 var_meta "phase_time" None (Some nn) None] false)
             [] [PName "time"] [PName "phase_time"] m in
  let m := add_subsystem TopLevel "compute_throttle_residual"
             (ExecComp "throttle_residual"
                (ESub (EVar "computed_throttle") (EVar "prescribed_throttle"))
                None
                [var_meta "prescribed_throttle" None None
                   (Some (Vec (np_linspace (initial_throttle_lapse o)
                                 (final_throttle_lapse o) nn)));
                 var_meta "throttle_residual" None (Some nn) None;
                 var_meta "computed_throttle" None (Some nn) None] false)
             [] [PAlias "computed_throttle" Dynamic.Mission.THROTTLE]
             [PName "throttle_residual"] m in
  let '(m, _) := foldl (loop_body (subsystem_options o))
                   (m, initial_kwargs o) (core_subsystems o) in
  let m := add_subsystem ControlIterGroup "eom"
             (UnsteadySolvedEOM nn (ground_roll o)) []
             [PName "*"; PAlias Dynamic.Mission.THRUST_TOTAL "thrust_req";
              PName Dynamic.Mission.VELOCITY]
             [PName "*"] m in
  let m := add_subsystem ControlIterGroup "thrust_alpha_bal"
             (BalanceComp (thrust_alpha_bal nn (ground_roll o))) []
             [PName "*"] [PName "*"] m in
  let m := set_nonlinear_solver ControlIterGroup
             (om_NewtonSolver true (1 # 10000000000) (1 # 10000000000)) m in
  let m := set_linear_solver ControlIterGroup (DirectSolver true) m in
  let m := add_subsystem TopLevel "mass_rate"
             (ExecComp "dmass_dr" (EMul (EVar "fuelflow") (EVar "dt_dr")) None
                [var_meta "fuelflow" (Some "lbm/s") (Some nn) None;
                 var_meta "dt_dr" (Some "s/distance_units") (Some nn) None;
                 {| vm_name := "dmass_dr";
                    vm_units := Some "lbm/distance_units";
                    vm_shape := Some nn; vm_val := None;
                    vm_tags := ["dymos.state_rate_source:mass";
                                "dymos.state_units:lbm"] |}] true)
             []
             [PAlias "fuelflow" Dynamic.Mission.FUEL_FLOW_RATE_NEGATIVE_TOTAL;
              PName "dt_dr"]
             [PName "dmass_dr"] m in
  let m := add_subsystem TopLevel "char_impedance_comp"
             (ExecComp "char_impedance"
                (EMul (EVar "density") (EVar "speed_of_sound")) None
                [var_meta "char_impedance" (Some "kg/(m**2*s)") (Some nn) None;
                 var_meta "density" (Some "kg/m**3") (Some nn) None;
                 var_meta "speed_of_sound" (Some "m/s") (Some nn) None] false)
             []
             [PAlias "density" Dynamic.Mission.DENSITY;
              PAlias "speed_of_sound" Dynamic.Mission.SPEED_OF_SOUND]
             [PName "char_impedance"] m in
  let m := if include_param_comp o then ParamPort_set_default_vals m else m in
  let onn := np_ones nn in
  let m := set_input_defaults Dynamic.Mission.DENSITY
             (Vec (np_scale rho_sl onn)) (Some "slug/ft**3") m in
  let m := set_input_defaults Dynamic.Mission.SPEED_OF_SOUND
             (Vec (np_scale (11164 # 10) onn)) (Some "ft/s") m in
  let m := if negb (ground_roll o)
           then set_input_defaults Dynamic.Mission.FLIGHT_PATH_ANGLE
                  (Vec (np_scale 0 onn)) (Some "rad") m
           else m in
  let m := set_input_defaults Dynamic.Mission.VELOCITY
             (Vec (np_scale (250 # 1) onn)) (Some "kn") m in
  let m := set_input_defaults Dynamic.Mission.ALTITUDE
             (Vec (np_scale (10000 # 1) onn)) (Some "ft") m in
  let m := set_input_defaults "dh_dr" (Vec (np_scale 0 onn))
             (Some "ft/distance_units") m in
  set_input_defaults "d2h_dr2" (Vec (np_scale 0 onn))
    (Some "ft/distance_units**2") m.

End UnsteadySolvedODE.

(** * [GroundrollODE] *)
Module GroundrollODE.

Record options := {
  num_nodes : nat;
  analysis_scheme : AnalysisScheme;
  aviary_options : PyVal;
  core_subsystems : list SubsystemBuilder;
  subsystem_options : gmap string Kwargs;
  opt_set_input_defaults : bool;
}.

(** Modelled from the spec: [BaseODE.add_atmosphere] is declared in
    [base_ode.py], which is not among the sources; by step 1 of section
    4.3 the atmosphere is always present, at the top level. *)
Definition add_atmosphere (nn : nat) (m : Model) : Model :=
  add_subsystem TopLevel "atmosphere" (Atmosphere nn false) [PName "*"] [] [] m.

(** Lines 53-58: [alpha = i_wing], a scalar input written to all nodes. *)
Definition init_alpha (nn : nat) : Comp :=
  ExecComp "alpha" (EVar "i_wing") None
    [{| vm_name := "i_wing"; vm_units := Some "deg"; vm_shape := None;
        vm_val := Some (Scalar (11 # 10)); vm_tags := [] |};
     {| vm_name := "alpha"; vm_units := Some "deg"; vm_shape := None;
        vm_val := Some (Vec (np_scale (11 # 10) (np_ones nn)));
        vm_tags := [] |}] false.

(** Lines 62-77: one iteration of [for subsystem in core_subsystems]. *)
Definition loop_body (nn : nat) (so : gmap string Kwargs)
    (st : Model * Kwargs) (subsystem : SubsystemBuilder) : Model * Kwargs :=
  let '(m, kwargs) := st in
  let kwargs := loop_kwargs so kwargs subsystem in
  let m := log_call subsystem BuildMission kwargs m in
  let m :=
    match build_mission subsystem kwargs with
    | Some system =>
        let m := log_call subsystem MissionInputs kwargs m in
        let m := log_call subsystem MissionOutputs kwargs m in
        add_subsystem TopLevel (name subsystem) (Built system) []
          (mission_inputs subsystem kwargs)
          (mission_outputs subsystem kwargs) m
    | None => m
    end in
  let m :=
    if type_is subsystem AerodynamicsBuilderBase
    then self_promotes (name subsystem) ["alpha"] (replicate nn 0%nat) m
    else m in
  (m, kwargs).

Definition initial_kwargs (o : options) : Kwargs :=
  <["method" := PyStr "low_speed"]>
    (<["aviary_inputs" := aviary_options o]>
       (<["num_nodes" := PyInt (Z.of_nat (num_nodes o))]> ∅)).

Definition ones_meta (n u : string) (nn : nat) : VarMeta :=
  var_meta n (Some u) None (Some (Vec (np_ones nn))).

Definition setup (o : options) : Model :=
  let nn := num_nodes o in
  let m := empty_model in
  let m := if decide (analysis_scheme o = SHOOTING)
           then add_SGM_required_inputs [(Dynamic.Mission.DISTANCE, "ft")] m
           else m in
  let m := add_subsystem TopLevel "params" ParamPort [PName "*"] [] [] m in
  let m := add_atmosphere nn m in
  let m := add_subsystem TopLevel "init_alpha" (init_alpha nn)
             [PAlias "i_wing" Aircraft.Wing.INCIDENCE; PName "alpha"]
             [] [] m in
  let '(m, _) := foldl (loop_body nn (subsystem_options o))
                   (m, initial_kwargs o) (core_subsystems o) in
  let m := add_subsystem TopLevel "groundroll_eom" (GroundrollEOM nn)
             [PName "*"] [] [] m in
  let m := add_subsystem TopLevel "exec"
             (ExecComp "over_a" (EDiv (EVar "velocity") (EVar "velocity_rate"))
                None
                [ones_meta "velocity_rate" "kn/s" nn;
                 ones_meta "velocity" "kn" nn;
                 ones_meta "over_a" "s" nn] true)
             [PName "*"] [] [] m in
  let m := add_subsystem TopLevel "exec2"
             (ExecComp "dt_dv" (EDiv (EConst 1) (EVar "velocity_rate")) None
                [ones_meta "velocity_rate" "kn/s" nn;
                 ones_meta "dt_dv" "s/kn" nn] true)
             [PName "*"] [] [] m in
  let m := add_subsystem TopLevel "exec3"
             (ExecComp "dmass_dv" (EMul (EVar "mass_rate") (EVar "dt_dv")) None
                [ones_meta "mass_rate" "lbm/s" nn;
                 ones_meta "dt_dv" "s/kn" nn;
                 ones_meta "dmass_dv" "lbm/kn" nn] true)
             []
             [PAlias "mass_rate" Dynamic.Mission.FUEL_FLOW_RATE_NEGATIVE_TOTAL;
              PName "dt_dv"]
             [PName "dmass_dv"] m in
  let m := ParamPort_set_default_vals m in
  let m :=
    if opt_set_input_defaults o then
      let m := set_input_defaults "t_init_flaps" (Scalar (100 # 1)) None m in
      let m := set_input_defaults "t_init_gear" (Scalar (100 # 1)) None m in
      let m := set_input_defaults "aero_ramps.flap_factor:final_val"
                 (Scalar 1) None m in
      let m := set_input_defaults "aero_ramps.gear_factor:final_val"
                 (Scalar 1) None m in
      let m := set_input_defaults "aero_ramps.flap_factor:initial_val"
                 (Scalar 1) None m in
      let m := set_input_defaults "aero_ramps.gear_factor:initial_val"
                 (Scalar 1) None m in
      set_input_defaults "t_curr" (Vec (np_zeros nn)) (Some "s") m
    else m in
  let m := set_input_defaults Dynamic.Mission.FLIGHT_PATH_ANGLE
             (Vec (np_zeros nn)) (Some "deg") m in
  let m := set_input_defaults Dynamic.Mission.ALTITUDE
             (Vec (np_zeros nn)) (Some "ft") m in
  let m := set_input_defaults Dynamic.Mission.VELOCITY
             (Vec (np_zeros nn)) (Some "kn") m in
  let m := set_input_defaults Dynamic.Mission.VELOCITY_RATE
             (Vec (np_zeros nn)) (Some "kn/s") m in
  set_input_defaults Aircraft.Wing.INCIDENCE
    (Scalar (- (854237 # 1000000))) (Some "deg") m.

End GroundrollODE.

(** * The balance solve

    The Newton iteration is OpenMDAO's and is not part of the repository's
    sources; what [setup] contributes is the configuration of the two
    solvers and the balances they work on.  The iteration is modelled from
    section 4.4 of the specification, over an arbitrary Newton update and
    an arbitrary convergence test. *)

Inductive SolveState :=
  | CONVERGED
  | DIVERGED_MAXITER
  | DIVERGED_SINGULAR.

Inductive Exception :=
  | AnalysisError
  | SingularMatrixError.

Section NewtonRun.
Context {X : Type}.
(** Residual norms below [atol] and [rtol]. *)
Variable converged : X -> bool.
(** One Newton update through the direct linear solve; [None] when the
    Jacobian is singular. *)
Variable newton_step : X -> option X.
(** The line search applied to the updated point. *)
Variable ls : X -> X.

(** Modelled from the spec: the state machine of section 4.4.  From the
    initial guesses the solve iterates Newton steps, each followed by the
    line search, until the residuals pass the tolerances ([CONVERGED]), the
    iteration count exceeds the configured maximum, or the linear solve is
    singular (both [DIVERGED]). *)
Fixpoint newton_run (maxiter : nat) (x : X) : SolveState * X :=
  if converged x then (CONVERGED, x)
  else match maxiter with
       | O => (DIVERGED_MAXITER, x)
       | S k =>
           match newton_step x with
           | None => (DIVERGED_SINGULAR, x)
           | Some x' => newton_run k (ls x')
           end
       end.

(** Modelled from the spec: what the group's solve hands to the evaluation
    of the phase.  The specification makes every diverged solve an error;
    here the error of an exceeded iteration limit is governed by the option
    the source sets on the solver, [err_on_non_converge], and a singular
    direct solve always raises. *)
Definition raise_or_return (cfg : NewtonSolver) (r : SolveState * X)
    : Exception + X :=
  match r with
  | (CONVERGED, x') => inr x'
  | (DIVERGED_MAXITER, x') =>
      if err_on_non_converge cfg then inl AnalysisError else inr x'
  | (DIVERGED_SINGULAR, _) => inl SingularMatrixError
  end.

(** Modelled from the spec: the solve of one group. *)
Definition newton_solve (cfg : NewtonSolver) (maxiter : nat) (x : X)
    : Exception + X :=
  raise_or_return cfg (newton_run maxiter x).
End NewtonRun.

(** Modelled from the spec: the bounds-respecting line search of section
    4.4 ([BoundsEnforceLS] is OpenMDAO's), on one entry: a value outside a
    declared bound is put on the bound; without bounds nothing moves. *)
Definition enforce_bounds (lo hi : option Q) (x : Q) : Q :=
  let x := match lo with
           | Some l => if Qlt_le_dec x l then l else x
           | None => x
           end in
  match hi with
  | Some h => if Qlt_le_dec h x then h else x
  | None => x
  end.

(** Modelled from the spec: the line search of a solver on the vector of a
    balance. *)
Definition apply_linesearch (s : option LineSearch) (b : Balance)
    (v : list Q) : list Q :=
  match s with
  | Some BoundsEnforceLS => enforce_bounds (lower b) (upper b) <$> v
  | None => v
  end.

(** ** One evaluation of the phase

    The evaluation is OpenMDAO's.  By sections 2 and 4.4 of the
    specification the two groups are solved from the initial guesses of
    their balances; the top-level group has no solver of its own and runs
    its members once, in the order [setup] added them, the control-iteration
    group before the throttle-balance group. *)
Section Evaluate.
Variable ci_converged : list (list Q) -> bool.
Variable ci_step : list (list Q) -> option (list (list Q)).
Variable tb_converged : list (list Q) -> list Q -> bool.
Variable tb_step : list (list Q) -> list Q -> option (list Q).

(** Modelled from the spec: the state the control-iteration solve ends in,
    with its last point.  The source assigns no line search to the solver
    of this group, and the one the constructor creates moves nothing, for
    the balances of the group carry no bounds. *)
Definition control_iter_state (m : Model) (maxiter : nat)
    : SolveState * list (list Q) :=
  newton_run ci_converged ci_step id maxiter
    (bal_val <$> balances_in ControlIterGroup m).

(** Modelled from the spec: the control-iteration solve under the solver
    the model attaches to the group. *)
Definition solve_control_iter (m : Model) (maxiter : nat)
    : option (Exception + list (list Q)) :=
  cfg ← nonlinear_solver m ControlIterGroup;
  Some (raise_or_return cfg (control_iter_state m maxiter)).

(** Modelled from the spec: the state the throttle solve ends in, with its
    last point, given the controls [c] the control iteration left. *)
Definition throttle_state (m : Model) (maxiter : nat) (c : list (list Q))
    : option (SolveState * list Q) :=
  cfg ← nonlinear_solver m ThrottleBalanceGroup;
  b ← head (balances_in ThrottleBalanceGroup m);
  Some (newton_run (tb_converged c) (tb_step c)
          (apply_linesearch (linesearch cfg) b) maxiter (bal_val b)).

(** Modelled from the spec: the throttle solve under the solver the model
    attaches to the group. *)
Definition solve_throttle (m : Model) (maxiter : nat) (c : list (list Q))
    : option (Exception + list Q) :=
  cfg ← nonlinear_solver m ThrottleBalanceGroup;
  r ← throttle_state m maxiter c;
  Some (raise_or_return cfg r).

(** Modelled from the spec: one evaluation of the phase; an exception of
    either solve ends it.  The result is [None] only for a model that lacks
    one of the two solvers or the throttle balance. *)
Definition evaluate_phase (m : Model) (maxiter : nat)
    : option (Exception + (list (list Q) * list Q)) :=
  r ← solve_control_iter m maxiter;
  match r with
  | inl e => Some (inl e)
  | inr c =>
      r' ← solve_throttle m maxiter c;
      match r' with
      | inl e => Some (inl e)
      | inr t => Some (inr (c, t))
      end
  end.
End Evaluate.

(** * [PropellerMap] *)
Module PropellerMap.

(** The members of the enumeration [PropModelVariables] the module
    binds at its top. *)
Inductive PropModelVariables := MACH | CP | CT | J.

Global Instance PropModelVariables_eq_dec : EqDecision PropModelVariables.
Proof. solve_decision. Defined.

Global Instance PropModelVariables_countable : Countable PropModelVariables.
Proof.
  refine (inj_countable'
    (fun v => match v with MACH => 0 | CP => 1 | CT => 2 | J => 3 end)%nat
    (fun n => match n with 0 => MACH | 1 => CP | 2 => CT | _ => J end)%nat _).
  intros []; reflexivity.
Defined.

(** [for key in PropModelVariables]. *)
Definition all_variables : list PropModelVariables := [MACH; CP; CT; J].

(** [key.name]. *)
Definition variable_name (v : PropModelVariables) : string :=
  match v with MACH => "MACH" | CP => "CP" | CT => "CT" | J => "J" end.

(** Lines 20-27. *)
Definition aliases : list (PropModelVariables * list string) :=
  [(MACH, ["m"; "mn"; "mach"; "mach_number"]);
   (CP, ["cp"; "power_coefficient"]);
   (CT, ["ct"; "thrust_coefficient"]);
   (J, ["j"; "advance_ratio"])].

(** A key of the data read from a file: a member of the enumeration for
    a header that matched an alias, the header itself otherwise. *)
Abbreviation DataKey := (PropModelVariables + string)%type.

(** [key in aliases]: the member of the enumeration the dictionary has
    as [key], if any; a string never equals a member. *)
Definition in_aliases (key : DataKey) : option PropModelVariables :=
  match key with
  | inl v => if bool_decide (v ∈ aliases.*1) then Some v else None
  | inr _ => None
  end.

Definition key_text (key : DataKey) : string :=
  match key with
  | inl v => "PropModelVariables." ++ variable_name v
  | inr h => h
  end.

(** One column: its key, its values and the units the file declares. *)
Abbreviation Column := (DataKey * (list Q * string))%type.

(** Lowering and white space, for the comparison of a header with the
    aliases. *)
Definition lower_ascii (c : ascii) : ascii :=
  let n := nat_of_ascii c in
  if (65 <=? n)%nat && (n <=? 90)%nat then ascii_of_nat (n + 32) else c.

Definition is_space (c : ascii) : bool :=
  let n := nat_of_ascii c in
  bool_decide (n = 32 ∨ n = 9 ∨ n = 10 ∨ n = 13)%nat.

Fixpoint underscore_spaces (s : string) : string :=
  match s with
  | EmptyString => EmptyString
  | String c s' =>
      String (if is_space c then "_"%char else c) (underscore_spaces s')
  end.

Fixpoint lower (s : string) : string :=
  match s with
  | EmptyString => EmptyString
  | String c s' => String (lower_ascii c) (lower s')
  end.

(** Modelled from the spec: [read_data_file] of [aviary.utils.csv_data_file]
    is not among the sources.  The specification gives it an aliasable
    header schema ([mach] to MACH, [cp] to CP, [ct] to CT, [j] to J) and
    lets unrecognized columns through; the comment above [aliases] adds
    that whitespace is replaced by underscores and the header lowered
    before it is compared with the aliases. *)
Definition resolve_header (h : string) : DataKey :=
  let n := underscore_spaces h in
  match list_find (fun kv : PropModelVariables * list string =>
                     lower n ∈ kv.2) aliases with
  | Some (_, kv) => inl kv.1
  | None => inr n
  end.

(** Modelled from the spec: what [read_data_file] returns for the columns
    of a file, each under its resolved key. *)
Definition read_columns (cols : list (string * (list Q * string)))
    : list Column :=
  (fun c => (resolve_header c.1, c.2)) <$> cols.

Inductive PyExc :=
  | TypeError (msg : string)
  | UserWarning (msg : string).

(** The attributes [__init__] creates. *)
Record state := {
  _original_data : gmap DataKey (list Q);
  data : gmap PropModelVariables (list Q);
  propeller_variables : gmap PropModelVariables string;
}.

(** Lines 48-53. *)
Definition init_state : state :=
  {| _original_data :=
       list_to_map ((fun key => (inl key, [])) <$> all_variables);
     data := list_to_map ((fun key => (key, [])) <$> all_variables);
     propeller_variables := ∅ |}.

Section ReadData.
(** [openmdao.utils.units.convert_units]; [None] when it raises
    [TypeError]. *)
Variable convert_units : Q -> string -> string -> option Q.
(** [default_prop_units] of [aviary.subsystems.propulsion.utils]. *)
Variable default_prop_units : PropModelVariables -> string.
(** [self.get_val(name).value].  [PropellerMap] defines no [get_val]: the
    method is the one it inherits from [om.ExplicitComponent], which is
    not among the sources.  [inl] when the call raises. *)
Variable get_val : string -> PyExc + Z.
(** The columns of the file at a path: header, values, units. *)
Variable file : string -> list (string * (list Q * string)).

(** Modelled from the spec: [read_data_file(data_file, aliases=aliases)]. *)
Definition read_data_file (data_file : string) : list Column :=
  read_columns (file data_file).

Definition unrecognized_warning (message : string) (key : DataKey) : string :=
  message ++ ": header <" ++ key_text key
    ++ "> was not recognized, and will be skipped".

Definition units_error (message units : string)
    (v : PropModelVariables) : PyExc :=
  TypeError (message ++ ": units of '" ++ units ++ "' provided for <"
             ++ variable_name v
             ++ "> are not compatible with expected units of "
             ++ default_prop_units v).

(** Lines 66-88: the body of [for key in get_keys(raw_data)].  The
    warnings issued so far are threaded along and survive an
    exception. *)
Definition read_column (message : string) (w : list string) (st : state)
    (col : Column) : list string * (PyExc + state) :=
  let '(key, (val, units)) := col in
  match in_aliases key with
  | Some v =>
      match mapM (fun i => convert_units i units (default_prop_units v))
              val with
      | Some val' =>
          (w, inr {| _original_data := <[key := val']> (_original_data st);
                     data := data st;
                     propeller_variables :=
                       <[v := default_prop_units v]>
                         (propeller_variables st) |})
      | None => (w, inl (units_error message units v))
      end
  | None =>
      match get_val Settings.VERBOSITY with
      | inl e => (w, inl e)
      | inr verbosity =>
          let w := if (1 <=? verbosity)%Z
                   then (w ++ [unrecognized_warning message key])%list
                   else w in
          (w, inr {| _original_data := <[key := val]> (_original_data st);
                     data := data st;
                     propeller_variables := propeller_variables st |})
      end
  end.

Fixpoint read_loop (message : string) (w : list string) (st : state)
    (cols : list Column) : list string * (PyExc + state) :=
  match cols with
  | [] => (w, inr st)
  | col :: cols' =>
      match read_column message w st col with
      | (w', inr st') => read_loop message w' st' cols'
      | (w', inl e) => (w', inl e)
      end
  end.

(** Lines 99-100: every key of [data] takes its column of
    [_original_data], which holds all of them from [__init__] on. *)
Definition copy_data (st : state) : state :=
  {| _original_data := _original_data st;
     data := map_imap (fun key _ => _original_data st !! inl key) (data st);
     propeller_variables := propeller_variables st |}.

(** Lines 58-100. *)
Definition _read_data (st : state) (data_file : string)
    : list string * (PyExc + state) :=
  let raw_data := read_data_file data_file in
  let message := "<" ++ data_file ++ ">" in
  match read_loop message [] st raw_data with
  | (w, inl e) => (w, inl e)
  | (w, inr st') =>
      if bool_decide (propeller_variables st' = ∅)
      then (w, inl (UserWarning
                      ("No valid propeller variables found in data for "
                       ++ message)))
      else (w, inr (copy_data st'))
  end.

(** [PropellerMap(options=...)] with the data file the options name:
    [_read_data] runs inside [__init__]. *)
Definition load (data_file : string) : list string * (PyExc + state) :=
  _read_data init_state data_file.
End ReadData.

(** [om.System.get_val] as [__init__] meets it.  The object has only been
    constructed: it belongs to no problem yet, the method indexes the
    problem metadata, which is still [None], and the call raises
    [TypeError] before any value is read, whatever the name. *)
Definition get_val_error : PyExc :=
  TypeError "'NoneType' object is not subscriptable".

Definition System_get_val (name : string) : PyExc + Z := inl get_val_error.

(** ** [read_and_set_mach_type] *)

(** [str.isspace] on the code points below 256. *)
Definition py_isspace (c : ascii) : bool :=
  let n := nat_of_ascii c in
  ((9 <=? n)%nat && (n <=? 13)%nat) || ((28 <=? n)%nat && (n <=? 32)%nat)
  || (n =? 133)%nat || (n =? 160)%nat.

(** [f.readline()] on the text that is left of a file opened in text mode:
    the line up to and including its newline, and the rest.  At the end of
    the file the line is empty. *)
Fixpoint readline (text : string) : string * string :=
  match text with
  | EmptyString => (EmptyString, EmptyString)
  | String c rest =>
      if Ascii.eqb c "010"%char then (String c EmptyString, rest)
      else let '(line, rest') := readline rest in (String c line, rest')
  end.

(** [line.split()]: the maximal runs of characters that are not white
    space; [cur] is the run being read. *)
Fixpoint split_from (cur : string) (line : string) : list string :=
  match line with
  | EmptyString =>
      match cur with
      | EmptyString => []
      | _ => [cur]
      end
  | String c line' =>
      if py_isspace c then
        match cur with
        | EmptyString => split_from EmptyString line'
        | _ => cur :: split_from EmptyString line'
        end
      else split_from (cur ++ String c EmptyString) line'
  end.

Definition split (line : string) : list string := split_from EmptyString line.

Inductive MachTypeExc :=
  | FileNotFoundError
  | IndexError.

(** Lines 102-117.  [open_text] gives the text of the file [get_path]
    resolves the name to, [None] when [get_path] or [open] raises. *)
Definition read_and_set_mach_type (open_text : string -> option string)
    (data_file : string) : MachTypeExc + string :=
  match open_text data_file with
  | None => inl FileNotFoundError
  | Some f =>
      let '(line, f) := readline f in
      let '(line, f) := readline f in
      let '(line, f) := readline f in
      let '(line, f) := readline f in
      match split line !! 3%nat with
      | Some mach_type => inr mach_type
      | None => inl IndexError
      end
  end.

(** ** [build_propeller_interpolator] *)

(** An input or output of the metamodel with its training data. *)
Record MetaModelVar := {
  mv_name : string;
  mv_training_data : list Q;
  mv_units : string;
  mv_desc : string;
}.

Record MetaModelSemiStructuredComp := {
  mm_method : string;
  mm_extrapolate : bool;
  mm_vec_size : nat;
  mm_inputs : list MetaModelVar;
  mm_outputs : list MetaModelVar;
}.

(** Lines 125-153.  [interp_method] is
    [options.get_val(Aircraft.Engine.INTERPOLATION_METHOD)]; the result is
    [None] when an index of [self.data] raises [KeyError]. *)
Definition build_propeller_interpolator (st : state) (num_nodes : nat)
    (interp_method : string) : option MetaModelSemiStructuredComp :=
  mach ← data st !! MACH;
  cp ← data st !! CP;
  j ← data st !! J;
  ct ← data st !! CT;
  Some {| mm_method := interp_method;
          mm_extrapolate := true;
          mm_vec_size := num_nodes;
          mm_inputs :=
            [{| mv_name := "selected_mach"; mv_training_data := mach;
                mv_units := "unitless";
                mv_desc := "Current flight Mach number" |};
             {| mv_name := "power_coefficient"; mv_training_data := cp;
                mv_units := "unitless";
                mv_desc := "Current power coefficient" |};
             {| mv_name := "advance_ratio"; mv_training_data := j;
                mv_units := "unitless";
                mv_desc := "Current advance ratio" |}];
          mm_outputs :=
            [{| mv_name := "thrust_coefficient"; mv_training_data := ct;
                mv_units := "unitless";
                mv_desc := "Current thrust coefficient" |}] |}.

End PropellerMap.

(** ** Vocabulary of the properties *)

(** The dictionary a builder is called with when it comes after the
    builders [before] in declaration order. *)
Definition kwargs_at (so : gmap string Kwargs) (kwargs0 : Kwargs)
    (before : list SubsystemBuilder) (subsystem : SubsystemBuilder) : Kwargs :=
  loop_kwargs so (foldl (loop_kwargs so) kwargs0 before) subsystem.

Definition called (m : Model) (b : SubsystemBuilder) (f : Method)
    (kw : Kwargs) : Prop :=
  {| callee := name b; method := f; call_kwargs := kw |} ∈ calls m.

Definition has_balance (m : Model) (n : string) : Prop :=
  ∃ b, b ∈ balances_of m ∧ bal_name b = n.

(** The group the class of a builder selects in [UnsteadySolvedODE]: the
    test for an aerodynamics builder comes first. *)
Definition route (b : SubsystemBuilder) : Scope :=
  if isinstance b AerodynamicsBuilderBase then ControlIterGroup
  else if isinstance b PropulsionBuilderBase then ThrottleBalanceGroup
  else TopLevel.

Definition with_ground_roll (gr : bool) (o : UnsteadySolvedODE.options)
    : UnsteadySolvedODE.options :=
  {| UnsteadySolvedODE.num_nodes := UnsteadySolvedODE.num_nodes o;
     UnsteadySolvedODE.aviary_options := UnsteadySolvedODE.aviary_options o;
     UnsteadySolvedODE.subsystem_options := UnsteadySolvedODE.subsystem_options o;
     UnsteadySolvedODE.core_subsystems := UnsteadySolvedODE.core_subsystems o;
     UnsteadySolvedODE.ground_roll := gr;
     UnsteadySolvedODE.clean := UnsteadySolvedODE.clean o;
     UnsteadySolvedODE.include_param_comp := UnsteadySolvedODE.include_param_comp o;
     UnsteadySolvedODE.input_speed_type := UnsteadySolvedODE.input_speed_type o;
     UnsteadySolvedODE.throttle_enforcement := UnsteadySolvedODE.throttle_enforcement o;
     UnsteadySolvedODE.initial_throttle_lapse := UnsteadySolvedODE.initial_throttle_lapse o;
     UnsteadySolvedODE.final_throttle_lapse := UnsteadySolvedODE.final_throttle_lapse o |}.

(** The value [set_input_defaults] leaves for a name: the last one set. *)
Definition input_default (m : Model) (n : string) : option InputDefault :=
  last (filter (fun d => id_name d = n) (input_defaults m)).

(** The initial guess of the balance named [n]: there is such a balance,
    and every balance of that name starts from [v]. *)
Definition initial_guess (m : Model) (n : string) (v : list Q) : Prop :=
  has_balance m n ∧ ∀ b, b ∈ balances_of m → bal_name b = n → bal_val b = v.

(** ** Example phases *)

Definition core_aerodynamics : SubsystemBuilder :=
  {| name := "core_aerodynamics";
     mro := [UserClass "CoreAerodynamicsBuilder"; AerodynamicsBuilderBase;
             SubsystemBuilderBase];
     code_origin := Some GASP;
     build_mission := fun _ => Some (MkSystem "aero");
     mission_inputs := fun _ => [PName "*"];
     mission_outputs := fun _ => [PName "*"] |}.

Definition core_propulsion : SubsystemBuilder :=
  {| name := "core_propulsion";
     mro := [UserClass "CorePropulsionBuilder"; PropulsionBuilderBase;
             SubsystemBuilderBase];
     code_origin := None;
     build_mission := fun _ => Some (MkSystem "engines");
     mission_inputs := fun _ => [PName "*"];
     mission_outputs := fun _ => [PName "*"] |}.

(** A three-node flight phase with the two core builders. *)
Definition example_phase (te : option ThrottleEnforcement)
    : UnsteadySolvedODE.options :=
  {| UnsteadySolvedODE.num_nodes := 3;
     UnsteadySolvedODE.aviary_options := PyObj "aviary_options";
     UnsteadySolvedODE.subsystem_options := ∅;
     UnsteadySolvedODE.core_subsystems := [core_aerodynamics; core_propulsion];
     UnsteadySolvedODE.ground_roll := false;
     UnsteadySolvedODE.clean := false;
     UnsteadySolvedODE.include_param_comp := true;
     UnsteadySolvedODE.input_speed_type := TAS;
     UnsteadySolvedODE.throttle_enforcement := te;
     UnsteadySolvedODE.initial_throttle_lapse := 0;
     UnsteadySolvedODE.final_throttle_lapse := 0 |}.

Definition example_rho_sl : Q := 23769 # 10000000.

(** A throttle update that overshoots: every entry is raised by seven. *)
Definition overshoot_step (_ : list (list Q)) (t : list Q) : option (list Q) :=
  Some ((fun x => x + 7)%Q <$> t).

(** The throttle balance counts as converged once every entry is one. *)
Definition all_ones (_ : list (list Q)) (t : list Q) : bool :=
  forallb (Qeq_bool 1) t.

(** A control iteration that never converges and never fails to step. *)
Definition never_converged (_ : list (list Q)) : bool := false.
Definition idle_step (c : list (list Q)) : option (list (list Q)) := Some c.
Definition singular_step (c : list (list Q)) : option (list (list Q)) := None.

(** A throttle balance that never passes the convergence test. *)
Definition throttle_never_converged (_ : list (list Q)) (_ : list Q) : bool :=
  false.

(** A ground-roll phase with the two core builders. *)
Definition example_groundroll : GroundrollODE.options :=
  {| GroundrollODE.num_nodes := 3;
     GroundrollODE.analysis_scheme := COLLOCATION;
     GroundrollODE.aviary_options := PyObj "aviary_options";
     GroundrollODE.core_subsystems := [core_aerodynamics; core_propulsion];
     GroundrollODE.subsystem_options := ∅;
     GroundrollODE.opt_set_input_defaults := true |}.

(** A builder whose class derives from both base classes. *)
Definition hybrid_builder : SubsystemBuilder :=
  {| name := "hybrid";
     mro := [UserClass "HybridBuilder"; AerodynamicsBuilderBase;
             PropulsionBuilderBase; SubsystemBuilderBase];
     code_origin := Some GASP;
     build_mission := fun _ => Some (MkSystem "hybrid");
     mission_inputs := fun _ => [];
     mission_outputs := fun _ => [] |}.

(** An environment that gives the wing incidence only. *)
Definition incidence_env (w : Q) : Env :=
  fun x => if decide (x = "i_wing") then Some (Scalar w) else None.

(** A flight phase whose aerodynamics builder has an entry in
    [subsystem_options]. *)
Definition example_overrides : gmap string Kwargs :=
  {[ "core_aerodynamics" := {[ "solve_alpha" := PyBool true ]} ]}.

Definition example_phase_overridden : UnsteadySolvedODE.options :=
  {| UnsteadySolvedODE.num_nodes := 3;
     UnsteadySolvedODE.aviary_options := PyObj "aviary_options";
     UnsteadySolvedODE.subsystem_options := example_overrides;
     UnsteadySolvedODE.core_subsystems := [core_aerodynamics; core_propulsion];
     UnsteadySolvedODE.ground_roll := false;
     UnsteadySolvedODE.clean := false;
     UnsteadySolvedODE.include_param_comp := true;
     UnsteadySolvedODE.input_speed_type := TAS;
     UnsteadySolvedODE.throttle_enforcement := Some path_constraint;
     UnsteadySolvedODE.initial_throttle_lapse := 0;
     UnsteadySolvedODE.final_throttle_lapse := 0 |}.

Definition example_groundroll_overridden : GroundrollODE.options :=
  {| GroundrollODE.num_nodes := 3;
     GroundrollODE.analysis_scheme := COLLOCATION;
     GroundrollODE.aviary_options := PyObj "aviary_options";
     GroundrollODE.core_subsystems := [core_aerodynamics; core_propulsion];
     GroundrollODE.subsystem_options := example_overrides;
     GroundrollODE.opt_set_input_defaults := true |}.

(** ** Vocabulary and examples for the propeller map *)

(** Whether [key in aliases] holds for the key of a column. *)
Definition recognized (key : PropellerMap.DataKey) : bool :=
  match PropellerMap.in_aliases key with
  | Some _ => true
  | None => false
  end.

Definition recognized_header (c : string * (list Q * string)) : bool :=
  recognized (PropellerMap.resolve_header c.1).

(** A unit conversion that accepts equal units only. *)
Definition same_units_only (q : Q) (units new_units : string) : option Q :=
  if decide (units = new_units) then Some q else None.

Definition all_unitless (_ : PropellerMap.PropModelVariables) : string :=
  "unitless".

(** A file with a Mach column and a column of an unknown header. *)
Definition mach_rpm_file (_ : string) : list (string * (list Q * string)) :=
  [("Mach", ([1 # 2; 3 # 4]%Q, "unitless")); ("RPM", ([1000 # 1]%Q, "rpm"))].

(** A file with unknown headers only. *)
Definition rpm_file (_ : string) : list (string * (list Q * string)) :=
  [("RPM", ([1000 # 1]%Q, "rpm"))].

(** A file with a Mach and a thrust-coefficient column only. *)
Definition mach_ct_file (_ : string) : list (string * (list Q * string)) :=
  [("mach", ([1 # 2; 3 # 4]%Q, "unitless")); ("ct", ([1 # 5; 1 # 4]%Q, "unitless"))].

(** ** Vocabulary for the effect of the subsystem loop *)

(** Lines 208-211 of [unsteady_solved_ode.py]: the inputs the system of an
    aerodynamics builder is promoted with. *)
Definition aero_promoted_inputs (b : SubsystemBuilder) (kw : Kwargs)
    : list Promotion :=
  let mi := mission_inputs b kw in
  if bool_decide (code_origin b = Some FLOPS)
     && bool_decide (PName "angle_of_attack" ∈ mi)
  then (list_remove_first (PName "angle_of_attack") mi
        ++ [PAlias "angle_of_attack" "alpha"])%list
  else mi.

(** The builders that return a system, in declaration order, each with
    its system and the dictionary it was called with. *)
Fixpoint built_list (so : gmap string Kwargs) (kw : Kwargs)
    (l : list SubsystemBuilder) : list (SubsystemBuilder * System * Kwargs) :=
  match l with
  | [] => []
  | b :: l' =>
      let kw' := loop_kwargs so kw b in
      match build_mission b kw' with
      | Some s => (b, s, kw') :: built_list so kw' l'
      | None => built_list so kw' l'
      end
  end.

(** What [UnsteadySolvedODE.setup] adds for a built system. *)
Definition U_entry (x : SubsystemBuilder * System * Kwargs) : Added :=
  let '(b, s, kw) := x in
  {| scope := route b; sub_name := name b; subsys := Built s; promotes := [];
     promotes_inputs :=
       if isinstance b AerodynamicsBuilderBase then aero_promoted_inputs b kw
       else mission_inputs b kw;
     promotes_outputs := mission_outputs b kw |}.

(** What [GroundrollODE.setup] adds for a built system. *)
Definition G_entry (x : SubsystemBuilder * System * Kwargs) : Added :=
  let '(b, s, kw) := x in
  {| scope := TopLevel; sub_name := name b; subsys := Built s; promotes := [];
     promotes_inputs := mission_inputs b kw;
     promotes_outputs := mission_outputs b kw |}.

(** The promotion of [alpha] [GroundrollODE.setup] makes for a builder. *)
Definition G_promote (nn : nat) (b : SubsystemBuilder) : LatePromote :=
  {| lp_name := name b; lp_inputs := ["alpha"];
     lp_src_indices := replicate nn 0%nat |}.

(** The calls of builder methods the loop makes, in order. *)
Fixpoint loop_trace (so : gmap string Kwargs) (kw : Kwargs)
    (l : list SubsystemBuilder) : list Call :=
  match l with
  | [] => []
  | b :: l' =>
      let kw' := loop_kwargs so kw b in
      ({| callee := name b; method := BuildMission; call_kwargs := kw' |}
       :: match build_mission b kw' with
          | Some _ =>
              [{| callee := name b; method := MissionInputs; call_kwargs := kw' |};
               {| callee := name b; method := MissionOutputs; call_kwargs := kw' |}]
          | None => []
          end
       ++ loop_trace so kw' l')%list
  end.

(** The arrays a model declares: the initial values of its balances, the
    vector defaults of its inputs and the vector values of the variables
    of its [ExecComp]s. *)
Definition comp_arrays (c : Comp) : list (list Q) :=
  match c with
  | BalanceComp bs => bal_val <$> bs
  | ExecComp _ _ _ meta _ =>
      omap (fun vm => match vm_val vm with
                      | Some (Vec v) => Some v
                      | _ => None
                      end) meta
  | _ => []
  end.

Definition default_arrays (m : Model) : list (list Q) :=
  omap (fun d => match id_val d with
                 | Vec v => Some v
                 | Scalar _ => None
                 end) (input_defaults m).

Definition model_arrays (m : Model) : list (list Q) :=
  (concat ((fun a => comp_arrays (subsys a)) <$> subsystems m)
   ++ default_arrays m)%list.

(** The lengths an [ExecComp] declares by [shape]. *)
Definition comp_shapes (c : Comp) : list nat :=
  match c with
  | ExecComp _ _ _ meta _ => omap vm_shape meta
  | _ => []
  end.

Definition model_shapes (m : Model) : list nat :=
  concat ((fun a => comp_shapes (subsys a)) <$> subsystems m).

(** An environment that binds the given names. *)
Definition env_of {F} (l : list (string * NDArrOf F)) : EnvOf F :=
  fun x => (fun r => r.2.2) <$> list_find (fun p => p.1 = x) l.

(** The subsystem options of the phases of the C-5 maximum payload
    mission, [c5_maxpayload_phase_info.py] lines 4, 29 and 54. *)
Definition c5_subsystem_options : gmap string Kwargs :=
  {[ "core_aerodynamics" := {[ "method" := PyStr "computed" ]} ]}.

Definition c5_flight_phase (clean : bool) : UnsteadySolvedODE.options :=
  {| UnsteadySolvedODE.num_nodes := 3;
     UnsteadySolvedODE.aviary_options := PyObj "aviary_options";
     UnsteadySolvedODE.subsystem_options := c5_subsystem_options;
     UnsteadySolvedODE.core_subsystems := [core_aerodynamics; core_propulsion];
     UnsteadySolvedODE.ground_roll := false;
     UnsteadySolvedODE.clean := clean;
     UnsteadySolvedODE.include_param_comp := true;
     UnsteadySolvedODE.input_speed_type := TAS;
     UnsteadySolvedODE.throttle_enforcement := Some path_constraint;
     UnsteadySolvedODE.initial_throttle_lapse := 0;
     UnsteadySolvedODE.final_throttle_lapse := 0 |}.

(** An aerodynamics builder of FLOPS origin whose inputs name the angle of
    attack twice, and a builder whose class is the base class itself and
    which builds nothing. *)
Definition flops_aerodynamics : SubsystemBuilder :=
  {| name := "core_aerodynamics";
     mro := [UserClass "CoreAerodynamicsBuilder"; AerodynamicsBuilderBase;
             SubsystemBuilderBase];
     code_origin := Some FLOPS;
     build_mission := fun _ => Some (MkSystem "aero");
     mission_inputs := fun _ =>
       [PName "mach"; PName "angle_of_attack"; PName "altitude";
        PName "angle_of_attack"];
     mission_outputs := fun _ => [PName "drag"] |}.

Definition bare_aerodynamics : SubsystemBuilder :=
  {| name := "bare_aero";
     mro := [AerodynamicsBuilderBase; SubsystemBuilderBase];
     code_origin := None;
     build_mission := fun _ => None;
     mission_inputs := fun _ => [];
     mission_outputs := fun _ => [] |}.

(** ** Vocabulary for the loaded propeller map *)

(** The last column of the data read from a file that has the given key:
    its values and declared units. *)
Definition last_column (key : PropellerMap.DataKey)
    (cols : list PropellerMap.Column) : option (list Q * string) :=
  snd <$> last (filter (fun c : PropellerMap.Column => c.1 = key) cols).

(** The values of a column of the variable [v] in the expected units. *)
Definition converted (convert_units : Q -> string -> string -> option Q)
    (default_prop_units : PropellerMap.PropModelVariables -> string)
    (v : PropellerMap.PropModelVariables) (c : list Q * string)
    : option (list Q) :=
  mapM (fun i => convert_units i c.2 (default_prop_units v)) c.1.

(** A recognized column with a value that does not convert. *)
Definition inconvertible (convert_units : Q -> string -> string -> option Q)
    (default_prop_units : PropellerMap.PropModelVariables -> string)
    (c : PropellerMap.Column) : Prop :=
  exists v, PropellerMap.in_aliases c.1 = Some v /\
            converted convert_units default_prop_units v c.2 = None.

(** A column at which the load stops: one the aliases do not know, where
    [System_get_val] raises, or a recognized one with a value that does
    not convert. *)
Definition aborting (convert_units : Q -> string -> string -> option Q)
    (default_prop_units : PropellerMap.PropModelVariables -> string)
    (c : PropellerMap.Column) : Prop :=
  PropellerMap.in_aliases c.1 = None \/
  inconvertible convert_units default_prop_units c.

(** The exception raised at such a column. *)
Definition abort_exception
    (default_prop_units : PropellerMap.PropModelVariables -> string)
    (message : string) (c : PropellerMap.Column) : PropellerMap.PyExc :=
  match PropellerMap.in_aliases c.1 with
  | Some v => PropellerMap.units_error default_prop_units message c.2.2 v
  | None => PropellerMap.get_val_error
  end.

(** A [get_val] that returns the verbosity, as a lookup in the options
    would. *)
Definition verbosity_of_options (verbosity : Z) (name : string)
    : PropellerMap.PyExc + Z :=
  inr verbosity.

(** A file whose Mach column, declared in feet, comes first. *)
Definition feet_first_file (_ : string) : list (string * (list Q * string)) :=
  [("mach", ([1 # 2]%Q, "ft")); ("RPM", ([1000 # 1]%Q, "rpm"))].

(** A file without columns. *)
Definition empty_file (_ : string) : list (string * (list Q * string)) := [].

Fixpoint has_space (s : string) : bool :=
  match s with
  | EmptyString => false
  | String c s' => PropellerMap.py_isspace c || has_space s'
  end.

Fixpoint count_newlines (s : string) : nat :=
  match s with
  | EmptyString => 0
  | String c s' => (if Ascii.eqb c "010"%char then 1 else 0) + count_newlines s'
  end.

Definition newline : string := String "010"%char EmptyString.

(** The header of a converted propeller map, as in the comment of
    [read_and_set_mach_type]. *)
Definition sample_header : string :=
  "# created 06/24/24 at 17:13
# GASP propeller map converted from PropFan.map
# Propfan format - CT = f(Mach, Adv Ratio & CP)
# mach_type = mach
# Hamilton Standard 10 Bladed Propfan Performance Deck:  Ct Tables
".

(** A file whose Mach column is declared in feet. *)
Definition mach_in_feet_file (_ : string) : list (string * (list Q * string)) :=
  [("RPM", ([1000 # 1]%Q, "rpm")); ("mach", ([1 # 2]%Q, "ft"));
   ("ct", ([1 # 5]%Q, "unitless"))].

(** * [battery_variable_meta_data.py] *)
Module BatteryMetaData.

(** The constants of [battery_variables] the module names, by their
    paths under [Aircraft.Battery] and [Dynamic.Battery]. *)
Inductive BatteryVar :=
  | CURRENT_MAX | ENERGY_REQUIRED | HEAT_CAPACITY | N_PARALLEL | N_SERIES
  | VOLTAGE
  | Case_HEAT_CAPACITY | Case_WEIGHT_FRAC
  | Cell_DISCHARGE_RATE | Cell_ENERGY_CAPACITY_MAX | Cell_HEAT_CAPACITY
  | Cell_MASS | Cell_VOLTAGE_LOW | Cell_VOLUME
  | Dynamic_CURRENT | Dynamic_EFFICIENCY | Dynamic_HEAT_OUT
  | Dynamic_STATE_OF_CHARGE | Dynamic_STATE_OF_CHARGE_RATE
  | Dynamic_TEMPERATURE | Dynamic_VOLTAGE | Dynamic_VOLTAGE_THEVENIN
  | Dynamic_VOLTAGE_THEVENIN_RATE.

Global Instance BatteryVar_eq_dec : EqDecision BatteryVar.
Proof. solve_decision. Defined.

(** The keyword arguments of one call of [add_meta_data]. *)
Record MetaEntry := {
  me_units : option string;
  me_desc : string;
  me_default_value : Q;
  me_multivalue : bool;
}.

Definition entry (u : option string) (d : string) (v : Q) (mv : bool) : MetaEntry :=
  {| me_units := u; me_desc := d; me_default_value := v; me_multivalue := mv |}.

(** Lines 14-209: the calls, in order. *)
Definition registrations : list (BatteryVar * MetaEntry) :=
  [(CURRENT_MAX, entry (Some "A") "Max current through the pack" (10 # 1) false);
   (ENERGY_REQUIRED, entry (Some "kW*h") "Required battery energy" (65 # 1) false);
   (HEAT_CAPACITY,
    entry (Some "J/(kg*K)") "mass-averaged specific heat (cp)" 1 false);
   (N_PARALLEL,
    entry None "Number of cells in parallel, based on power constraint" 1 false);
   (N_SERIES, entry None "Number of cells in series" 1 false);
   (VOLTAGE, entry (Some "V") "Nominal bus voltage" 1 false);
   (Case_HEAT_CAPACITY,
    entry (Some "J/(kg*K)") "Mass-averaged specific heat (cp)" (921 # 1) false);
   (Case_WEIGHT_FRAC,
    entry None "Case weight per unit of cell weight" (13 # 10) false);
   (Cell_DISCHARGE_RATE, entry (Some "A") "Cell discharge rate" 1 false);
   (Cell_ENERGY_CAPACITY_MAX,
    entry (Some "A*h") "Maximum energy capacity of a single cell (Q_max)" 1 false);
   (Cell_HEAT_CAPACITY,
    entry (Some "J/(kg*K)") "Specific heat of a battery cell" 1 false);
   (Cell_MASS, entry (Some "kg") "Mass of a single cell" 1 false);
   (Cell_VOLTAGE_LOW,
    entry (Some "V") "Cell Voltage at low SOC, before drop-off" 1 false);
   (Cell_VOLUME, entry (Some "inch**3") "Volume of a single cell" 1 false);
   (Dynamic_CURRENT, entry (Some "A") "Current output from the battery" 0 true);
   (Dynamic_EFFICIENCY,
    entry (Some "unitless") "Current efficiency of the battery" 0 true);
   (Dynamic_HEAT_OUT, entry (Some "W") "Heat generated by the battery" 0 true);
   (Dynamic_STATE_OF_CHARGE,
    entry None "State of charge of the battery (SOC)" 0 true);
   (Dynamic_STATE_OF_CHARGE_RATE,
    entry (Some "1/s") "Time rate of change of the battery state of charge" 0 true);
   (Dynamic_TEMPERATURE, entry (Some "K") "Battery pack bulk temperature" 0 true);
   (Dynamic_VOLTAGE, entry (Some "V") "Total battery voltage" 0 true);
   (Dynamic_VOLTAGE_THEVENIN,
    entry (Some "V") "Thevenin (Polarization) voltage" 0 true);
   (Dynamic_VOLTAGE_THEVENIN_RATE,
    entry (Some "V/s") "Time rate of change of Thevenin voltage" 0 true)].

(** A metadata dictionary, and the objects of the interpreter by address:
    two names may hold the same address. *)
Abbreviation Registry := (gmap string MetaEntry).
Abbreviation Heap := (gmap nat Registry).

Inductive MetaExc :=
  | DuplicateVariableError (key : string).

Section Script.
(** The strings the constants stand for. *)
Variable key : BatteryVar -> string.

(** Modelled from the spec: [add_meta_data] is declared in the package's
    utilities, not among the sources; by section 4.1 of the specification
    it registers the variable in the given dictionary and fails when the
    name is registered already.  The dictionary is changed in place. *)
Definition add_meta_data (k : string) (e : MetaEntry) (meta_data : nat)
    (h : Heap) : Heap * (MetaExc + unit) :=
  let reg := default ∅ (h !! meta_data) in
  match reg !! k with
  | Some _ => (h, inl (DuplicateVariableError k))
  | None => (<[meta_data := <[k := e]> reg]> h, inr tt)
  end.

(** The calls one after the other; an exception ends the module and keeps
    what was registered before it. *)
Fixpoint add_all (l : list (BatteryVar * MetaEntry)) (meta_data : nat)
    (h : Heap) : Heap * (MetaExc + unit) :=
  match l with
  | [] => (h, inr tt)
  | (v, e) :: l' =>
      match add_meta_data (key v) e meta_data h with
      | (h', inr _) => add_all l' meta_data h'
      | (h', inl x) => (h', inl x)
      end
  end.

(** The module: line 9 binds [ExtendedMetaData] to the object
    [av.CoreMetaData] holds, with no copy; the calls follow.  The result
    has the heap, the address [ExtendedMetaData] holds and the
    exception, if any. *)
Definition run_module (CoreMetaData : nat) (h : Heap)
    : Heap * nat * (MetaExc + unit) :=
  let ExtendedMetaData := CoreMetaData in
  let '(h', r) := add_all registrations ExtendedMetaData h in
  (h', ExtendedMetaData, r).
End Script.

(** A call as the pair the dictionary gets. *)
Definition keyed (key : BatteryVar -> string) (p : BatteryVar * MetaEntry)
    : string * MetaEntry :=
  (key p.1, p.2).

(** The dictionary after the calls of a list have gone through. *)
Definition registered (key : BatteryVar -> string)
    (l : list (BatteryVar * MetaEntry)) (reg : Registry) : Registry :=
  list_to_map (keyed key <$> l) ∪ reg.

(** The path of a constant, for examples. *)
Definition path (v : BatteryVar) : string :=
  match v with
  | CURRENT_MAX => "Aircraft.Battery.CURRENT_MAX"
  | ENERGY_REQUIRED => "Aircraft.Battery.ENERGY_REQUIRED"
  | HEAT_CAPACITY => "Aircraft.Battery.HEAT_CAPACITY"
  | N_PARALLEL => "Aircraft.Battery.N_PARALLEL"
  | N_SERIES => "Aircraft.Battery.N_SERIES"
  | VOLTAGE => "Aircraft.Battery.VOLTAGE"
  | Case_HEAT_CAPACITY => "Aircraft.Battery.Case.HEAT_CAPACITY"
  | Case_WEIGHT_FRAC => "Aircraft.Battery.Case.WEIGHT_FRAC"
  | Cell_DISCHARGE_RATE => "Aircraft.Battery.Cell.DISCHARGE_RATE"
  | Cell_ENERGY_CAPACITY_MAX => "Aircraft.Battery.Cell.ENERGY_CAPACITY_MAX"
  | Cell_HEAT_CAPACITY => "Aircraft.Battery.Cell.HEAT_CAPACITY"
  | Cell_MASS => "Aircraft.Battery.Cell.MASS"
  | Cell_VOLTAGE_LOW => "Aircraft.Battery.Cell.VOLTAGE_LOW"
  | Cell_VOLUME => "Aircraft.Battery.Cell.VOLUME"
  | Dynamic_CURRENT => "Dynamic.Battery.CURRENT"
  | Dynamic_EFFICIENCY => "Dynamic.Battery.EFFICIENCY"
  | Dynamic_HEAT_OUT => "Dynamic.Battery.HEAT_OUT"
  | Dynamic_STATE_OF_CHARGE => "Dynamic.Battery.STATE_OF_CHARGE"
  | Dynamic_STATE_OF_CHARGE_RATE => "Dynamic.Battery.STATE_OF_CHARGE_RATE"
  | Dynamic_TEMPERATURE => "Dynamic.Battery.TEMPERATURE"
  | Dynamic_VOLTAGE => "Dynamic.Battery.VOLTAGE"
  | Dynamic_VOLTAGE_THEVENIN => "Dynamic.Battery.VOLTAGE_THEVENIN"
  | Dynamic_VOLTAGE_THEVENIN_RATE => "Dynamic.Battery.VOLTAGE_THEVENIN_RATE"
  end.

(** A dictionary of the core with one variable, and a heap holding it. *)
Definition core_registry : Registry :=
  {[ "Mission.Design.RANGE" := entry (Some "NM") "the aircraft design range" 0 false ]}.

Definition core_heap : Heap := {[ 0%nat := core_registry ]}.

(** The same with a battery variable registered beforehand. *)
Definition clashing_heap : Heap :=
  {[ 0%nat := <[ path N_SERIES := entry None "cells in series" 1 false ]> core_registry ]}.

End BatteryMetaData.

(** * [c5_maxpayload_phase_info.py] *)
Module C5MaxPayload.

(** The literals of the module: a dictionary keeps the order of its
    items. *)
#[local] Unset Elimination Schemes.
Inductive Py :=
  | PBool (b : bool)
  | PInt (z : Z)
  | PFloat (q : Q)
  | PStr (s : string)
  | PTuple (l : list Py)
  | PList (l : list Py)
  | PDict (l : list (string * Py)).
#[local] Set Elimination Schemes.

Definition phase_info : Py :=
  PDict
    [("pre_mission",
      PDict [("include_takeoff", PBool false); ("optimize_mass", PBool true)]);
     ("climb_1",
      PDict
        [("subsystem_options",
          PDict [("core_aerodynamics", PDict [("method", PStr "computed")])]);
         ("user_options",
          PDict
            [("optimize_mach", PBool false);
             ("optimize_altitude", PBool false);
             ("polynomial_control_order", PInt 1);
             ("use_polynomial_control", PBool true);
             ("num_segments", PInt 3);
             ("order", PInt 3);
             ("solve_for_distance", PBool false);
             ("initial_mach", PTuple [PFloat (3 # 10); PStr "unitless"]);
             ("final_mach", PTuple [PFloat (77 # 100); PStr "unitless"]);
             ("mach_bounds",
              PTuple [PTuple [PFloat (27999999999999997 # 100000000000000000);
                              PFloat (79 # 100)];
                      PStr "unitless"]);
             ("initial_altitude", PTuple [PFloat 0; PStr "ft"]);
             ("final_altitude", PTuple [PFloat (29500 # 1); PStr "ft"]);
             ("altitude_bounds",
              PTuple [PTuple [PFloat 0; PFloat (30000 # 1)]; PStr "ft"]);
             ("throttle_enforcement", PStr "path_constraint");
             ("fix_initial", PBool true);
             ("constrain_final", PBool false);
             ("fix_duration", PBool false);
             ("initial_bounds",
              PTuple [PTuple [PFloat 0; PFloat 0]; PStr "min"]);
             ("duration_bounds",
              PTuple [PTuple [PFloat (25 # 1); PFloat (75 # 1)]; PStr "min"])]);
         ("initial_guesses",
          PDict [("time",
                  PTuple [PList [PFloat 0; PFloat (50 # 1)]; PStr "min"])])]);
     ("climb_2",
      PDict
        [("subsystem_options",
          PDict [("core_aerodynamics", PDict [("method", PStr "computed")])]);
         ("user_options",
          PDict
            [("optimize_mach", PBool false);
             ("optimize_altitude", PBool false);
             ("polynomial_control_order", PInt 1);
             ("use_polynomial_control", PBool true);
             ("num_segments", PInt 3);
             ("order", PInt 3);
             ("solve_for_distance", PBool false);
             ("initial_mach", PTuple [PFloat (77 # 100); PStr "unitless"]);
             ("final_mach", PTuple [PFloat (77 # 100); PStr "unitless"]);
             ("mach_bounds",
              PTuple [PTuple [PFloat (75 # 100); PFloat (79 # 100)];
                      PStr "unitless"]);
             ("initial_altitude", PTuple [PFloat (29500 # 1); PStr "ft"]);
             ("final_altitude", PTuple [PFloat (32000 # 1); PStr "ft"]);
             ("altitude_bounds",
              PTuple [PTuple [PFloat (29000 # 1); PFloat (32500 # 1)];
                      PStr "ft"]);
             ("throttle_enforcement", PStr "boundary_constraint");
             ("fix_initial", PBool false);
             ("constrain_final", PBool false);
             ("fix_duration", PBool false);
             ("initial_bounds",
              PTuple [PTuple [PFloat (25 # 1); PFloat (75 # 1)]; PStr "min"]);
             ("duration_bounds",
              PTuple [PTuple [PFloat (105 # 1); PFloat (315 # 1)]; PStr "min"])]);
         ("initial_guesses",
          PDict [("time",
                  PTuple [PList [PFloat (50 # 1); PFloat (210 # 1)];
                          PStr "min"])])]);
     ("descent_1",
      PDict
        [("subsystem_options",
          PDict [("core_aerodynamics", PDict [("method", PStr "computed")])]);
         ("user_options",
          PDict
            [("optimize_mach", PBool false);
             ("optimize_altitude", PBool false);
             ("polynomial_control_order", PInt 1);
             ("use_polynomial_control", PBool true);
             ("num_segments", PInt 3);
             ("order", PInt 3);
             ("solve_for_distance", PBool false);
             ("initial_mach", PTuple [PFloat (77 # 100); PStr "unitless"]);
             ("final_mach", PTuple [PFloat (3 # 10); PStr "unitless"]);
             ("mach_bounds",
              PTuple [PTuple [PFloat (27999999999999997 # 100000000000000000);
                              PFloat (79 # 100)];
                      PStr "unitless"]);
             ("initial_altitude", PTuple [PFloat (32000 # 1); PStr "ft"]);
             ("final_altitude", PTuple [PFloat 0; PStr "ft"]);
             ("altitude_bounds",
              PTuple [PTuple [PFloat 0; PFloat (32500 # 1)]; PStr "ft"]);
             ("throttle_enforcement", PStr "path_constraint");
             ("fix_initial", PBool false);
             ("constrain_final", PBool true);
             ("fix_duration", PBool false);
             ("initial_bounds",
              PTuple [PTuple [PFloat (130 # 1); PFloat (390 # 1)]; PStr "min"]);
             ("duration_bounds",
              PTuple [PTuple [PFloat (15 # 1); PFloat (45 # 1)]; PStr "min"])]);
         ("initial_guesses",
          PDict [("time",
                  PTuple [PList [PFloat (260 # 1); PFloat (30 # 1)];
                          PStr "min"])])]);
     ("post_mission",
      PDict
        [("include_landing", PBool false);
         ("constrain_range", PBool true);
         ("target_range", PTuple [PFloat (227247 # 100); PStr "nmi"])])].

(** Reading the dictionary: an item by its key, a value with its units,
    a pair of bounds with its units, the two guesses of time. *)
Definition items (d : Py) : list (string * Py) :=
  match d with PDict l => l | _ => [] end.

Definition get (k : string) (d : Py) : option Py :=
  (fun r => r.2.2) <$> list_find (fun p => p.1 = k) (items d).

Definition quantity (v : Py) : option (Q * string) :=
  match v with
  | PTuple [PFloat x; PStr u] => Some (x, u)
  | _ => None
  end.

Definition interval (v : Py) : option (Q * Q * string) :=
  match v with
  | PTuple [PTuple [PFloat a; PFloat b]; PStr u] => Some (a, b, u)
  | _ => None
  end.

Definition guesses (v : Py) : option (Q * Q * string) :=
  match v with
  | PTuple [PList [PFloat a; PFloat b]; PStr u] => Some (a, b, u)
  | _ => None
  end.

(** What a flight phase prescribes, as read from its items. *)
Record Phase := {
  phase_name : string;
  initial_mach : Q * string;
  final_mach : Q * string;
  mach_bounds : Q * Q * string;
  initial_altitude : Q * string;
  final_altitude : Q * string;
  altitude_bounds : Q * Q * string;
  initial_bounds : Q * Q * string;
  duration_bounds : Q * Q * string;
  time_guess : Q * Q * string;
  phase_subsystem_options : Py;
}.

Definition read_phase (p : string * Py) : option Phase :=
  uo ← get "user_options" p.2;
  im ← get "initial_mach" uo ≫= quantity;
  fm ← get "final_mach" uo ≫= quantity;
  mb ← get "mach_bounds" uo ≫= interval;
  ia ← get "initial_altitude" uo ≫= quantity;
  fa ← get "final_altitude" uo ≫= quantity;
  ab ← get "altitude_bounds" uo ≫= interval;
  ib ← get "initial_bounds" uo ≫= interval;
  db ← get "duration_bounds" uo ≫= interval;
  tg ← (get "initial_guesses" p.2 ≫= get "time") ≫= guesses;
  so ← get "subsystem_options" p.2;
  Some {| phase_name := p.1; initial_mach := im; final_mach := fm;
          mach_bounds := mb; initial_altitude := ia; final_altitude := fa;
          altitude_bounds := ab; initial_bounds := ib; duration_bounds := db;
          time_guess := tg; phase_subsystem_options := so |}.

(** The flight phases are the items with user options, in their order. *)
Definition flight_phases : list (string * Py) :=
  filter (fun p => is_Some (get "user_options" p.2)) (items phase_info).

(** A value with units lies between bounds of the same units. *)
Definition within (x : Q * string) (b : Q * Q * string) : Prop :=
  x.2 = b.2 /\ (b.1.1 <= x.1)%Q /\ (x.1 <= b.1.2)%Q.

(** Each phase keeps its end points and its guesses of time inside its
    own bounds. *)
Definition well_bounded (p : Phase) : Prop :=
  within (initial_mach p) (mach_bounds p) /\
  within (final_mach p) (mach_bounds p) /\
  within (initial_altitude p) (altitude_bounds p) /\
  within (final_altitude p) (altitude_bounds p) /\
  within ((time_guess p).1.1, (time_guess p).2) (initial_bounds p) /\
  within ((time_guess p).1.2, (time_guess p).2) (duration_bounds p).

(** A phase takes over where the one before ends. *)
Definition follows (p q : Phase) : Prop :=
  initial_mach q = final_mach p /\
  initial_altitude q = final_altitude p /\
  (initial_bounds q).2 = (initial_bounds p).2 /\
  (duration_bounds p).2 = (initial_bounds p).2 /\
  ((initial_bounds q).1.1 == (initial_bounds p).1.1 + (duration_bounds p).1.1)%Q /\
  ((initial_bounds q).1.2 == (initial_bounds p).1.2 + (duration_bounds p).1.2)%Q /\
  ((time_guess q).1.1 == (time_guess p).1.1 + (time_guess p).1.2)%Q.

Fixpoint chained (l : list Phase) : Prop :=
  match l with
  | p :: (q :: _) as l' => follows p q /\ chained l'
  | _ => True
  end.

(** The options of the subsystems as the keyword dictionaries an ODE
    gets. *)
Definition scalar (v : Py) : option PyVal :=
  match v with
  | PBool b => Some (PyBool b)
  | PInt z => Some (PyInt z)
  | PFloat q => Some (PyFloat q)
  | PStr s => Some (PyStr s)
  | _ => None
  end.

Definition as_kwargs (d : Py) : Kwargs :=
  list_to_map (omap (fun p => pair p.1 <$> scalar p.2) (items d)).

Definition as_subsystem_options (d : Py) : gmap string Kwargs :=
  list_to_map ((fun p => (p.1, as_kwargs p.2)) <$> items d).

End C5MaxPayload.

(** * Properties *)

Open Scope list_scope.

(** ** Elementary facts about the group under construction *)

Lemma balances_in_app sc (l1 l2 : list Added) :
  concat ((fun a => comp_balances (subsys a)) <$> filter (fun a => scope a = sc) (l1 ++ l2))
  = (concat ((fun a => comp_balances (subsys a)) <$> filter (fun a => scope a = sc) l1)
     ++ concat ((fun a => comp_balances (subsys a)) <$> filter (fun a => scope a = sc) l2)).
Proof. by rewrite filter_app, fmap_app, concat_app. Qed.

Lemma balances_in_add_subsystem sc sc' n c p pi po m :
  balances_in sc (add_subsystem sc' n c p pi po m)
  = balances_in sc m ++ (if decide (sc' = sc) then comp_balances c else []).
Proof.
  unfold balances_in, add_subsystem; cbn [subsystems].
  rewrite balances_in_app. f_equal.
  rewrite filter_cons, filter_nil; cbn [scope].
  destruct (decide (sc' = sc)); cbn; [by rewrite app_nil_r | done].
Qed.

Lemma balances_of_add_subsystem sc n c p pi po m :
  balances_of (add_subsystem sc n c p pi po m)
  = balances_of m ++ comp_balances c.
Proof.
  unfold balances_of, add_subsystem; cbn [subsystems].
  rewrite fmap_app, concat_app. cbn. by rewrite app_nil_r.
Qed.

(** The three views of a model the properties read. *)
Record same_frame (m m' : Model) : Prop := {
  sf_input_defaults : input_defaults m' = input_defaults m;
  sf_nonlinear : nonlinear_solver m' = nonlinear_solver m;
  sf_balances_of : balances_of m' = balances_of m;
  sf_balances_in : forall sc, balances_in sc m' = balances_in sc m;
}.

Lemma same_frame_refl m : same_frame m m.
Proof. by split. Qed.

Lemma same_frame_trans m1 m2 m3 :
  same_frame m1 m2 -> same_frame m2 m3 -> same_frame m1 m3.
Proof.
  intros [d a b c] [d' a' b' c']; split; [congruence | congruence | congruence |].
  intros sc. by rewrite c', c.
Qed.

Lemma same_frame_log b f kw m : same_frame m (log_call b f kw m).
Proof. by split. Qed.

Lemma same_frame_add_built sc n s p pi po m :
  same_frame m (add_subsystem sc n (Built s) p pi po m).
Proof.
  split; [done | done | |].
  - rewrite balances_of_add_subsystem. cbn. by rewrite app_nil_r.
  - intros sc'. rewrite balances_in_add_subsystem.
    destruct (decide (sc = sc')); cbn; by rewrite app_nil_r.
Qed.

Lemma same_frame_self_promotes n ins idx m :
  same_frame m (self_promotes n ins idx m).
Proof. by split. Qed.

(** A model grows: what was added and what was called stays. *)
Definition grows (m m' : Model) : Prop :=
  (exists l, subsystems m' = subsystems m ++ l) /\
  (exists l, calls m' = calls m ++ l).

Lemma grows_refl m : grows m m.
Proof. split; exists []; by rewrite app_nil_r. Qed.

Lemma grows_trans m1 m2 m3 : grows m1 m2 -> grows m2 m3 -> grows m1 m3.
Proof.
  intros [[l1 H1] [k1 K1]] [[l2 H2] [k2 K2]]. split.
  - exists (l1 ++ l2). by rewrite H2, H1, <-app_assoc.
  - exists (k1 ++ k2). by rewrite K2, K1, <-app_assoc.
Qed.

Lemma grows_log b f kw m : grows m (log_call b f kw m).
Proof. split; [exists []; cbn; by rewrite app_nil_r | by eexists]. Qed.

Lemma grows_add_subsystem sc n c p pi po m :
  grows m (add_subsystem sc n c p pi po m).
Proof. split; [by eexists | exists []; cbn; by rewrite app_nil_r]. Qed.

Lemma grows_self_promotes n ins idx m : grows m (self_promotes n ins idx m).
Proof. split; exists []; cbn; by rewrite app_nil_r. Qed.

Lemma grows_subsystem m m' a : grows m m' -> a ∈ subsystems m -> a ∈ subsystems m'.
Proof. intros [[l ->] _] H. apply elem_of_app; by left. Qed.

Lemma grows_call m m' c : grows m m' -> c ∈ calls m -> c ∈ calls m'.
Proof. intros [_ [l ->]] H. apply elem_of_app; by left. Qed.

Lemma grows_placed m m' n s sc : grows m m' -> placed m n s sc -> placed m' n s sc.
Proof.
  intros G (a & Ha & ?). exists a; split; [by eapply grows_subsystem | done].
Qed.

(** ** The subsystem loop *)

Section Loop.
Variable body : Model * Kwargs -> SubsystemBuilder -> Model * Kwargs.
Variable so : gmap string Kwargs.
Hypothesis body_snd : forall m kw b, (body (m, kw) b).2 = loop_kwargs so kw b.
Hypothesis body_frame : forall m kw b, same_frame m (body (m, kw) b).1.
Hypothesis body_grows : forall m kw b, grows m (body (m, kw) b).1.

Lemma loop_snd l m kw :
  (foldl body (m, kw) l).2 = foldl (loop_kwargs so) kw l.
Proof.
  revert m kw. induction l as [|b l IH]; intros m kw; [done|].
  cbn [foldl]. specialize (body_snd m kw b).
  destruct (body (m, kw) b) as [m' kw'] eqn:E. cbn in body_snd. subst kw'.
  apply IH.
Qed.

Lemma loop_frame l m kw : same_frame m (foldl body (m, kw) l).1.
Proof.
  revert m kw. induction l as [|b l IH]; intros m kw; [apply same_frame_refl|].
  cbn [foldl]. pose proof (body_frame m kw b) as F.
  destruct (body (m, kw) b) as [m' kw'] eqn:E. cbn in F.
  eapply same_frame_trans; [exact F | apply IH].
Qed.

Lemma loop_grows l m kw : grows m (foldl body (m, kw) l).1.
Proof.
  revert m kw. induction l as [|b l IH]; intros m kw; [apply grows_refl|].
  cbn [foldl]. pose proof (body_grows m kw b) as F.
  destruct (body (m, kw) b) as [m' kw'] eqn:E. cbn in F.
  eapply grows_trans; [exact F | apply IH].
Qed.

(** The iteration of the builder at a position of the list: it starts
    from some model with the dictionary of the builders before it, and
    the loop only grows what it leaves. *)
Lemma loop_at l1 b l2 m kw :
  exists m1,
    grows m m1 /\
    grows (body (m1, foldl (loop_kwargs so) kw l1) b).1
          (foldl body (m, kw) (l1 ++ b :: l2)).1.
Proof.
  exists (foldl body (m, kw) l1).1. split; [apply loop_grows|].
  rewrite foldl_app. cbn [foldl].
  pose proof (loop_snd l1 m kw) as S.
  destruct (foldl body (m, kw) l1) as [m1 kw1]. cbn in S. subst kw1. cbn [fst].
  destruct (body (m1, foldl (loop_kwargs so) kw l1) b) as [m2 kw2].
  apply loop_grows.
Qed.
End Loop.

(** ** The loop of [UnsteadySolvedODE.setup] *)

Lemma U_add_built_frame b s kw m :
  same_frame m (UnsteadySolvedODE.add_built b s kw m).
Proof.
  unfold UnsteadySolvedODE.add_built.
  repeat case_match;
    (eapply same_frame_trans; [| apply same_frame_add_built]);
    repeat (eapply same_frame_trans; [| apply same_frame_log]);
    apply same_frame_refl.
Qed.

Lemma U_add_built_grows b s kw m :
  grows m (UnsteadySolvedODE.add_built b s kw m).
Proof.
  unfold UnsteadySolvedODE.add_built.
  repeat case_match;
    (eapply grows_trans; [| apply grows_add_subsystem]);
    repeat (eapply grows_trans; [| apply grows_log]);
    apply grows_refl.
Qed.

Lemma placed_add_subsystem sc n s p pi po m :
  placed (add_subsystem sc n (Built s) p pi po m) n s sc.
Proof.
  eexists; split.
  - cbn [subsystems add_subsystem]. apply elem_of_app; right.
    apply list_elem_of_singleton. reflexivity.
  - done.
Qed.

Lemma called_log b f kw m : called (log_call b f kw m) b f kw.
Proof. unfold called; cbn. apply elem_of_app; right. by apply list_elem_of_singleton. Qed.

Lemma called_grows m m' b f kw : grows m m' -> called m b f kw -> called m' b f kw.
Proof. unfold called. apply grows_call. Qed.

Lemma U_add_built_does b s kw m :
  let m' := UnsteadySolvedODE.add_built b s kw m in
  placed m' (name b) s (route b) /\
  called m' b MissionInputs kw /\ called m' b MissionOutputs kw.
Proof.
  unfold UnsteadySolvedODE.add_built, route.
  repeat case_match; cbn zeta;
    (split; [apply placed_add_subsystem|]);
    (split; (eapply called_grows; [| apply called_log]));
    repeat first [ apply grows_refl
                 | eapply grows_trans; [| apply grows_add_subsystem]
                 | eapply grows_trans; [| apply grows_log] ].
Qed.

Lemma U_body_snd so m kw b :
  (UnsteadySolvedODE.loop_body so (m, kw) b).2 = loop_kwargs so kw b.
Proof. unfold UnsteadySolvedODE.loop_body. by case_match. Qed.

Lemma U_body_frame so m kw b :
  same_frame m (UnsteadySolvedODE.loop_body so (m, kw) b).1.
Proof.
  unfold UnsteadySolvedODE.loop_body. case_match; cbn [fst].
  - eapply same_frame_trans; [apply same_frame_log | apply U_add_built_frame].
  - apply same_frame_log.
Qed.

Lemma U_body_grows so m kw b :
  grows m (UnsteadySolvedODE.loop_body so (m, kw) b).1.
Proof.
  unfold UnsteadySolvedODE.loop_body. case_match; cbn [fst].
  - eapply grows_trans; [apply grows_log | apply U_add_built_grows].
  - apply grows_log.
Qed.

(** What one iteration does, with the dictionary [kw] it starts from. *)
Lemma U_body_does so m kw b :
  let kw' := loop_kwargs so kw b in
  let m' := (UnsteadySolvedODE.loop_body so (m, kw) b).1 in
  called m' b BuildMission kw' /\
  forall s, build_mission b kw' = Some s ->
    placed m' (name b) s (route b) /\
    called m' b MissionInputs kw' /\ called m' b MissionOutputs kw'.
Proof.
  cbn zeta. unfold UnsteadySolvedODE.loop_body.
  destruct (build_mission b (loop_kwargs so kw b)) as [s|] eqn:E; cbn [fst].
  - split.
    + eapply called_grows; [apply U_add_built_grows | apply called_log].
    + intros s' [= <-]. apply U_add_built_does.
  - split; [apply called_log | discriminate].
Qed.

(** ** Shape of what [UnsteadySolvedODE.setup] returns *)

Lemma balances_in_set_input_defaults sc n v u m :
  balances_in sc (set_input_defaults n v u m) = balances_in sc m.
Proof. reflexivity. Qed.

Lemma balances_in_set_nonlinear_solver sc sc' s m :
  balances_in sc (set_nonlinear_solver sc' s m) = balances_in sc m.
Proof. reflexivity. Qed.

Lemma balances_in_modify_nonlinear_solver sc sc' f m :
  balances_in sc (modify_nonlinear_solver sc' f m) = balances_in sc m.
Proof. reflexivity. Qed.

Lemma balances_in_set_linear_solver sc sc' s m :
  balances_in sc (set_linear_solver sc' s m) = balances_in sc m.
Proof. reflexivity. Qed.

Lemma balances_in_ParamPort_set_default_vals sc m :
  balances_in sc (ParamPort_set_default_vals m) = balances_in sc m.
Proof. reflexivity. Qed.

Lemma balances_in_add_SGM_required_inputs sc l m :
  balances_in sc (add_SGM_required_inputs l m) = balances_in sc m.
Proof. reflexivity. Qed.

Lemma balances_in_empty_model sc : balances_in sc empty_model = [].
Proof. reflexivity. Qed.

Lemma balances_of_set_input_defaults n v u m :
  balances_of (set_input_defaults n v u m) = balances_of m.
Proof. reflexivity. Qed.

Lemma balances_of_set_nonlinear_solver sc s m :
  balances_of (set_nonlinear_solver sc s m) = balances_of m.
Proof. reflexivity. Qed.

Lemma balances_of_modify_nonlinear_solver sc f m :
  balances_of (modify_nonlinear_solver sc f m) = balances_of m.
Proof. reflexivity. Qed.

Lemma balances_of_set_linear_solver sc s m :
  balances_of (set_linear_solver sc s m) = balances_of m.
Proof. reflexivity. Qed.

Lemma balances_of_ParamPort_set_default_vals m :
  balances_of (ParamPort_set_default_vals m) = balances_of m.
Proof. reflexivity. Qed.

Lemma balances_of_add_SGM_required_inputs l m :
  balances_of (add_SGM_required_inputs l m) = balances_of m.
Proof. reflexivity. Qed.

Lemma balances_of_empty_model : balances_of empty_model = [].
Proof. reflexivity. Qed.

Create Rewrite HintDb model_balances.
#[global] Hint Rewrite
  balances_in_add_subsystem balances_in_set_input_defaults
  balances_in_set_nonlinear_solver balances_in_modify_nonlinear_solver
  balances_in_set_linear_solver balances_in_ParamPort_set_default_vals
  balances_in_add_SGM_required_inputs balances_in_empty_model
  balances_of_add_subsystem balances_of_set_input_defaults
  balances_of_set_nonlinear_solver balances_of_modify_nonlinear_solver
  balances_of_set_linear_solver balances_of_ParamPort_set_default_vals
  balances_of_add_SGM_required_inputs balances_of_empty_model
  : model_balances.

(** Names the state the loop starts from and splits what it returns. *)
Ltac split_loop pre mL kwL E :=
  match goal with
  | |- context [foldl ?f (?p, ?k) ?l] =>
      set (pre := p) in *;
      destruct (foldl f (pre, k) l) as [mL kwL] eqn:E
  end.

Ltac grows_by_append :=
  split; cbn [negb subsystems calls add_subsystem set_input_defaults
              set_nonlinear_solver modify_nonlinear_solver set_linear_solver
              ParamPort_set_default_vals self_promotes
              add_SGM_required_inputs log_call];
  rewrite <- ?app_assoc;
  first [ eexists; reflexivity | exists []; by rewrite app_nil_r ].

(** The balances of each group: the throttle balance in the
    throttle-balance group, the alpha and thrust-required balances in the
    control-iteration group, none at top level. *)
Lemma U_setup_balances_in rho o sc :
  balances_in sc (UnsteadySolvedODE.setup rho o) =
  match sc with
  | ThrottleBalanceGroup =>
      UnsteadySolvedODE.throttle_balance_comp (UnsteadySolvedODE.num_nodes o)
        (UnsteadySolvedODE.throttle_enforcement o)
  | ControlIterGroup =>
      UnsteadySolvedODE.thrust_alpha_bal (UnsteadySolvedODE.num_nodes o)
        (UnsteadySolvedODE.ground_roll o)
  | TopLevel => []
  end.
Proof.
  unfold UnsteadySolvedODE.setup. cbn zeta.
  split_loop pre mL kwL E.
  pose proof (loop_frame _ (U_body_frame (UnsteadySolvedODE.subsystem_options o))
                (UnsteadySolvedODE.core_subsystems o)
                pre (UnsteadySolvedODE.initial_kwargs o)) as F.
  rewrite E in F. cbn [fst] in F. destruct F as [_ _ _ F].
  destruct (UnsteadySolvedODE.include_param_comp o),
    (UnsteadySolvedODE.ground_roll o) eqn:G; cbn [negb];
    autorewrite with model_balances; rewrite F; subst pre;
    autorewrite with model_balances;
    destruct sc; reflexivity.
Qed.

Lemma U_setup_balances_of rho o :
  balances_of (UnsteadySolvedODE.setup rho o) =
  UnsteadySolvedODE.throttle_balance_comp (UnsteadySolvedODE.num_nodes o)
    (UnsteadySolvedODE.throttle_enforcement o)
  ++ UnsteadySolvedODE.thrust_alpha_bal (UnsteadySolvedODE.num_nodes o)
       (UnsteadySolvedODE.ground_roll o).
Proof.
  unfold UnsteadySolvedODE.setup. cbn zeta.
  split_loop pre mL kwL E.
  pose proof (loop_frame _ (U_body_frame (UnsteadySolvedODE.subsystem_options o))
                (UnsteadySolvedODE.core_subsystems o)
                pre (UnsteadySolvedODE.initial_kwargs o)) as F.
  rewrite E in F. cbn [fst] in F. destruct F as [_ _ F _].
  destruct (UnsteadySolvedODE.include_param_comp o),
    (UnsteadySolvedODE.ground_roll o) eqn:G; cbn [negb];
    autorewrite with model_balances; rewrite F; subst pre;
    autorewrite with model_balances; reflexivity.
Qed.

(** The solvers: the throttle-balance group has the bounds-enforcing line
    search and raises on non-convergence; the control-iteration group has
    the constructor's settings, its line search included. *)
Lemma U_setup_nonlinear_solver rho o sc :
  nonlinear_solver (UnsteadySolvedODE.setup rho o) sc =
  match sc with
  | ThrottleBalanceGroup =>
      Some {| solve_subsystems := true; atol := 1 # 10000000000;
              rtol := 1 # 10000000000; linesearch := Some BoundsEnforceLS;
              err_on_non_converge := true |}
  | ControlIterGroup =>
      Some {| solve_subsystems := true; atol := 1 # 10000000000;
              rtol := 1 # 10000000000; linesearch := Some BoundsEnforceLS;
              err_on_non_converge := false |}
  | TopLevel => None
  end.
Proof.
  unfold UnsteadySolvedODE.setup. cbn zeta.
  split_loop pre mL kwL E.
  pose proof (loop_frame _ (U_body_frame (UnsteadySolvedODE.subsystem_options o))
                (UnsteadySolvedODE.core_subsystems o)
                pre (UnsteadySolvedODE.initial_kwargs o)) as F.
  rewrite E in F. cbn [fst] in F. destruct F as [_ F _ _].
  destruct (UnsteadySolvedODE.include_param_comp o),
    (UnsteadySolvedODE.ground_roll o) eqn:G;
    cbn [negb nonlinear_solver set_input_defaults add_subsystem
         set_nonlinear_solver set_linear_solver ParamPort_set_default_vals];
    rewrite F; subst pre; destruct sc; reflexivity.
Qed.

(** What happens to the builder at a position of [core_subsystems]. *)
Lemma U_setup_builder rho o l1 b l2 :
  UnsteadySolvedODE.core_subsystems o = l1 ++ b :: l2 ->
  let kw := kwargs_at (UnsteadySolvedODE.subsystem_options o)
              (UnsteadySolvedODE.initial_kwargs o) l1 b in
  let m := UnsteadySolvedODE.setup rho o in
  called m b BuildMission kw /\
  forall s, build_mission b kw = Some s ->
    placed m (name b) s (route b) /\
    called m b MissionInputs kw /\ called m b MissionOutputs kw.
Proof.
  intros Hcs. cbn zeta.
  assert (G : exists m1,
    grows (UnsteadySolvedODE.loop_body (UnsteadySolvedODE.subsystem_options o)
             (m1, foldl (loop_kwargs (UnsteadySolvedODE.subsystem_options o))
                    (UnsteadySolvedODE.initial_kwargs o) l1) b).1
          (UnsteadySolvedODE.setup rho o)).
  { unfold UnsteadySolvedODE.setup. cbn zeta. rewrite Hcs.
    match goal with
    | |- context [foldl ?f (?p, ?k) ?l] =>
        destruct (loop_at _ _
                    (U_body_snd (UnsteadySolvedODE.subsystem_options o))
                    (U_body_grows (UnsteadySolvedODE.subsystem_options o))
                    l1 b l2 p k)
          as (m1 & _ & G1);
        exists m1; destruct (foldl f (p, k) l) as [mL kwL]
    end.
    eapply grows_trans; [exact G1|]. cbn [fst].
    destruct (UnsteadySolvedODE.include_param_comp o),
      (UnsteadySolvedODE.ground_roll o); grows_by_append. }
  destruct G as (m1 & G).
  destruct (U_body_does (UnsteadySolvedODE.subsystem_options o) m1
              (foldl (loop_kwargs (UnsteadySolvedODE.subsystem_options o))
                 (UnsteadySolvedODE.initial_kwargs o) l1) b) as [C B].
  split; [eapply called_grows; eauto|].
  intros s Hs. destruct (B s Hs) as (P & CI & CO).
  repeat split; [eapply grows_placed | eapply called_grows | eapply called_grows]; eauto.
Qed.

(** ** Balances of [UnsteadySolvedODE] *)

(** C1 as stated, refuted on a phase whose throttle enforcement is
    disabled: the option is [None], and the throttle-balance group still
    holds the balance that drives the throttle until total thrust equals
    required thrust. *)
Lemma disabled_enforcement_keeps_throttle_balance :
  UnsteadySolvedODE.throttle_enforcement (example_phase None) = None /\
  exists b,
    balances_in ThrottleBalanceGroup
      (UnsteadySolvedODE.setup example_rho_sl (example_phase None)) = [b] /\
    bal_name b = Dynamic.Mission.THROTTLE /\
    lhs_name b = Dynamic.Mission.THRUST_TOTAL /\
    rhs_name b = "thrust_req".
Proof. split; [reflexivity|]. eexists. split; [vm_compute; reflexivity|]. done. Qed.

(** C1, amended: whatever the throttle enforcement option is, disabled
    included, [setup] adds exactly one balance to the throttle-balance
    group, the one that solves the throttle so that total thrust equals
    required thrust; the option only selects its bounds, zero and one under
    [bounded] and none otherwise. *)
Theorem throttle_balance_added_for_every_policy rho o :
  exists b,
    balances_in ThrottleBalanceGroup (UnsteadySolvedODE.setup rho o) = [b] /\
    bal_name b = Dynamic.Mission.THROTTLE /\
    lhs_name b = Dynamic.Mission.THRUST_TOTAL /\
    rhs_name b = "thrust_req" /\
    lower b = (if bool_decide (UnsteadySolvedODE.throttle_enforcement o = Some bounded)
               then Some 0%Q else None) /\
    upper b = (if bool_decide (UnsteadySolvedODE.throttle_enforcement o = Some bounded)
               then Some 1%Q else None).
Proof.
  rewrite U_setup_balances_in. eexists. split; [reflexivity|]. done.
Qed.

(** The balances [setup] creates, one by one. *)
Lemma U_setup_balance_cases rho o b :
  b ∈ balances_of (UnsteadySolvedODE.setup rho o) <->
  b = UnsteadySolvedODE.throttle_balance (UnsteadySolvedODE.num_nodes o)
        (UnsteadySolvedODE.throttle_enforcement o) \/
  (UnsteadySolvedODE.ground_roll o = false /\
   b = UnsteadySolvedODE.alpha_balance (UnsteadySolvedODE.num_nodes o)) \/
  b = UnsteadySolvedODE.thrust_req_balance (UnsteadySolvedODE.num_nodes o).
Proof.
  rewrite U_setup_balances_of.
  unfold UnsteadySolvedODE.throttle_balance_comp,
    UnsteadySolvedODE.thrust_alpha_bal, add_balance.
  destruct (UnsteadySolvedODE.ground_roll o); cbn;
    rewrite ?elem_of_cons, ?elem_of_nil; intuition congruence.
Qed.

(** C2: the alpha balance is among the balances exactly when the phase is
    not a ground-roll phase, and switching a phase to ground roll, all else
    equal, leaves exactly one balance fewer. *)
Theorem alpha_balance_iff_not_ground_roll rho o :
  (has_balance (UnsteadySolvedODE.setup rho o) "alpha" <->
   UnsteadySolvedODE.ground_roll o = false) /\
  (length (balances_of (UnsteadySolvedODE.setup rho (with_ground_roll true o))) + 1
   = length (balances_of (UnsteadySolvedODE.setup rho (with_ground_roll false o))))%nat.
Proof.
  split.
  - unfold has_balance. split.
    + intros (b & Hb & Hn).
      apply U_setup_balance_cases in Hb as [-> | [[G _] | ->]];
        [discriminate Hn | exact G | discriminate Hn].
    + intros G.
      exists (UnsteadySolvedODE.alpha_balance (UnsteadySolvedODE.num_nodes o)).
      split; [|reflexivity]. apply U_setup_balance_cases. right; left. done.
  - rewrite !U_setup_balances_of. reflexivity.
Qed.

(** The example flight phase is not a ground roll and has the alpha
    balance. *)
Lemma alpha_balance_witness :
  has_balance (UnsteadySolvedODE.setup example_rho_sl (example_phase None)) "alpha".
Proof.
  exact (proj2 (proj1 (alpha_balance_iff_not_ground_roll example_rho_sl
                         (example_phase None))) eq_refl).
Defined.

Lemma np_scale_ones c nn : np_scale c (np_ones nn) = replicate nn (c * 1)%Q.
Proof. unfold np_scale, np_ones. apply fmap_replicate. Qed.

(** C5: the balances start from throttle one half, angle of attack zero
    (when the angle-of-attack balance exists; in a ground-roll phase it
    does not) and required thrust one hundred, in newtons, each at every
    one of the [num_nodes] nodes. *)
Theorem initial_guesses_of_controls rho o :
  let nn := UnsteadySolvedODE.num_nodes o in
  let m := UnsteadySolvedODE.setup rho o in
  initial_guess m Dynamic.Mission.THROTTLE (replicate nn (1 # 2)) /\
  (if UnsteadySolvedODE.ground_roll o then ~ has_balance m "alpha"
   else initial_guess m "alpha" (replicate nn 0%Q)) /\
  initial_guess m "thrust_req" (replicate nn (100 # 1)) /\
  (forall b, b ∈ balances_of m -> bal_name b = "thrust_req" -> bal_units b = "N").
Proof.
  cbn zeta. unfold initial_guess, has_balance.
  assert (HT : bal_val (UnsteadySolvedODE.throttle_balance
                          (UnsteadySolvedODE.num_nodes o)
                          (UnsteadySolvedODE.throttle_enforcement o))
               = replicate (UnsteadySolvedODE.num_nodes o) (1 # 2)).
  { cbn [bal_val UnsteadySolvedODE.throttle_balance]. by rewrite np_scale_ones. }
  assert (HR : bal_val (UnsteadySolvedODE.thrust_req_balance
                          (UnsteadySolvedODE.num_nodes o))
               = replicate (UnsteadySolvedODE.num_nodes o) (100 # 1)).
  { cbn [bal_val UnsteadySolvedODE.thrust_req_balance]. by rewrite np_scale_ones. }
  split; [|split; [|split]].
  - split.
    + eexists. split; [apply U_setup_balance_cases; left; reflexivity | reflexivity].
    + intros b Hb Hn.
      apply U_setup_balance_cases in Hb as [-> | [[_ ->] | ->]];
        [exact HT | discriminate Hn | discriminate Hn].
  - destruct (UnsteadySolvedODE.ground_roll o) eqn:G.
    + intros (b & Hb & Hn).
      apply U_setup_balance_cases in Hb as [-> | [[G' _] | ->]];
        [discriminate Hn | congruence | discriminate Hn].
    + split.
      * eexists. split; [apply U_setup_balance_cases; right; left; done | reflexivity].
      * intros b Hb Hn.
        apply U_setup_balance_cases in Hb as [-> | [[_ ->] | ->]];
          [discriminate Hn | reflexivity | discriminate Hn].
  - split.
    + eexists. split; [apply U_setup_balance_cases; right; right; reflexivity | reflexivity].
    + intros b Hb Hn.
      apply U_setup_balance_cases in Hb as [-> | [[_ ->] | ->]];
        [discriminate Hn | discriminate Hn | exact HR].
  - intros b Hb Hn.
    apply U_setup_balance_cases in Hb as [-> | [[_ ->] | ->]];
      [discriminate Hn | discriminate Hn | reflexivity].
Qed.

(** The guesses of the three-node example flight phase. *)
Lemma initial_guesses_witness :
  let m := UnsteadySolvedODE.setup example_rho_sl (example_phase None) in
  initial_guess m Dynamic.Mission.THROTTLE [1 # 2; 1 # 2; 1 # 2]%Q /\
  initial_guess m "alpha" [0; 0; 0]%Q /\
  initial_guess m "thrust_req" [100; 100; 100]%Q.
Proof.
  destruct (initial_guesses_of_controls example_rho_sl (example_phase None))
    as (H1 & H2 & H3 & _).
  exact (conj H1 (conj H2 H3)).
Defined.

(** ** The balance solve *)

Section NewtonRunFacts.
Context {X : Type}.
Variable converged : X -> bool.
Variable newton_step : X -> option X.
Variable ls : X -> X.

(** Anything the line search establishes and the start satisfies holds of
    the point the run ends in. *)
Lemma newton_run_invariant (P : X -> Prop) maxiter x :
  P x -> (forall y, P (ls y)) ->
  P (newton_run converged newton_step ls maxiter x).2.
Proof.
  intros Hx Hls. revert x Hx.
  induction maxiter as [|k IH]; intros x Hx; cbn.
  - destruct (converged x); exact Hx.
  - destruct (converged x); [exact Hx|].
    destruct (newton_step x) as [x'|]; [|exact Hx].
    apply IH, Hls.
Qed.

(** A run ends [CONVERGED] only in a point that passes the test. *)
Lemma newton_run_converged maxiter x x' :
  newton_run converged newton_step ls maxiter x = (CONVERGED, x') ->
  converged x' = true.
Proof.
  revert x. induction maxiter as [|k IH]; intros x; cbn.
  - destruct (converged x) eqn:E; intros [= <-]; exact E.
  - destruct (converged x) eqn:E; [intros [= <-]; exact E|].
    destruct (newton_step x) as [y|]; [apply IH|discriminate].
Qed.
End NewtonRunFacts.

Lemma enforce_bounds_unit x :
  (0 <= enforce_bounds (Some 0) (Some 1) x <= 1)%Q.
Proof.
  unfold enforce_bounds.
  destruct (Qlt_le_dec x 0) as [H|H]; destruct (Qlt_le_dec 1 _) as [H'|H'];
    split; try apply Qle_refl; try assumption; try (apply Qlt_le_weak; assumption);
    try discriminate.
Qed.

Lemma enforce_bounds_free x : enforce_bounds None None x = x.
Proof. reflexivity. Qed.

(** C4: under [bounded] the throttle balance carries the bounds zero and
    one and its solver the bounds-enforcing line search; the throttle
    solve then returns a value only when it has converged, and every entry
    of that value lies between zero and one, whatever the Newton update
    proposes.  Under every other enforcement mode the throttle balance
    carries no bounds, and the line search moves nothing. *)
Theorem bounded_throttle_stays_in_unit_interval rho o :
  let m := UnsteadySolvedODE.setup rho o in
  let b := UnsteadySolvedODE.throttle_balance (UnsteadySolvedODE.num_nodes o)
             (UnsteadySolvedODE.throttle_enforcement o) in
  balances_in ThrottleBalanceGroup m = [b] /\
  (linesearch <$> nonlinear_solver m ThrottleBalanceGroup
   = Some (Some BoundsEnforceLS)) /\
  (UnsteadySolvedODE.throttle_enforcement o = Some bounded ->
   lower b = Some 0%Q /\ upper b = Some 1%Q /\
   forall tb_converged tb_step maxiter c,
   exists r, solve_throttle tb_converged tb_step m maxiter c = Some r /\
     forall t, r = inr t ->
       tb_converged c t = true /\ Forall (fun x => 0 <= x <= 1)%Q t) /\
  (UnsteadySolvedODE.throttle_enforcement o <> Some bounded ->
   lower b = None /\ upper b = None /\
   forall v, apply_linesearch (Some BoundsEnforceLS) b v = v).
Proof.
  cbn zeta. split; [by rewrite U_setup_balances_in|].
  split; [by rewrite U_setup_nonlinear_solver|].
  split.
  - intros Hte.
    assert (Hlo : lower (UnsteadySolvedODE.throttle_balance
                           (UnsteadySolvedODE.num_nodes o)
                           (UnsteadySolvedODE.throttle_enforcement o)) = Some 0%Q)
      by (by rewrite Hte).
    assert (Hhi : upper (UnsteadySolvedODE.throttle_balance
                           (UnsteadySolvedODE.num_nodes o)
                           (UnsteadySolvedODE.throttle_enforcement o)) = Some 1%Q)
      by (by rewrite Hte).
    split; [exact Hlo|]. split; [exact Hhi|].
    intros conv step maxiter c.
    unfold solve_throttle, throttle_state.
    rewrite U_setup_nonlinear_solver, U_setup_balances_in.
    cbn [mbind option_bind head UnsteadySolvedODE.throttle_balance_comp
         add_balance app linesearch apply_linesearch].
    set (ls := apply_linesearch _ _).
    set (x0 := bal_val _).
    eexists. split; [reflexivity|].
    intros t Ht.
    pose proof (newton_run_invariant (conv c) (step c) ls
                  (Forall (fun x => 0 <= x <= 1)%Q) maxiter x0) as Inv.
    pose proof (newton_run_converged (conv c) (step c) ls maxiter x0) as Cv.
    destruct (newton_run (conv c) (step c) ls maxiter x0) as [[] x'];
      cbn in Ht; try discriminate Ht.
    injection Ht as ->. split; [by eapply Cv|].
    apply Inv.
    + subst x0. cbn [bal_val UnsteadySolvedODE.throttle_balance].
      rewrite np_scale_ones. apply Forall_forall. intros x Hx.
      apply elem_of_replicate in Hx as [-> _]. split; discriminate.
    + intros y. subst ls. unfold apply_linesearch. rewrite Hlo, Hhi.
      apply Forall_fmap, Forall_forall. intros x _.
      apply enforce_bounds_unit.
  - intros Hte.
    assert (Hb : UnsteadySolvedODE.is_bounded
                   (UnsteadySolvedODE.throttle_enforcement o) = false).
    { unfold UnsteadySolvedODE.is_bounded. by apply bool_decide_eq_false. }
    cbn [lower upper UnsteadySolvedODE.throttle_balance apply_linesearch].
    rewrite Hb. split; [done|]. split; [done|].
    intros v. clear. induction v as [|x v IH]; [done|]. cbn. by rewrite IH.
Qed.

(** At the bounded example phase an update that adds seven to every entry
    is brought back to one, where the solve converges. *)
Lemma bounded_throttle_witness :
  UnsteadySolvedODE.throttle_enforcement (example_phase (Some bounded))
  = Some bounded /\
  solve_throttle all_ones overshoot_step
    (UnsteadySolvedODE.setup example_rho_sl (example_phase (Some bounded)))
    5 [] = Some (inr [1; 1; 1]%Q) /\
  Forall (fun x => 0 <= x <= 1)%Q [1; 1; 1]%Q.
Proof.
  split; [reflexivity|].
  destruct (bounded_throttle_stays_in_unit_interval example_rho_sl
              (example_phase (Some bounded))) as (_ & _ & H & _).
  destruct (H eq_refl) as (_ & _ & H').
  destruct (H' all_ones overshoot_step 5%nat []) as (r & Hr & Ht).
  vm_compute in Hr. injection Hr as <-.
  split; [vm_compute; reflexivity|].
  exact (proj2 (Ht _ eq_refl)).
Defined.

(** C6 as stated, refuted on the example phase: the control-iteration
    solve runs out of iterations without converging, so it has diverged,
    and the evaluation of the phase nevertheless returns values, those of
    the last iterate, instead of an error. *)
Lemma control_iteration_divergence_is_silent :
  let m := UnsteadySolvedODE.setup example_rho_sl (example_phase (Some bounded)) in
  exists c t,
    control_iter_state never_converged idle_step m 10 = (DIVERGED_MAXITER, c) /\
    evaluate_phase never_converged idle_step all_ones overshoot_step m 10
    = Some (inr (c, t)).
Proof. cbn zeta. eexists _, _. split; vm_compute; reflexivity. Qed.

(** C6, amended: only the solver of the throttle-balance group is set to
    raise on non-convergence.  A throttle solve that diverges, by the
    iteration limit or by a singular linear solve, raises, and the
    evaluation of the phase fails with that exception; a control-iteration
    solve whose linear solve is singular fails the evaluation as well;
    a control-iteration solve that exceeds the iteration limit raises
    nothing and hands on its last iterate. *)
Theorem divergence_raises_where_configured
    rho o ci_converged ci_step tb_converged tb_step maxiter :
  let m := UnsteadySolvedODE.setup rho o in
  let solve_ci := solve_control_iter ci_converged ci_step m maxiter in
  let evaluate :=
    evaluate_phase ci_converged ci_step tb_converged tb_step m maxiter in
  err_on_non_converge <$> nonlinear_solver m ThrottleBalanceGroup = Some true /\
  err_on_non_converge <$> nonlinear_solver m ControlIterGroup = Some false /\
  (forall c st x,
     throttle_state tb_converged tb_step m maxiter c = Some (st, x) ->
     st <> CONVERGED ->
     exists e, solve_throttle tb_converged tb_step m maxiter c = Some (inl e) /\
       (solve_ci = Some (inr c) -> evaluate = Some (inl e))) /\
  (forall x,
     control_iter_state ci_converged ci_step m maxiter = (DIVERGED_SINGULAR, x) ->
     evaluate = Some (inl SingularMatrixError)) /\
  (forall x,
     control_iter_state ci_converged ci_step m maxiter = (DIVERGED_MAXITER, x) ->
     solve_ci = Some (inr x)).
Proof.
  cbn zeta.
  split; [by rewrite U_setup_nonlinear_solver|].
  split; [by rewrite U_setup_nonlinear_solver|].
  split; [|split].
  - intros c st x Hst Hne.
    assert (Hs : exists e,
      solve_throttle tb_converged tb_step (UnsteadySolvedODE.setup rho o)
        maxiter c = Some (inl e)).
    { unfold solve_throttle. rewrite Hst, U_setup_nonlinear_solver.
      destruct st; [done | |]; eexists; reflexivity. }
    destruct Hs as [e He]. exists e. split; [exact He|].
    intros Hci. unfold evaluate_phase. rewrite Hci. cbn [mbind option_bind].
    rewrite He. reflexivity.
  - intros x Hx. unfold evaluate_phase, solve_control_iter.
    rewrite U_setup_nonlinear_solver, Hx. reflexivity.
  - intros x Hx. unfold solve_control_iter.
    rewrite U_setup_nonlinear_solver, Hx. reflexivity.
Qed.

(** The three cases at the example phase: a throttle solve that never
    converges fails the evaluation; so does a singular control iteration;
    a control iteration that only runs out of iterations returns. *)
Lemma divergence_raises_witness :
  let m := UnsteadySolvedODE.setup example_rho_sl (example_phase (Some bounded)) in
  evaluate_phase (fun _ => true) idle_step throttle_never_converged
    overshoot_step m 10 = Some (inl AnalysisError) /\
  evaluate_phase never_converged singular_step all_ones overshoot_step m 10
  = Some (inl SingularMatrixError) /\
  solve_control_iter never_converged idle_step m 10
  = Some (inr [[0; 0; 0]; [100; 100; 100]]%Q).
Proof.
  cbn zeta.
  set (m := UnsteadySolvedODE.setup example_rho_sl (example_phase (Some bounded))).
  split; [|split].
  - destruct (divergence_raises_where_configured example_rho_sl
                (example_phase (Some bounded)) (fun _ => true) idle_step
                throttle_never_converged overshoot_step 10)
      as (_ & _ & H & _).
    destruct (H [[0; 0; 0]; [100; 100; 100]]%Q DIVERGED_MAXITER [1; 1; 1]%Q)
      as (e & He & Hev); [vm_compute; reflexivity | discriminate |].
    vm_compute in He. injection He as <-.
    apply Hev. vm_compute. reflexivity.
  - destruct (divergence_raises_where_configured example_rho_sl
                (example_phase (Some bounded)) never_converged singular_step
                all_ones overshoot_step 10)
      as (_ & _ & _ & H & _).
    apply (H [[0; 0; 0]; [100; 100; 100]]%Q). vm_compute. reflexivity.
  - destruct (divergence_raises_where_configured example_rho_sl
                (example_phase (Some bounded)) never_converged idle_step
                all_ones overshoot_step 10)
      as (_ & _ & _ & _ & H).
    apply (H [[0; 0; 0]; [100; 100; 100]]%Q). vm_compute. reflexivity.
Defined.

(** ** The loop of [GroundrollODE.setup] *)

Lemma G_body_snd nn so m kw b :
  (GroundrollODE.loop_body nn so (m, kw) b).2 = loop_kwargs so kw b.
Proof. reflexivity. Qed.

Lemma G_body_frame nn so m kw b :
  same_frame m (GroundrollODE.loop_body nn so (m, kw) b).1.
Proof.
  unfold GroundrollODE.loop_body. cbn [fst].
  repeat case_match;
    repeat first [ apply same_frame_refl
                 | eapply same_frame_trans; [| apply same_frame_self_promotes]
                 | eapply same_frame_trans; [| apply same_frame_add_built]
                 | eapply same_frame_trans; [| apply same_frame_log] ].
Qed.

Lemma G_body_grows nn so m kw b :
  grows m (GroundrollODE.loop_body nn so (m, kw) b).1.
Proof.
  unfold GroundrollODE.loop_body. cbn [fst].
  repeat case_match;
    repeat first [ apply grows_refl
                 | eapply grows_trans; [| apply grows_self_promotes]
                 | eapply grows_trans; [| apply grows_add_subsystem]
                 | eapply grows_trans; [| apply grows_log] ].
Qed.

Lemma G_body_does nn so m kw b :
  let kw' := loop_kwargs so kw b in
  let m' := (GroundrollODE.loop_body nn so (m, kw) b).1 in
  called m' b BuildMission kw' /\
  forall s, build_mission b kw' = Some s ->
    placed m' (name b) s TopLevel /\
    called m' b MissionInputs kw' /\ called m' b MissionOutputs kw'.
Proof.
  cbn zeta. unfold GroundrollODE.loop_body. cbn [fst].
  set (kw' := loop_kwargs so kw b).
  assert (GP : forall m2 : Model,
             grows m2 (if type_is b AerodynamicsBuilderBase
                       then self_promotes (name b) ["alpha"] (replicate nn 0%nat) m2
                       else m2)).
  { intros m2. destruct (type_is _ _); [apply grows_self_promotes | apply grows_refl]. }
  destruct (build_mission b kw') as [s|] eqn:E.
  - split.
    + eapply called_grows; [| apply called_log].
      eapply grows_trans; [| apply GP].
      eapply grows_trans; [| apply grows_add_subsystem].
      eapply grows_trans; apply grows_log.
    + intros s' [= <-]. split; [|split].
      * eapply grows_placed; [apply GP | apply placed_add_subsystem].
      * eapply called_grows; [| apply called_log].
        eapply grows_trans; [| apply GP].
        eapply grows_trans; [| apply grows_add_subsystem]. apply grows_log.
      * eapply called_grows; [| apply called_log].
        eapply grows_trans; [| apply GP]. apply grows_add_subsystem.
  - split; [|discriminate].
    eapply called_grows; [apply GP | apply called_log].
Qed.

(** What happens to the builder at a position of [core_subsystems]. *)
Lemma G_setup_builder o l1 b l2 :
  GroundrollODE.core_subsystems o = l1 ++ b :: l2 ->
  let kw := kwargs_at (GroundrollODE.subsystem_options o)
              (GroundrollODE.initial_kwargs o) l1 b in
  let m := GroundrollODE.setup o in
  called m b BuildMission kw /\
  forall s, build_mission b kw = Some s ->
    placed m (name b) s TopLevel /\
    called m b MissionInputs kw /\ called m b MissionOutputs kw.
Proof.
  intros Hcs. cbn zeta.
  assert (G : exists m1,
    grows (GroundrollODE.loop_body (GroundrollODE.num_nodes o)
             (GroundrollODE.subsystem_options o)
             (m1, foldl (loop_kwargs (GroundrollODE.subsystem_options o))
                    (GroundrollODE.initial_kwargs o) l1) b).1
          (GroundrollODE.setup o)).
  { unfold GroundrollODE.setup. cbn zeta. rewrite Hcs.
    match goal with
    | |- context [foldl ?f (?p, ?k) ?l] =>
        destruct (loop_at _ _
                    (G_body_snd (GroundrollODE.num_nodes o)
                       (GroundrollODE.subsystem_options o))
                    (G_body_grows (GroundrollODE.num_nodes o)
                       (GroundrollODE.subsystem_options o))
                    l1 b l2 p k)
          as (m1 & _ & G1);
        exists m1; destruct (foldl f (p, k) l) as [mL kwL]
    end.
    eapply grows_trans; [exact G1|]. cbn [fst].
    destruct (GroundrollODE.opt_set_input_defaults o); grows_by_append. }
  destruct G as (m1 & G).
  destruct (G_body_does (GroundrollODE.num_nodes o)
              (GroundrollODE.subsystem_options o) m1
              (foldl (loop_kwargs (GroundrollODE.subsystem_options o))
                 (GroundrollODE.initial_kwargs o) l1) b) as [C B].
  split; [eapply called_grows; eauto|].
  intros s Hs. destruct (B s Hs) as (P & CI & CO).
  repeat split; [eapply grows_placed | eapply called_grows | eapply called_grows]; eauto.
Qed.

(** [GroundrollODE.setup] creates no balance at all. *)
Lemma G_setup_balances_of o : balances_of (GroundrollODE.setup o) = [].
Proof.
  unfold GroundrollODE.setup, GroundrollODE.add_atmosphere. cbn zeta.
  split_loop pre mL kwL E.
  pose proof (loop_frame _ (G_body_frame (GroundrollODE.num_nodes o)
                              (GroundrollODE.subsystem_options o))
                (GroundrollODE.core_subsystems o)
                pre (GroundrollODE.initial_kwargs o)) as F.
  rewrite E in F. cbn [fst] in F. destruct F as [_ _ F _].
  destruct (GroundrollODE.opt_set_input_defaults o),
    (decide (GroundrollODE.analysis_scheme o = SHOOTING));
    autorewrite with model_balances; rewrite F; subst pre;
    autorewrite with model_balances; reflexivity.
Qed.

(** The component [init_alpha] is at top level, with its input promoted
    as the wing incidence. *)
Lemma G_setup_init_alpha o :
  {| scope := TopLevel; sub_name := "init_alpha";
     subsys := GroundrollODE.init_alpha (GroundrollODE.num_nodes o);
     promotes := [PAlias "i_wing" Aircraft.Wing.INCIDENCE; PName "alpha"];
     promotes_inputs := []; promotes_outputs := [] |}
  ∈ subsystems (GroundrollODE.setup o).
Proof.
  unfold GroundrollODE.setup. cbn zeta.
  split_loop pre mL kwL E.
  pose proof (loop_grows _ (G_body_grows (GroundrollODE.num_nodes o)
                              (GroundrollODE.subsystem_options o))
                (GroundrollODE.core_subsystems o)
                pre (GroundrollODE.initial_kwargs o)) as F.
  rewrite E in F. cbn [fst] in F.
  eapply grows_subsystem.
  { eapply grows_trans; [exact F|].
    destruct (GroundrollODE.opt_set_input_defaults o); grows_by_append. }
  subst pre. cbn [subsystems add_subsystem].
  apply elem_of_app; right. apply list_elem_of_singleton. reflexivity.
Qed.

Lemma input_default_last n v u m :
  input_default (set_input_defaults n v u m) n
  = Some {| id_name := n; id_val := v; id_units := u |}.
Proof.
  unfold input_default, set_input_defaults; cbn [input_defaults].
  rewrite filter_app, filter_cons, filter_nil; cbn [id_name].
  destruct (decide (n = n)); [|done]. apply last_snoc.
Qed.

(** ** Ground roll: angle of attack *)

Lemma init_alpha_compute nn env w :
  env "i_wing" = Some (Scalar w) ->
  exec_compute (GroundrollODE.init_alpha nn) env = Some (replicate nn w).
Proof.
  intros H. unfold exec_compute, GroundrollODE.init_alpha.
  cbn [eval_expr]. rewrite H. cbn [mbind option_bind nd_assign].
  do 2 f_equal. unfold out_length. cbn.
  repeat case_decide; try discriminate; try congruence.
  cbn. unfold np_scale, np_ones. by rewrite length_fmap, length_replicate.
Qed.

(** C10: the ground-roll ODE has no balance, so angle of attack is not
    solved for; the component [init_alpha], whose input is promoted as the
    wing incidence, writes that one scalar to [alpha] at every node; and
    the default left for the wing incidence is -0.854237 degrees. *)
Theorem groundroll_alpha_is_wing_incidence o :
  let nn := GroundrollODE.num_nodes o in
  let m := GroundrollODE.setup o in
  balances_of m = [] /\
  ~ has_balance m "alpha" /\
  {| scope := TopLevel; sub_name := "init_alpha";
     subsys := GroundrollODE.init_alpha nn;
     promotes := [PAlias "i_wing" Aircraft.Wing.INCIDENCE; PName "alpha"];
     promotes_inputs := []; promotes_outputs := [] |} ∈ subsystems m /\
  (forall env w, env "i_wing" = Some (Scalar w) ->
     exists alpha,
       exec_compute (GroundrollODE.init_alpha nn) env = Some alpha /\
       length alpha = nn /\
       forall i, (i < nn)%nat -> alpha !! i = Some w) /\
  input_default m Aircraft.Wing.INCIDENCE
  = Some {| id_name := Aircraft.Wing.INCIDENCE;
            id_val := Scalar (-854237 # 1000000);
            id_units := Some "deg" |}.
Proof.
  cbn zeta. split; [apply G_setup_balances_of|].
  split.
  { intros (b & Hb & _). rewrite G_setup_balances_of in Hb.
    by apply elem_of_nil in Hb. }
  split; [apply G_setup_init_alpha|].
  split.
  - intros env w H. exists (replicate (GroundrollODE.num_nodes o) w).
    split; [by apply init_alpha_compute|].
    split; [apply length_replicate|].
    intros i Hi. by apply lookup_replicate_2.
  - unfold GroundrollODE.setup. cbn zeta.
    match goal with
    | |- context [foldl ?f ?a ?l] => destruct (foldl f a l) as [mL kwL]
    end.
    apply input_default_last.
Qed.

(** In the three-node example a wing incidence of -0.854237 degrees
    reaches the second node. *)
Lemma groundroll_alpha_witness :
  exists alpha,
    exec_compute (GroundrollODE.init_alpha 3) (incidence_env (-854237 # 1000000))
    = Some alpha /\
    alpha !! 1%nat = Some (-854237 # 1000000)%Q.
Proof.
  destruct (groundroll_alpha_is_wing_incidence example_groundroll)
    as (_ & _ & _ & H & _).
  destruct (H (incidence_env (-854237 # 1000000)) (-854237 # 1000000)%Q eq_refl)
    as (alpha & Ha & _ & Hi).
  exists alpha. split; [exact Ha|]. apply Hi. cbn. lia.
Defined.

(** ** Routing of built subsystems *)

Lemma isinstance_core_propulsion :
  isinstance core_propulsion PropulsionBuilderBase = true /\
  isinstance core_propulsion AerodynamicsBuilderBase = false.
Proof. split; reflexivity. Qed.

(** C3 as stated, refuted on the ground-roll example: the propulsion
    builder is built, and its system is added to the top-level group, not
    to a throttle-balance group; likewise the aerodynamics builder's system
    is not in a control-iteration group. *)
Lemma groundroll_puts_propulsion_at_top_level :
  let m := GroundrollODE.setup example_groundroll in
  isinstance core_propulsion PropulsionBuilderBase = true /\
  placed m (name core_propulsion) (MkSystem "engines") TopLevel /\
  ~ placed m (name core_propulsion) (MkSystem "engines") ThrottleBalanceGroup /\
  isinstance core_aerodynamics AerodynamicsBuilderBase = true /\
  ~ placed m (name core_aerodynamics) (MkSystem "aero") ControlIterGroup.
Proof.
  cbn zeta. split; [reflexivity|].
  split.
  { exact (proj1 (proj2 (G_setup_builder example_groundroll [core_aerodynamics]
                             core_propulsion [] eq_refl) _ eq_refl)). }
  assert (Htop : forall a, a ∈ subsystems (GroundrollODE.setup example_groundroll) ->
                           scope a = TopLevel).
  { intros a Ha. vm_compute in Ha.
    repeat (apply elem_of_cons in Ha as [-> | Ha]; [reflexivity|]).
    by apply elem_of_nil in Ha. }
  split; [|split; [reflexivity|]].
  - intros (a & Ha & _ & _ & Hsc). apply Htop in Ha. congruence.
  - intros (a & Ha & _ & _ & Hsc). apply Htop in Ha. congruence.
Qed.

(** In [UnsteadySolvedODE] the test for an aerodynamics builder comes
    first: a builder whose class derives from both bases goes to the
    control-iteration group. *)
Lemma hybrid_builder_routed_as_aerodynamics :
  isinstance hybrid_builder PropulsionBuilderBase = true /\
  route hybrid_builder = ControlIterGroup.
Proof. split; reflexivity. Qed.

(** C3, amended: in [UnsteadySolvedODE.setup] every built subsystem whose
    builder is an aerodynamics builder is added to the control-iteration
    group, every built subsystem whose builder is a propulsion builder and
    not an aerodynamics builder to the throttle-balance group, and every
    other built subsystem to the top-level group; the group depends on the
    class of the builder alone, not on its name.  In [GroundrollODE.setup]
    every built subsystem is added to the top-level group. *)
Theorem built_subsystems_routed_by_class l1 b l2 s :
  (forall rho o,
     UnsteadySolvedODE.core_subsystems o = l1 ++ b :: l2 ->
     build_mission b (kwargs_at (UnsteadySolvedODE.subsystem_options o)
                        (UnsteadySolvedODE.initial_kwargs o) l1 b) = Some s ->
     placed (UnsteadySolvedODE.setup rho o) (name b) s
       (if isinstance b AerodynamicsBuilderBase then ControlIterGroup
        else if isinstance b PropulsionBuilderBase then ThrottleBalanceGroup
        else TopLevel)) /\
  (forall b', mro b' = mro b -> route b' = route b) /\
  (forall o,
     GroundrollODE.core_subsystems o = l1 ++ b :: l2 ->
     build_mission b (kwargs_at (GroundrollODE.subsystem_options o)
                        (GroundrollODE.initial_kwargs o) l1 b) = Some s ->
     placed (GroundrollODE.setup o) (name b) s TopLevel).
Proof.
  split; [|split].
  - intros rho o Hcs Hb.
    destruct (U_setup_builder rho o l1 b l2 Hcs) as [_ H].
    exact (proj1 (H s Hb)).
  - intros b' Hm. unfold route, isinstance. by rewrite Hm.
  - intros o Hcs Hb.
    destruct (G_setup_builder o l1 b l2 Hcs) as [_ H].
    exact (proj1 (H s Hb)).
Qed.

(** At the example phases: the propulsion system is in the throttle-balance
    group of the flight phase and at top level in the ground roll. *)
Lemma built_subsystems_routed_witness :
  placed (UnsteadySolvedODE.setup example_rho_sl (example_phase None))
    "core_propulsion" (MkSystem "engines") ThrottleBalanceGroup /\
  placed (GroundrollODE.setup example_groundroll)
    "core_propulsion" (MkSystem "engines") TopLevel.
Proof.
  destruct (built_subsystems_routed_by_class [core_aerodynamics] core_propulsion
              [] (MkSystem "engines")) as (HU & _ & HG).
  split.
  - exact (HU example_rho_sl (example_phase None) eq_refl eq_refl).
  - exact (HG example_groundroll eq_refl eq_refl).
Defined.

(** ** Accumulation of keyword arguments *)

Lemma loop_kwargs_dom so kw b : dom kw ⊆ dom (loop_kwargs so kw b).
Proof.
  unfold loop_kwargs, dict_update. destruct (so !! name b); [|done].
  rewrite dom_union. set_solver.
Qed.

Lemma foldl_loop_kwargs_dom so l kw :
  dom kw ⊆ dom (foldl (loop_kwargs so) kw l).
Proof.
  revert kw. induction l as [|b l IH]; intros kw; [done|].
  cbn [foldl]. etrans; [apply loop_kwargs_dom | apply IH].
Qed.

Lemma loop_kwargs_override so kw b ov :
  so !! name b = Some ov -> dom ov ⊆ dom (loop_kwargs so kw b).
Proof.
  intros H. unfold loop_kwargs, dict_update. rewrite H, dom_union. set_solver.
Qed.

(** The keys an earlier builder's options wrote are in the dictionary of
    every later builder. *)
Lemma kwargs_at_keeps_override so kw0 l1 s1 l2 s2 ov k :
  so !! name s1 = Some ov -> k ∈ dom ov ->
  k ∈ dom (kwargs_at so kw0 (l1 ++ s1 :: l2) s2).
Proof.
  intros Hov Hk. unfold kwargs_at. apply loop_kwargs_dom.
  rewrite foldl_app. cbn [foldl]. apply foldl_loop_kwargs_dom.
  eapply loop_kwargs_override; eauto.
Qed.

(** C9: in both setups, when a builder with an entry in
    [subsystem_options] comes before another builder in declaration order,
    every key of that entry is in the keyword arguments with which the
    later builder's [build_mission] is called, and, when that call builds a
    system, in those of its [mission_inputs] and [mission_outputs] calls
    too: the three calls receive the one accumulated dictionary. *)
Theorem kwargs_accumulate_across_builders l1 s1 l2 s2 l3 ov k :
  k ∈ dom ov ->
  (forall rho o,
     UnsteadySolvedODE.core_subsystems o = l1 ++ s1 :: l2 ++ s2 :: l3 ->
     UnsteadySolvedODE.subsystem_options o !! name s1 = Some ov ->
     let m := UnsteadySolvedODE.setup rho o in
     let kw := kwargs_at (UnsteadySolvedODE.subsystem_options o)
                 (UnsteadySolvedODE.initial_kwargs o) (l1 ++ s1 :: l2) s2 in
     k ∈ dom kw /\ called m s2 BuildMission kw /\
     (is_Some (build_mission s2 kw) ->
      called m s2 MissionInputs kw /\ called m s2 MissionOutputs kw)) /\
  (forall o,
     GroundrollODE.core_subsystems o = l1 ++ s1 :: l2 ++ s2 :: l3 ->
     GroundrollODE.subsystem_options o !! name s1 = Some ov ->
     let m := GroundrollODE.setup o in
     let kw := kwargs_at (GroundrollODE.subsystem_options o)
                 (GroundrollODE.initial_kwargs o) (l1 ++ s1 :: l2) s2 in
     k ∈ dom kw /\ called m s2 BuildMission kw /\
     (is_Some (build_mission s2 kw) ->
      called m s2 MissionInputs kw /\ called m s2 MissionOutputs kw)).
Proof.
  intros Hk. split.
  - intros rho o Hcs Hov. cbn zeta.
    split; [by eapply kwargs_at_keeps_override|].
    assert (Hcs' : UnsteadySolvedODE.core_subsystems o
                   = (l1 ++ s1 :: l2) ++ s2 :: l3)
      by (by rewrite Hcs, <- app_assoc).
    destruct (U_setup_builder rho o _ _ _ Hcs') as [C B].
    split; [exact C|]. intros [s Hs]. exact (proj2 (B s Hs)).
  - intros o Hcs Hov. cbn zeta.
    split; [by eapply kwargs_at_keeps_override|].
    assert (Hcs' : GroundrollODE.core_subsystems o
                   = (l1 ++ s1 :: l2) ++ s2 :: l3)
      by (by rewrite Hcs, <- app_assoc).
    destruct (G_setup_builder o _ _ _ Hcs') as [C B].
    split; [exact C|]. intros [s Hs]. exact (proj2 (B s Hs)).
Qed.

(** At the overridden example phases the key the aerodynamics entry wrote
    reaches the calls of the propulsion builder. *)
Lemma kwargs_accumulate_witness :
  let kw : Kwargs :=
    <["solve_alpha" := PyBool true]>
      (<["method" := PyStr "low_speed"]>
         (<["aviary_inputs" := PyObj "aviary_options"]>
            (<["num_nodes" := PyInt 3]> ∅))) in
  kwargs_at example_overrides
    (UnsteadySolvedODE.initial_kwargs example_phase_overridden)
    [core_aerodynamics] core_propulsion = kw /\
  called (UnsteadySolvedODE.setup example_rho_sl example_phase_overridden)
    core_propulsion BuildMission kw /\
  called (UnsteadySolvedODE.setup example_rho_sl example_phase_overridden)
    core_propulsion MissionInputs kw /\
  called (GroundrollODE.setup example_groundroll_overridden)
    core_propulsion MissionOutputs kw.
Proof.
  cbn zeta.
  assert (Hk : "solve_alpha" ∈ dom ({[ "solve_alpha" := PyBool true ]} : Kwargs)).
  { apply elem_of_dom. exists (PyBool true). apply lookup_singleton_eq. }
  destruct (kwargs_accumulate_across_builders [] core_aerodynamics []
              core_propulsion [] _ _ Hk) as [HU HG].
  assert (Ho : example_overrides !! name core_aerodynamics
               = Some ({[ "solve_alpha" := PyBool true ]} : Kwargs)).
  { apply lookup_singleton_eq. }
  destruct (HU example_rho_sl example_phase_overridden eq_refl Ho)
    as (_ & CB & CIO).
  destruct (HG example_groundroll_overridden eq_refl Ho) as (_ & _ & GIO).
  assert (E : kwargs_at example_overrides
                (UnsteadySolvedODE.initial_kwargs example_phase_overridden)
                [core_aerodynamics] core_propulsion
              = <["solve_alpha" := PyBool true]>
                  (<["method" := PyStr "low_speed"]>
                     (<["aviary_inputs" := PyObj "aviary_options"]>
                        (<["num_nodes" := PyInt 3]> ∅)))).
  { vm_compute. reflexivity. }
  split; [exact E|].
  change (GroundrollODE.subsystem_options example_groundroll_overridden)
    with example_overrides in GIO.
  change (GroundrollODE.initial_kwargs example_groundroll_overridden)
    with (UnsteadySolvedODE.initial_kwargs example_phase_overridden) in GIO.
  change (UnsteadySolvedODE.subsystem_options example_phase_overridden)
    with example_overrides in CB, CIO.
  cbn [app] in CB, CIO, GIO.
  rewrite E in CB, CIO, GIO.
  split; [exact CB|].
  split; [exact (proj1 (CIO (ex_intro _ _ eq_refl)))
         | exact (proj2 (GIO (ex_intro _ _ eq_refl)))].
Defined.

(** ** Propeller map ingestion *)

Lemma in_aliases_inl v : PropellerMap.in_aliases (inl v) = Some v.
Proof. destruct v; vm_compute; reflexivity. Qed.

Section ReadDataFacts.
Variable convert_units : Q -> string -> string -> option Q.
Variable default_prop_units : PropellerMap.PropModelVariables -> string.
Variable get_val : string -> PropellerMap.PyExc + Z.

Let read_column := PropellerMap.read_column convert_units default_prop_units get_val.
Let read_loop := PropellerMap.read_loop convert_units default_prop_units get_val.

Lemma read_column_unrecognized message w st h val units :
  read_column message w st (inr h, (val, units)) =
  match get_val Settings.VERBOSITY with
  | inl e => (w, inl e)
  | inr verbosity =>
      (if (1 <=? verbosity)%Z
       then w ++ [PropellerMap.unrecognized_warning message (inr h)] else w,
       inr {| PropellerMap._original_data :=
                <[inr h := val]> (PropellerMap._original_data st);
              PropellerMap.data := PropellerMap.data st;
              PropellerMap.propeller_variables :=
                PropellerMap.propeller_variables st |})
  end.
Proof. reflexivity. Qed.

Lemma read_column_recognized message w st v val units :
  read_column message w st (inl v, (val, units)) =
  match mapM (fun i => convert_units i units (default_prop_units v)) val with
  | Some val' =>
      (w, inr {| PropellerMap._original_data :=
                   <[inl v := val']> (PropellerMap._original_data st);
                 PropellerMap.data := PropellerMap.data st;
                 PropellerMap.propeller_variables :=
                   <[v := default_prop_units v]>
                     (PropellerMap.propeller_variables st) |})
  | None => (w, inl (PropellerMap.units_error default_prop_units message units v))
  end.
Proof.
  unfold read_column, PropellerMap.read_column. by rewrite in_aliases_inl.
Qed.

Lemma read_loop_cons message w st c cols :
  read_loop message w st (c :: cols)
  = match read_column message w st c with
    | (w', inr st') => read_loop message w' st' cols
    | (w', inl e) => (w', inl e)
    end.
Proof. reflexivity. Qed.
End ReadDataFacts.

(** C7: the code at files with an unrecognized column.  The verbosity is
    asked of [self.get_val], which is [om.System.get_val] and raises inside
    [__init__].  On the file with a Mach and an RPM column the load ends
    in that [TypeError] at the RPM column: no warning is issued, the column
    is not skipped and the Mach column is lost, where the claim has the
    column skipped with a warning and the load continued.  On the file
    with the RPM column alone the load ends in the same [TypeError], not
    in the exception for a file without valid variables.  The branch
    itself does what the claim says: with a [get_val] that returns a
    verbosity of one, the first file loads with the warning for the RPM
    column and the Mach number as its variable. *)
Theorem unrecognized_column_aborts_load :
  recognized_header ("RPM", ([1000 # 1]%Q, "rpm")) = false /\
  PropellerMap.load same_units_only all_unitless PropellerMap.System_get_val
    mach_rpm_file "prop.csv"
  = ([], inl (PropellerMap.TypeError "'NoneType' object is not subscriptable")) /\
  PropellerMap.load same_units_only all_unitless PropellerMap.System_get_val
    rpm_file "prop.csv"
  = ([], inl (PropellerMap.TypeError "'NoneType' object is not subscriptable")) /\
  exists st,
    PropellerMap.load same_units_only all_unitless (verbosity_of_options 1)
      mach_rpm_file "prop.csv"
    = (["<prop.csv>: header <RPM> was not recognized, and will be skipped"],
       inr st) /\
    dom (PropellerMap.propeller_variables st) = {[ PropellerMap.MACH ]}.
Proof.
  split; [vm_compute; reflexivity|].
  split; [vm_compute; reflexivity|].
  split; [vm_compute; reflexivity|].
  eexists. split; [vm_compute; reflexivity|].
  apply set_eq. intros v. rewrite elem_of_dom, elem_of_singleton.
  destruct v; vm_compute; split;
    try discriminate; try reflexivity; try (intros [? [=]]); eauto.
Qed.

(** C8: a file with a Mach and a thrust-coefficient column only, in either
    order, whose values convert to the expected units, loads;
    [propeller_variables] then has exactly the keys MACH and CT, and the
    data for CP and J are empty sequences. *)
Theorem mach_ct_file_loads
    convert_units default_prop_units get_val file data_file
    mach um ct uc mach' ct' :
  file data_file = [("mach", (mach, um)); ("ct", (ct, uc))] \/
  file data_file = [("ct", (ct, uc)); ("mach", (mach, um))] ->
  mapM (fun i => convert_units i um (default_prop_units PropellerMap.MACH)) mach
  = Some mach' ->
  mapM (fun i => convert_units i uc (default_prop_units PropellerMap.CT)) ct
  = Some ct' ->
  exists st,
    PropellerMap.load convert_units default_prop_units get_val file data_file
    = ([], inr st) /\
    dom (PropellerMap.propeller_variables st)
    = {[ PropellerMap.MACH; PropellerMap.CT ]} /\
    PropellerMap.data st !! PropellerMap.CP = Some [] /\
    PropellerMap.data st !! PropellerMap.J = Some [] /\
    PropellerMap.data st !! PropellerMap.MACH = Some mach' /\
    PropellerMap.data st !! PropellerMap.CT = Some ct'.
Proof.
  intros Hfile Hm Hc.
  assert (Rm : PropellerMap.resolve_header "mach" = inl PropellerMap.MACH)
    by (vm_compute; reflexivity).
  assert (Rc : PropellerMap.resolve_header "ct" = inl PropellerMap.CT)
    by (vm_compute; reflexivity).
  assert (Am : PropellerMap.in_aliases (inl PropellerMap.MACH) = Some PropellerMap.MACH)
    by apply in_aliases_inl.
  assert (Ac : PropellerMap.in_aliases (inl PropellerMap.CT) = Some PropellerMap.CT)
    by apply in_aliases_inl.
  assert (Dinit : forall v, PropellerMap.data PropellerMap.init_state !! v = Some []).
  { intros []; vm_compute; reflexivity. }
  assert (Oinit : forall v,
             PropellerMap._original_data PropellerMap.init_state !! inl v = Some []).
  { intros []; vm_compute; reflexivity. }
  unfold PropellerMap.load, PropellerMap._read_data, PropellerMap.read_data_file,
    PropellerMap.read_columns.
  destruct Hfile as [-> | ->];
    cbn [fmap list_fmap fst snd PropellerMap.read_loop PropellerMap.read_column];
    rewrite Rm, Rc, Am, Ac, Hm, Hc; cbn [PropellerMap.propeller_variables];
    (rewrite bool_decide_eq_false_2 by apply insert_non_empty);
    eexists; (split; [reflexivity|]);
    cbn [PropellerMap.propeller_variables PropellerMap.copy_data
         PropellerMap.data PropellerMap._original_data];
    (split; [change (PropellerMap.propeller_variables PropellerMap.init_state)
               with (∅ : gmap PropellerMap.PropModelVariables string);
             rewrite !dom_insert_L, dom_empty_L; set_solver|]);
    rewrite !map_lookup_imap, !Dinit; cbn [mbind option_bind];
    repeat split;
    repeat first [ rewrite lookup_insert_eq | rewrite lookup_insert_ne by discriminate ];
    try reflexivity; apply Oinit.
Qed.

(** The example file, whose columns are declared unitless, loads under a
    conversion that accepts equal units only. *)
Lemma mach_ct_file_witness :
  exists st,
    PropellerMap.load same_units_only all_unitless PropellerMap.System_get_val
      mach_ct_file "prop.csv"
    = ([], inr st) /\
    dom (PropellerMap.propeller_variables st)
    = {[ PropellerMap.MACH; PropellerMap.CT ]} /\
    PropellerMap.data st !! PropellerMap.CP = Some [] /\
    PropellerMap.data st !! PropellerMap.J = Some [].
Proof.
  destruct (mach_ct_file_loads same_units_only all_unitless
              PropellerMap.System_get_val mach_ct_file "prop.csv" [1 # 2; 3 # 4]%Q "unitless" [1 # 5; 1 # 4]%Q "unitless"
              [1 # 2; 3 # 4]%Q [1 # 5; 1 # 4]%Q
              (or_introl eq_refl) eq_refl eq_refl)
    as (st & H1 & H2 & H3 & H4 & _).
  exists st. repeat split; assumption.
Defined.

(** * Further properties of the assembly *)

(** ** The effect of the subsystem loop, field by field *)

Ltac model_fields :=
  cbn [subsystems calls input_defaults late_promotes sgm_inputs
       param_defaults_set linear_solver nonlinear_solver
       add_subsystem set_input_defaults set_nonlinear_solver
       modify_nonlinear_solver set_linear_solver ParamPort_set_default_vals
       self_promotes add_SGM_required_inputs log_call empty_model negb].

Lemma U_add_built_shape b s kw m :
  let m' := UnsteadySolvedODE.add_built b s kw m in
  subsystems m' = subsystems m ++ [U_entry (b, s, kw)] /\
  calls m' = calls m
    ++ [{| callee := name b; method := MissionInputs; call_kwargs := kw |};
        {| callee := name b; method := MissionOutputs; call_kwargs := kw |}] /\
  input_defaults m' = input_defaults m /\
  late_promotes m' = late_promotes m /\
  sgm_inputs m' = sgm_inputs m /\
  param_defaults_set m' = param_defaults_set m /\
  linear_solver m' = linear_solver m /\
  nonlinear_solver m' = nonlinear_solver m.
Proof.
  cbn zeta. unfold UnsteadySolvedODE.add_built, U_entry, route, aero_promoted_inputs.
  destruct (isinstance b AerodynamicsBuilderBase);
    [|destruct (isinstance b PropulsionBuilderBase)];
    model_fields; rewrite <- ?app_assoc; repeat split; reflexivity.
Qed.

Lemma U_loop_body_eq so m kw b :
  UnsteadySolvedODE.loop_body so (m, kw) b
  = (match build_mission b (loop_kwargs so kw b) with
     | Some s =>
         UnsteadySolvedODE.add_built b s (loop_kwargs so kw b)
           (log_call b BuildMission (loop_kwargs so kw b) m)
     | None => log_call b BuildMission (loop_kwargs so kw b) m
     end, loop_kwargs so kw b).
Proof.
  unfold UnsteadySolvedODE.loop_body.
  by destruct (build_mission b (loop_kwargs so kw b)).
Qed.

Lemma U_loop_shape so l : forall m kw,
  let r := (foldl (UnsteadySolvedODE.loop_body so) (m, kw) l).1 in
  subsystems r = subsystems m ++ (U_entry <$> built_list so kw l) /\
  calls r = calls m ++ loop_trace so kw l /\
  input_defaults r = input_defaults m /\
  late_promotes r = late_promotes m /\
  sgm_inputs r = sgm_inputs m /\
  param_defaults_set r = param_defaults_set m /\
  linear_solver r = linear_solver m /\
  nonlinear_solver r = nonlinear_solver m.
Proof.
  induction l as [|b l IH]; intros m kw; cbn zeta.
  - cbn. rewrite !app_nil_r. repeat split; reflexivity.
  - cbn [foldl built_list loop_trace]. rewrite U_loop_body_eq.
    match goal with
    | |- context [foldl _ (?m', ?kw') l] => specialize (IH m' kw')
    end.
    cbn zeta in IH. destruct IH as (I1 & I2 & I3 & I4 & I5 & I6 & I7 & I8).
    rewrite I1, I2, I3, I4, I5, I6, I7, I8. clear I1 I2 I3 I4 I5 I6 I7 I8.
    destruct (build_mission b (loop_kwargs so kw b)) as [s|] eqn:E.
    + destruct (U_add_built_shape b s (loop_kwargs so kw b)
                  (log_call b BuildMission (loop_kwargs so kw b) m))
        as (A1 & A2 & A3 & A4 & A5 & A6 & A7 & A8).
      rewrite A1, A2, A3, A4, A5, A6, A7, A8.
      model_fields. rewrite fmap_cons, <- !app_assoc.
      repeat split; reflexivity.
    + model_fields. rewrite <- !app_assoc.
      repeat split; reflexivity.
Qed.

Lemma G_loop_body_eq nn so m kw b :
  GroundrollODE.loop_body nn so (m, kw) b
  = (let kw' := loop_kwargs so kw b in
     let m1 := log_call b BuildMission kw' m in
     let m2 := match build_mission b kw' with
               | Some s =>
                   add_subsystem TopLevel (name b) (Built s) []
                     (mission_inputs b kw') (mission_outputs b kw')
                     (log_call b MissionOutputs kw'
                        (log_call b MissionInputs kw' m1))
               | None => m1
               end in
     if type_is b AerodynamicsBuilderBase
     then self_promotes (name b) ["alpha"] (replicate nn 0%nat) m2 else m2,
     loop_kwargs so kw b).
Proof. reflexivity. Qed.

Lemma G_loop_shape nn so l : forall m kw,
  let r := (foldl (GroundrollODE.loop_body nn so) (m, kw) l).1 in
  subsystems r = subsystems m ++ (G_entry <$> built_list so kw l) /\
  calls r = calls m ++ loop_trace so kw l /\
  input_defaults r = input_defaults m /\
  late_promotes r = late_promotes m
    ++ (G_promote nn <$> filter (fun b => type_is b AerodynamicsBuilderBase = true) l) /\
  sgm_inputs r = sgm_inputs m /\
  param_defaults_set r = param_defaults_set m /\
  linear_solver r = linear_solver m /\
  nonlinear_solver r = nonlinear_solver m.
Proof.
  induction l as [|b l IH]; intros m kw; cbn zeta.
  - cbn. rewrite !app_nil_r. repeat split; reflexivity.
  - cbn [foldl built_list loop_trace]. rewrite filter_cons.
    rewrite G_loop_body_eq. cbn zeta.
    match goal with
    | |- context [foldl _ (?m', ?kw') l] => specialize (IH m' kw')
    end.
    cbn zeta in IH. destruct IH as (I1 & I2 & I3 & I4 & I5 & I6 & I7 & I8).
    rewrite I1, I2, I3, I4, I5, I6, I7, I8. clear I1 I2 I3 I4 I5 I6 I7 I8.
    unfold G_promote at 2.
    destruct (build_mission b (loop_kwargs so kw b)) as [s|];
      destruct (type_is b AerodynamicsBuilderBase);
      [destruct (decide (true = true)); [|done]
      |destruct (decide (false = true)); [done|]
      |destruct (decide (true = true)); [|done]
      |destruct (decide (false = true)); [done|]];
      model_fields; rewrite ?fmap_cons, <- ?app_assoc;
      repeat split; reflexivity.
Qed.

Lemma built_list_app so l1 : forall kw l2,
  built_list so kw (l1 ++ l2)
  = built_list so kw l1 ++ built_list so (foldl (loop_kwargs so) kw l1) l2.
Proof.
  induction l1 as [|b l1 IH]; intros kw l2; [done|].
  cbn [app built_list foldl]. rewrite IH.
  by destruct (build_mission b (loop_kwargs so kw b)).
Qed.

Lemma built_list_at so kw l1 b l2 s :
  build_mission b (kwargs_at so kw l1 b) = Some s ->
  (b, s, kwargs_at so kw l1 b) ∈ built_list so kw (l1 ++ b :: l2).
Proof.
  intros H. rewrite built_list_app. apply elem_of_app; right.
  cbn [built_list]. unfold kwargs_at in H. rewrite H. apply elem_of_cons; by left.
Qed.

Lemma built_list_fst so l : forall kw x,
  x ∈ built_list so kw l -> x.1.1 ∈ l.
Proof.
  induction l as [|b l IH]; intros kw x; cbn [built_list].
  - by intros ?%elem_of_nil.
  - destruct (build_mission b (loop_kwargs so kw b)).
    + intros [->|H]%elem_of_cons; [apply elem_of_cons; by left|].
      apply elem_of_cons; right. by eapply IH.
    + intros H. apply elem_of_cons; right. by eapply IH.
Qed.

(** Names the state the loop of [UnsteadySolvedODE.setup] starts from and
    brings in what the loop did to it. *)
Ltac open_U_setup o :=
  unfold UnsteadySolvedODE.setup; cbn zeta;
  let pre := fresh "pre" in
  let mL := fresh "mL" in
  let kwL := fresh "kwL" in
  let E := fresh "E" in
  let S := fresh "S" in
  split_loop pre mL kwL E;
  pose proof (U_loop_shape (UnsteadySolvedODE.subsystem_options o)
                (UnsteadySolvedODE.core_subsystems o) pre
                (UnsteadySolvedODE.initial_kwargs o)) as S;
  cbn zeta in S; rewrite E in S; cbn [fst] in S;
  destruct S as (Ss & Sc & Sd & Sl & Sg & Sp & Sli & Sn);
  clear E.

Ltac open_G_setup o :=
  unfold GroundrollODE.setup, GroundrollODE.add_atmosphere; cbn zeta;
  let pre := fresh "pre" in
  let mL := fresh "mL" in
  let kwL := fresh "kwL" in
  let E := fresh "E" in
  let S := fresh "S" in
  split_loop pre mL kwL E;
  pose proof (G_loop_shape (GroundrollODE.num_nodes o)
                (GroundrollODE.subsystem_options o)
                (GroundrollODE.core_subsystems o) pre
                (GroundrollODE.initial_kwargs o)) as S;
  cbn zeta in S; rewrite E in S; cbn [fst] in S;
  destruct S as (Ss & Sc & Sd & Sl & Sg & Sp & Sli & Sn);
  clear E.

(** The subsystems of [UnsteadySolvedODE.setup]: what precedes the loop,
    the built systems, what follows. *)
Lemma U_setup_subsystems rho o :
  exists pre post,
    subsystems (UnsteadySolvedODE.setup rho o)
    = pre ++ (U_entry <$> built_list (UnsteadySolvedODE.subsystem_options o)
                            (UnsteadySolvedODE.initial_kwargs o)
                            (UnsteadySolvedODE.core_subsystems o)) ++ post /\
    sub_name <$> pre
    = (if UnsteadySolvedODE.include_param_comp o then ["params"] else [])
      ++ ["atmosphere"; "flight_path_angle"; "fc"; "control_iter_group";
          "throttle_balance_group"; "throttle_balance_comp";
          "compute_phase_time"; "compute_throttle_residual"] /\
    scope <$> pre
    = (if UnsteadySolvedODE.include_param_comp o then [TopLevel] else [])
      ++ [TopLevel; TopLevel; TopLevel; TopLevel; TopLevel;
          ThrottleBalanceGroup; TopLevel; TopLevel] /\
    sub_name <$> post
    = ["eom"; "thrust_alpha_bal"; "mass_rate"; "char_impedance_comp"] /\
    scope <$> post = [ControlIterGroup; ControlIterGroup; TopLevel; TopLevel].
Proof.
  open_U_setup o.
  destruct (UnsteadySolvedODE.include_param_comp o),
    (UnsteadySolvedODE.ground_roll o);
    model_fields; rewrite Ss; exists (subsystems pre); eexists;
    (split; [rewrite <- !app_assoc; reflexivity |]);
    subst pre; repeat split; reflexivity.
Qed.


(** ** Order of the members of each group *)

Lemma names_of_scope (l : list Added) sc :
  sub_name <$> filter (fun a => scope a = sc) l
  = fst <$> filter (fun p : string * Scope => p.2 = sc)
              (zip (sub_name <$> l) (scope <$> l)).
Proof.
  induction l as [|a l IH]; [done|].
  rewrite !fmap_cons. cbn [zip zip_with]. rewrite !filter_cons. cbn [snd].
  destruct (decide (scope a = sc)); rewrite ?fmap_cons, IH; reflexivity.
Qed.

Lemma names_of_routed sc (bl : list (SubsystemBuilder * System * Kwargs)) :
  sub_name <$> filter (fun a => scope a = sc) (U_entry <$> bl)
  = (fun x => name x.1.1) <$> filter (fun x => route x.1.1 = sc) bl.
Proof.
  induction bl as [|[[b s] kw] bl IH]; [done|].
  rewrite fmap_cons, !filter_cons. cbn [U_entry scope fst].
  destruct (decide (route b = sc)); rewrite ?fmap_cons, IH; reflexivity.
Qed.

(** X1: members of a group run in the order they were added.  In the
    control-iteration group the built aerodynamics systems come first, in
    declaration order, then the equations of motion, then the balance; in
    the throttle-balance group the balance comes first and the built
    propulsion systems follow; at top level the other built systems sit
    between the throttle residual and the mass rate. *)
Theorem members_in_order_of_addition rho o :
  let m := UnsteadySolvedODE.setup rho o in
  let built := built_list (UnsteadySolvedODE.subsystem_options o)
                 (UnsteadySolvedODE.initial_kwargs o)
                 (UnsteadySolvedODE.core_subsystems o) in
  let routed sc :=
    (fun x : SubsystemBuilder * System * Kwargs => name x.1.1)
    <$> filter (fun x => route x.1.1 = sc) built in
  sub_name <$> filter (fun a => scope a = ControlIterGroup) (subsystems m)
  = routed ControlIterGroup ++ ["eom"; "thrust_alpha_bal"] /\
  sub_name <$> filter (fun a => scope a = ThrottleBalanceGroup) (subsystems m)
  = "throttle_balance_comp" :: routed ThrottleBalanceGroup /\
  sub_name <$> filter (fun a => scope a = TopLevel) (subsystems m)
  = (if UnsteadySolvedODE.include_param_comp o then ["params"] else [])
    ++ ["atmosphere"; "flight_path_angle"; "fc"; "control_iter_group";
        "throttle_balance_group"; "compute_phase_time";
        "compute_throttle_residual"]
    ++ routed TopLevel ++ ["mass_rate"; "char_impedance_comp"].
Proof.
  cbn zeta.
  destruct (U_setup_subsystems rho o) as (pre & post & -> & Hn & Hs & Hn' & Hs').
  rewrite !filter_app, !fmap_app, !names_of_routed.
  rewrite !(names_of_scope pre), !(names_of_scope post), Hn, Hs, Hn', Hs'.
  destruct (UnsteadySolvedODE.include_param_comp o); repeat split;
    simpl; rewrite ?app_nil_r; reflexivity.
Qed.

(** ** The angle-of-attack alias *)

Lemma list_remove_first_length x l :
  x ∈ l -> length (list_remove_first x l) + 1 = length l.
Proof.
  induction l as [|y l IH]; [by intros ?%elem_of_nil|].
  cbn [list_remove_first]. destruct (decide (y = x)) as [->|Hne].
  - intros _. cbn. lia.
  - intros [->|H]%elem_of_cons; [done|]. cbn. specialize (IH H). lia.
Qed.

Lemma list_remove_first_others x l :
  filter (fun y => y <> x) (list_remove_first x l) = filter (fun y => y <> x) l.
Proof.
  induction l as [|y l IH]; [done|].
  cbn [list_remove_first]. destruct (decide (y = x)) as [->|Hne].
  - rewrite filter_cons. by destruct (decide (x <> x)).
  - rewrite !filter_cons. destruct (decide (y <> x)); [|done]. by rewrite IH.
Qed.

Lemma list_remove_first_count x l :
  x ∈ l ->
  length (filter (fun y => y = x) (list_remove_first x l)) + 1
  = length (filter (fun y => y = x) l).
Proof.
  induction l as [|y l IH]; [by intros ?%elem_of_nil|].
  cbn [list_remove_first]. destruct (decide (y = x)) as [->|Hne].
  - intros _. rewrite filter_cons. destruct (decide (x = x)); [|done]. cbn. lia.
  - intros [->|H]%elem_of_cons; [done|].
    rewrite !filter_cons. destruct (decide (y = x)); [done|]. by apply IH.
Qed.

(** X2: the system of a built aerodynamics builder is promoted in the
    control-iteration group with the builder's outputs and inputs, except
    that for a builder of FLOPS origin that names the input
    [angle_of_attack], the first occurrence of that name is removed and the
    alias of [angle_of_attack] to [alpha] appended: the number of inputs is
    unchanged, the other inputs keep their order, and one occurrence fewer
    of the plain name remains.  For any other aerodynamics builder the
    inputs are promoted as the builder gives them. *)
Theorem angle_of_attack_aliased_for_flops rho o l1 b l2 s :
  UnsteadySolvedODE.core_subsystems o = l1 ++ b :: l2 ->
  isinstance b AerodynamicsBuilderBase = true ->
  let kw := kwargs_at (UnsteadySolvedODE.subsystem_options o)
              (UnsteadySolvedODE.initial_kwargs o) l1 b in
  build_mission b kw = Some s ->
  let mi := mission_inputs b kw in
  let aoa := PName "angle_of_attack" in
  exists a,
    a ∈ subsystems (UnsteadySolvedODE.setup rho o) /\
    sub_name a = name b /\ subsys a = Built s /\ scope a = ControlIterGroup /\
    promotes_outputs a = mission_outputs b kw /\
    if bool_decide (code_origin b = Some FLOPS) && bool_decide (aoa ∈ mi)
    then promotes_inputs a
         = list_remove_first aoa mi ++ [PAlias "angle_of_attack" "alpha"] /\
         length (promotes_inputs a) = length mi /\
         filter (fun p => p <> aoa) (promotes_inputs a)
         = filter (fun p => p <> aoa) mi ++ [PAlias "angle_of_attack" "alpha"] /\
         (length (filter (fun p => p = aoa) (promotes_inputs a)) + 1
          = length (filter (fun p => p = aoa) mi))%nat
    else promotes_inputs a = mi.
Proof.
  intros Hcs Hi kw Hb mi aoa.
  exists (U_entry (b, s, kw)).
  split.
  { destruct (U_setup_subsystems rho o) as (pre & post & -> & _).
    apply elem_of_app; right. apply elem_of_app; left.
    apply list_elem_of_fmap. exists (b, s, kw). split; [reflexivity|].
    rewrite Hcs. by apply built_list_at. }
  cbn [U_entry sub_name subsys scope promotes_outputs promotes_inputs].
  unfold route. rewrite Hi. do 4 (split; [reflexivity|]).
  unfold aero_promoted_inputs. fold mi. fold aoa.
  destruct (bool_decide (code_origin b = Some FLOPS)); cbn [andb]; [|reflexivity].
  destruct (bool_decide (aoa ∈ mi)) eqn:Hin; [|reflexivity].
  apply bool_decide_eq_true in Hin.
  split; [reflexivity|]. split; [|split].
  - rewrite length_app. cbn. by apply list_remove_first_length.
  - rewrite filter_app, list_remove_first_others. f_equal.
  - rewrite filter_app, length_app. cbn [filter].
    rewrite filter_cons, filter_nil.
    destruct (decide (PAlias "angle_of_attack" "alpha" = aoa)); [discriminate|].
    cbn [length]. rewrite Nat.add_0_r. by apply list_remove_first_count.
Qed.

(** A FLOPS aerodynamics builder that names the angle of attack twice
    keeps the second occurrence under its own name. *)
Lemma angle_of_attack_alias_witness :
  exists a,
    a ∈ subsystems (UnsteadySolvedODE.setup example_rho_sl
                      (with_ground_roll false
                         {| UnsteadySolvedODE.num_nodes := 3;
                            UnsteadySolvedODE.aviary_options := PyNone;
                            UnsteadySolvedODE.subsystem_options := ∅;
                            UnsteadySolvedODE.core_subsystems := [flops_aerodynamics];
                            UnsteadySolvedODE.ground_roll := false;
                            UnsteadySolvedODE.clean := false;
                            UnsteadySolvedODE.include_param_comp := false;
                            UnsteadySolvedODE.input_speed_type := TAS;
                            UnsteadySolvedODE.throttle_enforcement := None;
                            UnsteadySolvedODE.initial_throttle_lapse := 0;
                            UnsteadySolvedODE.final_throttle_lapse := 0 |})) /\
    promotes_inputs a
    = [PName "mach"; PName "altitude"; PName "angle_of_attack";
       PAlias "angle_of_attack" "alpha"].
Proof.
  destruct (angle_of_attack_aliased_for_flops example_rho_sl
              (with_ground_roll false
                 {| UnsteadySolvedODE.num_nodes := 3;
                    UnsteadySolvedODE.aviary_options := PyNone;
                    UnsteadySolvedODE.subsystem_options := ∅;
                    UnsteadySolvedODE.core_subsystems := [flops_aerodynamics];
                    UnsteadySolvedODE.ground_roll := false;
                    UnsteadySolvedODE.clean := false;
                    UnsteadySolvedODE.include_param_comp := false;
                    UnsteadySolvedODE.input_speed_type := TAS;
                    UnsteadySolvedODE.throttle_enforcement := None;
                    UnsteadySolvedODE.initial_throttle_lapse := 0;
                    UnsteadySolvedODE.final_throttle_lapse := 0 |})
              [] flops_aerodynamics [] (MkSystem "aero") eq_refl eq_refl eq_refl)
    as (a & Ha & _ & _ & _ & _ & H).
  exists a. split; [exact Ha|].
  exact (proj1 H).
Defined.


(** ** The calls of builder methods *)

Lemma loop_trace_methods so l : forall kw,
  callee <$> filter (fun c => method c = BuildMission) (loop_trace so kw l)
  = name <$> l /\
  callee <$> filter (fun c => method c = MissionInputs) (loop_trace so kw l)
  = (fun x => name x.1.1) <$> built_list so kw l /\
  callee <$> filter (fun c => method c = MissionOutputs) (loop_trace so kw l)
  = (fun x => name x.1.1) <$> built_list so kw l.
Proof.
  induction l as [|b l IH]; intros kw; [done|].
  cbn [loop_trace built_list]. destruct (IH (loop_kwargs so kw b)) as (I1 & I2 & I3).
  destruct (build_mission b (loop_kwargs so kw b));
    cbn [app]; rewrite !filter_cons; cbn [method];
    repeat (destruct (decide _); try discriminate; try congruence);
    rewrite ?fmap_cons; cbn [callee fst]; rewrite ?I1, ?I2, ?I3;
    repeat split; reflexivity.
Qed.

(** X3: both setups call [build_mission] once for every builder, in
    declaration order, and [mission_inputs] and [mission_outputs] once,
    with the same keyword arguments, for exactly the builders whose
    [build_mission] returned a system; no other call of a builder method
    is made. *)
Theorem builder_methods_called_in_order :
  (forall rho o,
     calls (UnsteadySolvedODE.setup rho o)
     = loop_trace (UnsteadySolvedODE.subsystem_options o)
         (UnsteadySolvedODE.initial_kwargs o)
         (UnsteadySolvedODE.core_subsystems o)) /\
  (forall o,
     calls (GroundrollODE.setup o)
     = loop_trace (GroundrollODE.subsystem_options o)
         (GroundrollODE.initial_kwargs o) (GroundrollODE.core_subsystems o)) /\
  (forall so kw l,
     let trace := loop_trace so kw l in
     let callees f := callee <$> filter (fun c => method c = f) trace in
     let built := (fun x : SubsystemBuilder * System * Kwargs => name x.1.1)
                  <$> built_list so kw l in
     callees BuildMission = name <$> l /\
     callees MissionInputs = built /\ callees MissionOutputs = built /\
     forall b s kw', (b, s, kw') ∈ built_list so kw l ->
       {| callee := name b; method := BuildMission; call_kwargs := kw' |} ∈ trace /\
       {| callee := name b; method := MissionInputs; call_kwargs := kw' |} ∈ trace /\
       {| callee := name b; method := MissionOutputs; call_kwargs := kw' |} ∈ trace).
Proof.
  split; [|split].
  - intros rho o. open_U_setup o.
    destruct (UnsteadySolvedODE.include_param_comp o),
      (UnsteadySolvedODE.ground_roll o);
      model_fields; rewrite Sc; subst pre; reflexivity.
  - intros o. open_G_setup o.
    destruct (GroundrollODE.opt_set_input_defaults o),
      (decide (GroundrollODE.analysis_scheme o = SHOOTING));
      model_fields; rewrite Sc; subst pre; reflexivity.
  - intros so kw l. cbn zeta.
    destruct (loop_trace_methods so l kw) as (H1 & H2 & H3).
    do 3 (split; [assumption|]).
    clear. revert kw. induction l as [|b l IH]; intros kw b' s kw'.
    + by intros ?%elem_of_nil.
    + cbn [built_list loop_trace].
      destruct (build_mission b (loop_kwargs so kw b)) as [s0|] eqn:E.
      * intros [[= -> -> ->]|H]%elem_of_cons.
        -- cbn [app]. rewrite !elem_of_cons. intuition eauto.
        -- destruct (IH _ _ _ _ H) as (A & B & C).
           cbn [app]. rewrite !elem_of_cons. intuition eauto.
      * intros H. destruct (IH _ _ _ _ H) as (A & B & C).
        cbn [app]. rewrite !elem_of_cons. intuition eauto.
Qed.

(** In a loop over the two core builders the propulsion builder, which
    returns a system, has its three calls in the trace. *)
Lemma builder_methods_witness :
  let kw := kwargs_at example_overrides ∅ [core_aerodynamics] core_propulsion in
  let trace := loop_trace example_overrides ∅ [core_aerodynamics; core_propulsion] in
  {| callee := "core_propulsion"; method := BuildMission; call_kwargs := kw |}
    ∈ trace /\
  {| callee := "core_propulsion"; method := MissionInputs; call_kwargs := kw |}
    ∈ trace /\
  {| callee := "core_propulsion"; method := MissionOutputs; call_kwargs := kw |}
    ∈ trace.
Proof.
  cbn zeta.
  destruct builder_methods_called_in_order as (_ & _ & H).
  destruct (H example_overrides ∅ [core_aerodynamics; core_propulsion])
    as (_ & _ & _ & Hin).
  apply (Hin core_propulsion (MkSystem "engines")).
  apply (built_list_at example_overrides ∅ [core_aerodynamics] core_propulsion []).
  reflexivity.
Defined.

(** ** The values of the keyword arguments *)

Lemma loop_kwargs_lookup so kw b k :
  loop_kwargs so kw b !! k
  = match so !! name b with
    | Some ov => match ov !! k with Some v => Some v | None => kw !! k end
    | None => kw !! k
    end.
Proof.
  unfold loop_kwargs, dict_update. destruct (so !! name b) as [ov|]; [|done].
  rewrite lookup_union. destruct (ov !! k), (kw !! k); reflexivity.
Qed.

Lemma foldl_loop_kwargs_untouched so k l : forall kw,
  (forall b ov, b ∈ l -> so !! name b = Some ov -> ov !! k = None) ->
  foldl (loop_kwargs so) kw l !! k = kw !! k.
Proof.
  induction l as [|b l IH]; intros kw H; [done|].
  cbn [foldl]. rewrite IH.
  - rewrite loop_kwargs_lookup. destruct (so !! name b) as [ov|] eqn:E; [|done].
    rewrite (H b ov); [done | apply elem_of_cons; by left | done].
  - intros b' ov Hb. apply H. apply elem_of_cons; by right.
Qed.

Lemma kwargs_at_untouched so k kw l b :
  (forall b' ov, b' ∈ l ++ [b] -> so !! name b' = Some ov -> ov !! k = None) ->
  kwargs_at so kw l b !! k = kw !! k.
Proof.
  intros H. unfold kwargs_at.
  change (loop_kwargs so (foldl (loop_kwargs so) kw l) b)
    with (foldl (loop_kwargs so) (foldl (loop_kwargs so) kw l) [b]).
  rewrite <- foldl_app. by apply foldl_loop_kwargs_untouched.
Qed.

Lemma kwargs_at_own so k v kw l b ov :
  so !! name b = Some ov -> ov !! k = Some v ->
  kwargs_at so kw l b !! k = Some v.
Proof.
  intros H1 H2. unfold kwargs_at. by rewrite loop_kwargs_lookup, H1, H2.
Qed.

Lemma kwargs_at_split so kw l1 s1 l2 s2 :
  kwargs_at so kw (l1 ++ s1 :: l2) s2
  = kwargs_at so (kwargs_at so kw l1 s1) l2 s2.
Proof. unfold kwargs_at. by rewrite foldl_app. Qed.

(** X4: the value a builder receives for a keyword is the one written by the
    last builder, up to and including itself, whose entry in
    [subsystem_options] has that keyword: a builder's own entry wins over
    everything before it, and the value an earlier builder's entry wrote is
    what every later builder is called with, in both setups, until an
    entry of a builder in between or of the later builder itself has the
    keyword again. *)
Theorem keyword_value_is_last_written l1 s1 l2 s2 l3 ov k v :
  ov !! k = Some v ->
  (forall so kw0,
     so !! name s1 = Some ov ->
     kwargs_at so kw0 l1 s1 !! k = Some v /\
     ((forall b ov', b ∈ l2 ++ [s2] -> so !! name b = Some ov' -> ov' !! k = None) ->
      kwargs_at so kw0 (l1 ++ s1 :: l2) s2 !! k = Some v)) /\
  (forall rho o,
     UnsteadySolvedODE.core_subsystems o = l1 ++ s1 :: l2 ++ s2 :: l3 ->
     UnsteadySolvedODE.subsystem_options o !! name s1 = Some ov ->
     (forall b ov', b ∈ l2 ++ [s2] ->
        UnsteadySolvedODE.subsystem_options o !! name b = Some ov' ->
        ov' !! k = None) ->
     exists kw, called (UnsteadySolvedODE.setup rho o) s2 BuildMission kw /\
                kw !! k = Some v) /\
  (forall o,
     GroundrollODE.core_subsystems o = l1 ++ s1 :: l2 ++ s2 :: l3 ->
     GroundrollODE.subsystem_options o !! name s1 = Some ov ->
     (forall b ov', b ∈ l2 ++ [s2] ->
        GroundrollODE.subsystem_options o !! name b = Some ov' ->
        ov' !! k = None) ->
     exists kw, called (GroundrollODE.setup o) s2 BuildMission kw /\
                kw !! k = Some v).
Proof.
  intros Hv.
  assert (Key : forall so kw0,
    so !! name s1 = Some ov ->
    (forall b ov', b ∈ l2 ++ [s2] -> so !! name b = Some ov' -> ov' !! k = None) ->
    kwargs_at so kw0 (l1 ++ s1 :: l2) s2 !! k = Some v).
  { intros so kw0 Hov Hno. rewrite kwargs_at_split, kwargs_at_untouched by done.
    by eapply kwargs_at_own. }
  split; [|split].
  - intros so kw0 Hov. split; [by eapply kwargs_at_own | by apply Key].
  - intros rho o Hcs Hov Hno.
    assert (Hcs' : UnsteadySolvedODE.core_subsystems o
                   = (l1 ++ s1 :: l2) ++ s2 :: l3)
      by (by rewrite Hcs, <- app_assoc).
    destruct (U_setup_builder rho o _ _ _ Hcs') as [C _].
    eexists. split; [exact C | by apply Key].
  - intros o Hcs Hov Hno.
    assert (Hcs' : GroundrollODE.core_subsystems o
                   = (l1 ++ s1 :: l2) ++ s2 :: l3)
      by (by rewrite Hcs, <- app_assoc).
    destruct (G_setup_builder o _ _ _ Hcs') as [C _].
    eexists. split; [exact C | by apply Key].
Qed.

(** With the subsystem options of the C-5 phases, which give the
    aerodynamics builder the method [computed], the propulsion builder of
    a clean flight phase is called with that method too, not with
    [cruise]. *)
Lemma keyword_value_witness :
  exists kw,
    called (UnsteadySolvedODE.setup example_rho_sl (c5_flight_phase true))
      core_propulsion BuildMission kw /\
    kw !! "method" = Some (PyStr "computed").
Proof.
  assert (Hv : ({[ "method" := PyStr "computed" ]} : Kwargs) !! "method"
               = Some (PyStr "computed")) by apply lookup_singleton_eq.
  destruct (keyword_value_is_last_written [] core_aerodynamics []
              core_propulsion [] _ _ _ Hv) as (_ & HU & _).
  apply (HU example_rho_sl (c5_flight_phase true) eq_refl).
  - apply lookup_singleton_eq.
  - intros b ov' Hb Hov'. cbn [app] in Hb.
    apply list_elem_of_singleton in Hb. subst b.
    cbn in Hov'. unfold c5_subsystem_options in Hov'.
    rewrite lookup_singleton_ne in Hov' by discriminate. discriminate.
Defined.

(** X5: a builder that comes after no entry of [subsystem_options] with the
    keyword [method], and has none itself, is called with method [cruise]
    in a clean phase of [UnsteadySolvedODE] and [low_speed] otherwise, and
    always with [low_speed] in [GroundrollODE]; the number of nodes and
    the aircraft inputs are passed along in the same way. *)
Theorem method_keyword_default l1 b l2 :
  (forall rho o,
     UnsteadySolvedODE.core_subsystems o = l1 ++ b :: l2 ->
     (forall b' ov, b' ∈ l1 ++ [b] ->
        UnsteadySolvedODE.subsystem_options o !! name b' = Some ov ->
        ov !! "method" = None) ->
     exists kw, called (UnsteadySolvedODE.setup rho o) b BuildMission kw /\
       kw !! "method"
       = Some (PyStr (if UnsteadySolvedODE.clean o then "cruise" else "low_speed"))) /\
  (forall o,
     GroundrollODE.core_subsystems o = l1 ++ b :: l2 ->
     (forall b' ov, b' ∈ l1 ++ [b] ->
        GroundrollODE.subsystem_options o !! name b' = Some ov ->
        ov !! "method" = None) ->
     exists kw, called (GroundrollODE.setup o) b BuildMission kw /\
       kw !! "method" = Some (PyStr "low_speed")).
Proof.
  split.
  - intros rho o Hcs Hno.
    destruct (U_setup_builder rho o _ _ _ Hcs) as [C _].
    eexists. split; [exact C|].
    rewrite kwargs_at_untouched by done.
    unfold UnsteadySolvedODE.initial_kwargs.
    destruct (UnsteadySolvedODE.clean o); by rewrite lookup_insert_eq.
  - intros o Hcs Hno.
    destruct (G_setup_builder o _ _ _ Hcs) as [C _].
    eexists. split; [exact C|].
    rewrite kwargs_at_untouched by done.
    unfold GroundrollODE.initial_kwargs. by rewrite lookup_insert_eq.
Qed.

(** Without subsystem options the propulsion builder of a clean example
    phase is called with the method [cruise]. *)
Lemma method_keyword_witness :
  exists kw,
    called (UnsteadySolvedODE.setup example_rho_sl
              (with_ground_roll false
                 {| UnsteadySolvedODE.num_nodes := 3;
                    UnsteadySolvedODE.aviary_options := PyNone;
                    UnsteadySolvedODE.subsystem_options := ∅;
                    UnsteadySolvedODE.core_subsystems :=
                      [core_aerodynamics; core_propulsion];
                    UnsteadySolvedODE.ground_roll := false;
                    UnsteadySolvedODE.clean := true;
                    UnsteadySolvedODE.include_param_comp := true;
                    UnsteadySolvedODE.input_speed_type := TAS;
                    UnsteadySolvedODE.throttle_enforcement := None;
                    UnsteadySolvedODE.initial_throttle_lapse := 0;
                    UnsteadySolvedODE.final_throttle_lapse := 0 |}))
      core_propulsion BuildMission kw /\
    kw !! "method" = Some (PyStr "cruise").
Proof.
  destruct (method_keyword_default [core_aerodynamics] core_propulsion [])
    as [HU _].
  apply (HU example_rho_sl
           (with_ground_roll false
              {| UnsteadySolvedODE.num_nodes := 3;
                 UnsteadySolvedODE.aviary_options := PyNone;
                 UnsteadySolvedODE.subsystem_options := ∅;
                 UnsteadySolvedODE.core_subsystems :=
                   [core_aerodynamics; core_propulsion];
                 UnsteadySolvedODE.ground_roll := false;
                 UnsteadySolvedODE.clean := true;
                 UnsteadySolvedODE.include_param_comp := true;
                 UnsteadySolvedODE.input_speed_type := TAS;
                 UnsteadySolvedODE.throttle_enforcement := None;
                 UnsteadySolvedODE.initial_throttle_lapse := 0;
                 UnsteadySolvedODE.final_throttle_lapse := 0 |}) eq_refl).
  intros b' ov _ Hov. cbn in Hov. rewrite lookup_empty in Hov. discriminate.
Defined.


(** ** Lengths of the declared arrays *)

Lemma length_np_ones nn : length (np_ones nn) = nn.
Proof. apply length_replicate. Qed.

Lemma length_np_zeros nn : length (np_zeros nn) = nn.
Proof. apply length_replicate. Qed.

Lemma length_np_scale c v : length (np_scale c v) = length v.
Proof. apply length_fmap. Qed.

Lemma length_np_linspace a b nn : length (np_linspace a b nn) = nn.
Proof. unfold np_linspace. by rewrite length_fmap, length_seq. Qed.

Lemma comp_arrays_U_entries bl :
  concat ((fun a => comp_arrays (subsys a)) <$> (U_entry <$> bl)) = [] /\
  concat ((fun a => comp_shapes (subsys a)) <$> (U_entry <$> bl)) = [].
Proof. induction bl as [|[[b s] kw] bl [IH1 IH2]]; [done|]. by cbn. Qed.

Lemma comp_arrays_G_entries bl :
  concat ((fun a => comp_arrays (subsys a)) <$> (G_entry <$> bl)) = [] /\
  concat ((fun a => comp_shapes (subsys a)) <$> (G_entry <$> bl)) = [].
Proof. induction bl as [|[[b s] kw] bl [IH1 IH2]]; [done|]. by cbn. Qed.

Ltac all_of_length :=
  repeat (apply Forall_cons; split);
  try apply Forall_nil;
  rewrite ?length_np_scale, ?length_np_ones, ?length_np_zeros,
    ?length_np_linspace;
  reflexivity.

(** X6: every array either setup declares has exactly [num_nodes] entries:
    the initial values of the balances, the vector defaults of the inputs,
    the vector values and the shapes of the variables of the [ExecComp]s,
    the prescribed throttle profile among them. *)
Theorem declared_arrays_have_num_nodes_entries :
  (forall rho o,
     let m := UnsteadySolvedODE.setup rho o in
     Forall (fun v => length v = UnsteadySolvedODE.num_nodes o) (model_arrays m) /\
     Forall (fun n => n = UnsteadySolvedODE.num_nodes o) (model_shapes m)) /\
  (forall o,
     let m := GroundrollODE.setup o in
     Forall (fun v => length v = GroundrollODE.num_nodes o) (model_arrays m) /\
     Forall (fun n => n = GroundrollODE.num_nodes o) (model_shapes m)).
Proof.
  split.
  - intros rho o. cbn zeta. unfold model_arrays, model_shapes, default_arrays.
    open_U_setup o.
    destruct (UnsteadySolvedODE.include_param_comp o),
      (UnsteadySolvedODE.ground_roll o);
      model_fields; rewrite Ss, Sd; subst pre; model_fields;
      rewrite !fmap_app, !concat_app;
      rewrite (proj1 (comp_arrays_U_entries _)), (proj2 (comp_arrays_U_entries _));
      (split; [cbn | cbn; all_of_length]);
      unfold UnsteadySolvedODE.throttle_balance_comp,
        UnsteadySolvedODE.thrust_alpha_bal, add_balance; cbn;
      all_of_length.
  - intros o. cbn zeta. unfold model_arrays, model_shapes, default_arrays.
    open_G_setup o.
    destruct (GroundrollODE.opt_set_input_defaults o),
      (decide (GroundrollODE.analysis_scheme o = SHOOTING));
      model_fields; rewrite Ss, Sd; subst pre; model_fields;
      rewrite !fmap_app, !concat_app;
      rewrite (proj1 (comp_arrays_G_entries _)), (proj2 (comp_arrays_G_entries _));
      (split; [cbn; all_of_length | cbn; all_of_length]).
Qed.

(** ** What the options of [UnsteadySolvedODE] switch *)

(** X7: [setup] sets input defaults for density, speed of sound, velocity,
    altitude and the two altitude derivatives in every phase, and for the
    flight path angle only when the phase is not a ground roll; the
    parameter port is added, and its defaults are set, exactly when
    [include_param_comp] is true. *)
Theorem ground_roll_and_param_switches rho o :
  let m := UnsteadySolvedODE.setup rho o in
  id_name <$> input_defaults m
  = [Dynamic.Mission.DENSITY; Dynamic.Mission.SPEED_OF_SOUND]
    ++ (if UnsteadySolvedODE.ground_roll o then []
        else [Dynamic.Mission.FLIGHT_PATH_ANGLE])
    ++ [Dynamic.Mission.VELOCITY; Dynamic.Mission.ALTITUDE; "dh_dr"; "d2h_dr2"] /\
  param_defaults_set m = UnsteadySolvedODE.include_param_comp o /\
  ((exists a, a ∈ subsystems m /\ subsys a = ParamPort) <->
   UnsteadySolvedODE.include_param_comp o = true).
Proof.
  cbn zeta. split; [|split].
  - open_U_setup o.
    destruct (UnsteadySolvedODE.include_param_comp o),
      (UnsteadySolvedODE.ground_roll o);
      model_fields; rewrite Sd; subst pre; reflexivity.
  - open_U_setup o.
    destruct (UnsteadySolvedODE.include_param_comp o),
      (UnsteadySolvedODE.ground_roll o);
      model_fields; rewrite ?Sp; subst pre; reflexivity.
  - open_U_setup o.
    destruct (UnsteadySolvedODE.include_param_comp o).
    + split; [reflexivity|]. intros _.
      exists {| scope := TopLevel; sub_name := "params"; subsys := ParamPort;
                promotes := [PName "*"]; promotes_inputs := [];
                promotes_outputs := [] |}.
      split; [|reflexivity].
      destruct (UnsteadySolvedODE.ground_roll o);
        model_fields; rewrite Ss; subst pre; model_fields;
        rewrite <- !app_assoc; cbn [app]; apply elem_of_cons; by left.
    + split; [|discriminate]. intros (a & Ha & Hp). exfalso.
      destruct (UnsteadySolvedODE.ground_roll o);
        revert Ha; model_fields; rewrite Ss; subst pre; model_fields;
        rewrite <- !app_assoc; cbn [app]; intros Ha;
        repeat (apply elem_of_cons in Ha as [->|Ha]; [discriminate Hp|]);
        apply elem_of_app in Ha as [Ha|Ha];
        [ apply list_elem_of_fmap in Ha as ([[? ?] ?] & -> & _); discriminate Hp
        | repeat (apply elem_of_cons in Ha as [->|Ha]; [discriminate Hp|]);
          by apply elem_of_nil in Ha
        | apply list_elem_of_fmap in Ha as ([[? ?] ?] & -> & _); discriminate Hp
        | repeat (apply elem_of_cons in Ha as [->|Ha]; [discriminate Hp|]);
          by apply elem_of_nil in Ha ].
Qed.


(** ** [GroundrollODE]: promotions, groups and options *)

(** X8: [GroundrollODE.setup] promotes the input [alpha] of a subsystem
    with source indices that are all zero, one per node, for exactly the
    builders whose class is [AerodynamicsBuilderBase] itself, in
    declaration order and whether or not the builder returned a system; a
    builder of a class derived from it gets no such promotion.
    [UnsteadySolvedODE.setup] makes no such promotion at all. *)
Theorem alpha_promoted_for_exact_class_only :
  (forall o,
     late_promotes (GroundrollODE.setup o)
     = G_promote (GroundrollODE.num_nodes o)
       <$> filter (fun b => type_is b AerodynamicsBuilderBase = true)
             (GroundrollODE.core_subsystems o)) /\
  (forall nn b,
     lp_name (G_promote nn b) = name b /\
     lp_inputs (G_promote nn b) = ["alpha"] /\
     length (lp_src_indices (G_promote nn b)) = nn /\
     Forall (fun i => i = 0%nat) (lp_src_indices (G_promote nn b))) /\
  (forall b c, head (mro b) = Some c -> c <> AerodynamicsBuilderBase ->
               type_is b AerodynamicsBuilderBase = false) /\
  (forall rho o, late_promotes (UnsteadySolvedODE.setup rho o) = []).
Proof.
  split; [|split; [|split]].
  - intros o. open_G_setup o.
    destruct (GroundrollODE.opt_set_input_defaults o),
      (decide (GroundrollODE.analysis_scheme o = SHOOTING));
      model_fields; rewrite Sl; subst pre; reflexivity.
  - intros nn b. cbn. split; [done|]. split; [done|].
    split; [apply length_replicate|].
    apply Forall_forall. by intros i [-> _]%elem_of_replicate.
  - intros b c Hc Hne. unfold type_is. apply bool_decide_eq_false.
    rewrite Hc. congruence.
  - intros rho o. open_U_setup o.
    destruct (UnsteadySolvedODE.include_param_comp o),
      (UnsteadySolvedODE.ground_roll o);
      model_fields; rewrite Sl; subst pre; reflexivity.
Qed.

(** In a ground roll with the core aerodynamics builder, of a derived
    class, and a builder of the base class that builds nothing, only the
    latter gets the promotion. *)
Lemma alpha_promoted_witness :
  type_is core_aerodynamics AerodynamicsBuilderBase = false /\
  late_promotes
    (GroundrollODE.setup
       {| GroundrollODE.num_nodes := 2;
          GroundrollODE.analysis_scheme := COLLOCATION;
          GroundrollODE.aviary_options := PyNone;
          GroundrollODE.core_subsystems := [core_aerodynamics; bare_aerodynamics];
          GroundrollODE.subsystem_options := ∅;
          GroundrollODE.opt_set_input_defaults := false |})
  = [{| lp_name := "bare_aero"; lp_inputs := ["alpha"];
        lp_src_indices := [0; 0]%nat |}].
Proof.
  destruct alpha_promoted_for_exact_class_only as (H1 & _ & H3 & _).
  split.
  - apply (H3 core_aerodynamics (UserClass "CoreAerodynamicsBuilder"));
      [reflexivity | discriminate].
  - rewrite H1. reflexivity.
Defined.

Lemma G_entries_top_level bl :
  Forall (fun a => scope a = TopLevel) (G_entry <$> bl).
Proof.
  apply Forall_fmap, Forall_forall. by intros [[b s] kw] _.
Qed.

(** X9: [GroundrollODE.setup] builds one flat group: every subsystem it
    adds, built or not, is at top level, and it attaches no nonlinear and
    no linear solver.  It requests the distance as an input of the
    shooting scheme exactly when the analysis scheme is [SHOOTING];
    [UnsteadySolvedODE.setup] never does. *)
Theorem groundroll_is_one_flat_group :
  (forall o,
     let m := GroundrollODE.setup o in
     Forall (fun a => scope a = TopLevel) (subsystems m) /\
     (forall sc, nonlinear_solver m sc = None /\ linear_solver m sc = None) /\
     sgm_inputs m
     = if decide (GroundrollODE.analysis_scheme o = SHOOTING)
       then [(Dynamic.Mission.DISTANCE, "ft")] else []) /\
  (forall rho o, sgm_inputs (UnsteadySolvedODE.setup rho o) = []).
Proof.
  split.
  - intros o. cbn zeta. split; [|split].
    + open_G_setup o.
      destruct (GroundrollODE.opt_set_input_defaults o),
        (decide (GroundrollODE.analysis_scheme o = SHOOTING));
        model_fields; rewrite Ss; subst pre; model_fields;
        rewrite !Forall_app; repeat split;
        try apply G_entries_top_level;
        repeat (apply Forall_cons; split); try apply Forall_nil; reflexivity.
    + intros sc. open_G_setup o.
      destruct (GroundrollODE.opt_set_input_defaults o),
        (decide (GroundrollODE.analysis_scheme o = SHOOTING));
        model_fields; rewrite Sli, Sn; subst pre; split; reflexivity.
    + open_G_setup o.
      destruct (GroundrollODE.opt_set_input_defaults o),
        (decide (GroundrollODE.analysis_scheme o = SHOOTING));
        model_fields; rewrite Sg; subst pre; reflexivity.
  - intros rho o. open_U_setup o.
    destruct (UnsteadySolvedODE.include_param_comp o),
      (UnsteadySolvedODE.ground_roll o);
      model_fields; rewrite Sg; subst pre; reflexivity.
Qed.


(** ** The [ExecComp]s *)

Lemma env_of_cons_eq {F} x (v : NDArrOf F) l : env_of ((x, v) :: l) x = Some v.
Proof.
  unfold env_of. cbn [list_find fst]. by rewrite decide_True.
Qed.

Lemma env_of_cons_ne {F} x y (v : NDArrOf F) l :
  x <> y -> env_of ((y, v) :: l) x = env_of l x.
Proof.
  intros H. unfold env_of. cbn [list_find fst].
  rewrite decide_False by congruence.
  destruct (list_find _ l) as [[i p]|]; reflexivity.
Qed.

(** X10: the component [compute_phase_time] takes the promoted input [time]
    and gives, for a time vector with one entry per node, the vector of
    the differences to its first entry: as long as the time vector, zero
    at the first node.  With no node at all the evaluation fails, for
    [time[0]] does not exist. *)
Theorem phase_time_is_time_since_first_node rho o :
  exists a,
    a ∈ subsystems (UnsteadySolvedODE.setup rho o) /\
    sub_name a = "compute_phase_time" /\ scope a = TopLevel /\
    promotes_inputs a = [PName "time"] /\
    promotes_outputs a = [PName "phase_time"] /\
    (forall t0 rest,
       length (t0 :: rest) = UnsteadySolvedODE.num_nodes o ->
       exec_compute (subsys a) (env_of [("time", Vec (t0 :: rest))])
       = Some ((t0 - t0)%Q :: ((fun t => t - t0)%Q <$> rest)) /\
       (t0 - t0 == 0)%Q) /\
    (UnsteadySolvedODE.num_nodes o = 0%nat ->
     exec_compute (subsys a) (env_of [("time", Vec [])]) = None).
Proof.
  eexists. split.
  { open_U_setup o.
    destruct (UnsteadySolvedODE.include_param_comp o),
      (UnsteadySolvedODE.ground_roll o);
      model_fields; rewrite Ss; subst pre; model_fields;
      do 6 (apply elem_of_app; left); apply elem_of_app; right;
      apply list_elem_of_singleton; reflexivity. }
  do 4 (split; [reflexivity|]).
  cbn [subsys]. split.
  - intros t0 rest Hlen. split; [|ring].
    unfold exec_compute.
    match goal with
    | |- context [out_length ?n ?m] =>
        assert (out_length n m = UnsteadySolvedODE.num_nodes o) as ->
          by (vm_compute; reflexivity)
    end.
    cbn [eval_expr]. rewrite env_of_cons_eq.
    cbn [mbind option_bind nd_index lookup list_lookup fmap option_fmap
         option_map nd_binop nd_assign list_fmap].
    rewrite decide_True; [reflexivity|].
    cbn [length] in *. by rewrite length_fmap.
  - intros Hnn. unfold exec_compute. cbn [eval_expr].
    rewrite env_of_cons_eq. reflexivity.
Qed.

(** A phase of three nodes that starts at time 40. *)
Lemma phase_time_witness :
  exists a,
    a ∈ subsystems (UnsteadySolvedODE.setup example_rho_sl (example_phase None)) /\
    exec_compute (subsys a) (env_of [("time", Vec [40; 50; 75]%Q)])
    = Some [40 - 40; 50 - 40; 75 - 40]%Q.
Proof.
  destruct (phase_time_is_time_since_first_node example_rho_sl (example_phase None))
    as (a & Ha & _ & _ & _ & _ & H & _).
  exists a. split; [exact Ha|].
  exact (proj1 (H 40%Q [50; 75]%Q eq_refl)).
Defined.

Lemma np_linspace_head a b nn :
  (0 < nn)%nat -> exists p, head (np_linspace a b nn) = Some p /\ (p == a)%Q.
Proof.
  intros H. destruct nn as [|n]; [lia|].
  unfold np_linspace. cbn [seq fmap list_fmap head].
  eexists. split; [reflexivity|]. cbn [Z.of_nat inject_Z]. ring.
Qed.

Lemma np_linspace_last a b nn :
  (1 < nn)%nat -> exists p, last (np_linspace a b nn) = Some p /\ (p == b)%Q.
Proof.
  intros H. destruct nn as [|n]; [lia|].
  unfold np_linspace. rewrite seq_S, fmap_app, last_app. cbn [fmap list_fmap last].
  eexists. split; [reflexivity|].
  replace (S n - 1)%nat with n by lia. cbn [plus].
  assert (Hn : ~ (inject_Z (Z.of_nat n) == 0)%Q).
  { intros E. unfold Qeq in E. cbn in E. lia. }
  field. exact Hn.
Qed.

(** X11: the component [compute_throttle_residual] takes the throttle, under
    the promoted name of the solved throttle, and subtracts node by node
    the prescribed profile it declares; the profile has one entry per
    node, starts at [initial_throttle_lapse] and, with two nodes or more,
    ends at [final_throttle_lapse]. *)
Theorem throttle_residual_against_prescribed_profile rho o :
  let nn := UnsteadySolvedODE.num_nodes o in
  let profile := np_linspace (UnsteadySolvedODE.initial_throttle_lapse o)
                   (UnsteadySolvedODE.final_throttle_lapse o) nn in
  exists a,
    a ∈ subsystems (UnsteadySolvedODE.setup rho o) /\
    sub_name a = "compute_throttle_residual" /\
    promotes_inputs a = [PAlias "computed_throttle" Dynamic.Mission.THROTTLE] /\
    promotes_outputs a = [PName "throttle_residual"] /\
    comp_arrays (subsys a) = [profile] /\
    length profile = nn /\
    ((0 < nn)%nat -> exists p, head profile = Some p /\
                               (p == UnsteadySolvedODE.initial_throttle_lapse o)%Q) /\
    ((1 < nn)%nat -> exists p, last profile = Some p /\
                               (p == UnsteadySolvedODE.final_throttle_lapse o)%Q) /\
    (forall throttle, length throttle = nn ->
       exec_compute (subsys a)
         (env_of [("computed_throttle", Vec throttle);
                  ("prescribed_throttle", Vec profile)])
       = Some (zip_with Qminus throttle profile)).
Proof.
  cbn zeta. eexists. split.
  { open_U_setup o.
    destruct (UnsteadySolvedODE.include_param_comp o),
      (UnsteadySolvedODE.ground_roll o);
      model_fields; rewrite Ss; subst pre; model_fields;
      do 5 (apply elem_of_app; left); apply elem_of_app; right;
      apply list_elem_of_singleton; reflexivity. }
  do 4 (split; [reflexivity|]).
  split; [apply length_np_linspace|].
  split; [apply np_linspace_head|].
  split; [apply np_linspace_last|].
  intros throttle Hlen. cbn [subsys]. unfold exec_compute.
  match goal with
  | |- context [out_length ?n ?m] =>
      assert (out_length n m = UnsteadySolvedODE.num_nodes o) as ->
        by (vm_compute; reflexivity)
  end.
  cbn [eval_expr].
  rewrite env_of_cons_eq, env_of_cons_ne, env_of_cons_eq by discriminate.
  cbn [mbind option_bind nd_binop].
  rewrite length_np_linspace, decide_True by done.
  cbn [mbind option_bind nd_assign].
  rewrite decide_True; [reflexivity|].
  rewrite length_zip_with, length_np_linspace. lia.
Qed.

(** With lapse from one half to one over three nodes the profile ends at
    one. *)
Lemma throttle_residual_witness :
  exists p, last (np_linspace (1 # 2) 1 3) = Some p /\ (p == 1)%Q.
Proof.
  destruct (throttle_residual_against_prescribed_profile example_rho_sl
              {| UnsteadySolvedODE.num_nodes := 3;
                 UnsteadySolvedODE.aviary_options := PyNone;
                 UnsteadySolvedODE.subsystem_options := ∅;
                 UnsteadySolvedODE.core_subsystems := [];
                 UnsteadySolvedODE.ground_roll := false;
                 UnsteadySolvedODE.clean := false;
                 UnsteadySolvedODE.include_param_comp := true;
                 UnsteadySolvedODE.input_speed_type := TAS;
                 UnsteadySolvedODE.throttle_enforcement := None;
                 UnsteadySolvedODE.initial_throttle_lapse := 1 # 2;
                 UnsteadySolvedODE.final_throttle_lapse := 1 |})
    as (a & _ & _ & _ & _ & _ & _ & _ & H & _).
  apply H. cbn. lia.
Defined.


(** X12: in the ground roll the three rate components compose, in
    whatever arithmetic they are evaluated: [exec] gives velocity over
    velocity rate, [exec2] gives the reciprocal of the velocity rate at
    every node, and [exec3], fed the promoted fuel flow rate and the
    output of [exec2], gives at every node the mass rate times that
    reciprocal.  In binary64 this product need not be the rounded
    quotient of the two, and the reciprocal of zero is infinite. *)
Theorem groundroll_rates_compose o :
  let nn := GroundrollODE.num_nodes o in
  exists a1 a2 a3,
    a1 ∈ subsystems (GroundrollODE.setup o) /\ sub_name a1 = "exec" /\
    a2 ∈ subsystems (GroundrollODE.setup o) /\ sub_name a2 = "exec2" /\
    a3 ∈ subsystems (GroundrollODE.setup o) /\ sub_name a3 = "exec3" /\
    promotes_inputs a3
    = [PAlias "mass_rate" Dynamic.Mission.FUEL_FLOW_RATE_NEGATIVE_TOTAL;
       PName "dt_dv"] /\
    forall (F : Type) (A : Arith F) (velocity velocity_rate mass_rate : list F),
      length velocity = nn -> length velocity_rate = nn ->
      length mass_rate = nn ->
      let dt_dv := (fun r => f_div (f_lit 1) r) <$> velocity_rate in
      exec_compute (subsys a1)
        (env_of [("velocity", Vec velocity); ("velocity_rate", Vec velocity_rate)])
      = Some (zip_with f_div velocity velocity_rate) /\
      exec_compute (subsys a2) (env_of [("velocity_rate", Vec velocity_rate)])
      = Some dt_dv /\
      exec_compute (subsys a3)
        (env_of [("mass_rate", Vec mass_rate); ("dt_dv", Vec dt_dv)])
      = Some (zip_with (fun m r => f_mul m (f_div (f_lit 1) r))
                mass_rate velocity_rate).
Proof.
  cbn zeta. eexists _, _, _.
  split.
  { open_G_setup o.
    destruct (GroundrollODE.opt_set_input_defaults o),
      (decide (GroundrollODE.analysis_scheme o = SHOOTING));
      model_fields; rewrite Ss; subst pre; model_fields;
      do 2 (apply elem_of_app; left); apply elem_of_app; right;
      apply list_elem_of_singleton; reflexivity. }
  split; [reflexivity|]. split.
  { open_G_setup o.
    destruct (GroundrollODE.opt_set_input_defaults o),
      (decide (GroundrollODE.analysis_scheme o = SHOOTING));
      model_fields; rewrite Ss; subst pre; model_fields;
      do 1 (apply elem_of_app; left); apply elem_of_app; right;
      apply list_elem_of_singleton; reflexivity. }
  split; [reflexivity|]. split.
  { open_G_setup o.
    destruct (GroundrollODE.opt_set_input_defaults o),
      (decide (GroundrollODE.analysis_scheme o = SHOOTING));
      model_fields; rewrite Ss; subst pre; model_fields;
      apply elem_of_app; right;
      apply list_elem_of_singleton; reflexivity. }
  split; [reflexivity|]. split; [reflexivity|].
  intros F A velocity velocity_rate mass_rate Hv Hr Hm.
  cbn [subsys]. unfold exec_compute.
  repeat match goal with
    | |- context [out_length ?n ?m] =>
        assert (out_length n m = GroundrollODE.num_nodes o) as ->
          by (unfold out_length; cbn [list_find]; unfold GroundrollODE.ones_meta;
              cbn [vm_name var_meta]; repeat case_decide;
              try discriminate; try congruence;
              cbn; by rewrite length_np_ones)
    end.
  cbn [eval_expr].
  split; [|split].
  - rewrite env_of_cons_eq, env_of_cons_ne, env_of_cons_eq by discriminate.
    cbn [mbind option_bind nd_binop]. rewrite decide_True by congruence.
    cbn [mbind option_bind nd_assign].
    rewrite decide_True; [reflexivity|]. rewrite length_zip_with. lia.
  - rewrite env_of_cons_eq. cbn [mbind option_bind nd_binop nd_assign].
    rewrite decide_True; [reflexivity|]. by rewrite length_fmap.
  - rewrite env_of_cons_eq, env_of_cons_ne, env_of_cons_eq by discriminate.
    cbn [mbind option_bind nd_binop]. rewrite length_fmap.
    rewrite decide_True by congruence. cbn [mbind option_bind nd_assign].
    rewrite decide_True by (rewrite length_zip_with, length_fmap; lia).
    by rewrite zip_with_fmap_r.
Qed.

(** Three nodes in binary64, with the velocity rates 49, 2 and 0 and the
    mass rates 49, 3 and 1: the first entry is the float just below one,
    not the quotient of 49 by 49, and the last is infinite. *)
Lemma groundroll_rates_witness :
  exists a3,
    a3 ∈ subsystems (GroundrollODE.setup example_groundroll) /\
    sub_name a3 = "exec3" /\
    exec_compute (A := binary64) (subsys a3)
      (env_of [("mass_rate", Vec (float_of_Q <$> [49; 3; 1]%Q));
               ("dt_dv",
                Vec ((fun r => PrimFloat.div (float_of_Q 1) r)
                     <$> (float_of_Q <$> [49; 2; 0]%Q)))])
    = Some [PrimFloat.next_down PrimFloat.one; float_of_Q (3 # 2);
            PrimFloat.infinity] /\
    PrimFloat.next_down PrimFloat.one
    <> PrimFloat.div (float_of_Q 49) (float_of_Q 49).
Proof.
  destruct (groundroll_rates_compose example_groundroll)
    as (a1 & a2 & a3 & _ & _ & _ & _ & H3 & N3 & _ & H).
  exists a3. split; [exact H3|]. split; [exact N3|].
  destruct (H PrimFloat.float binary64 (float_of_Q <$> [98; 1; 1]%Q)
              (float_of_Q <$> [49; 2; 0]%Q) (float_of_Q <$> [49; 3; 1]%Q))
    as (_ & _ & E); [reflexivity..|].
  split; [exact E|]. vm_compute. discriminate.
Defined.


(** * Further properties of the propeller map *)

Lemma last_column_nil key : last_column key [] = None.
Proof. reflexivity. Qed.

Lemma last_column_cons key c cols :
  last_column key (c :: cols)
  = match last_column key cols with
    | Some x => Some x
    | None => if decide (c.1 = key) then Some c.2 else None
    end.
Proof.
  unfold last_column. rewrite filter_cons.
  destruct (decide (c.1 = key)) as [E|E].
  - destruct (filter _ cols) as [|c' l] eqn:F; [done|].
    change (last (c :: c' :: l)) with (last (c' :: l)).
    destruct (last (c' :: l)) eqn:L; [done|].
    by apply last_None in L.
  - by destruct (last _).
Qed.

Lemma last_column_None key cols :
  last_column key cols = None <-> key ∉ cols.*1.
Proof.
  induction cols as [|c cols IH]; [split; [intros _; apply not_elem_of_nil|done]|].
  rewrite last_column_cons, fmap_cons, not_elem_of_cons.
  destruct (last_column key cols) as [x|].
  - split; [done|]. intros [_ H]. by apply IH in H.
  - destruct (decide (c.1 = key)) as [E|E].
    + split; [done|]. intros [H _]. congruence.
    + split; [|done]. intros _. split; [congruence | by apply IH].
Qed.

Lemma last_column_elem key cols c :
  last_column key cols = Some c -> (key, c) ∈ cols.
Proof.
  induction cols as [|[k x] cols IH]; [done|].
  rewrite last_column_cons. cbn [fst snd].
  destruct (last_column key cols) as [y|].
  - intros [= ->]. apply elem_of_cons; right. by apply IH.
  - destruct (decide (k = key)) as [->|]; [|done].
    intros [= ->]. apply elem_of_cons; by left.
Qed.

Section LoadFacts.
Variable convert_units : Q -> string -> string -> option Q.
Variable default_prop_units : PropellerMap.PropModelVariables -> string.
Variable get_val : string -> PropellerMap.PyExc + Z.

Let read_column := PropellerMap.read_column convert_units default_prop_units get_val.
Let read_loop := PropellerMap.read_loop convert_units default_prop_units get_val.

(** The state a loop without exception ends in. *)
Lemma read_loop_state message cols : forall w st w' st',
  read_loop message w st cols = (w', inr st') ->
  PropellerMap.data st' = PropellerMap.data st /\
  (forall v, PropellerMap.propeller_variables st' !! v
             = if bool_decide (inl v ∈ cols.*1) then Some (default_prop_units v)
               else PropellerMap.propeller_variables st !! v) /\
  (forall v, PropellerMap._original_data st' !! inl v
             = match last_column (inl v) cols with
               | Some c => converted convert_units default_prop_units v c
               | None => PropellerMap._original_data st !! inl v
               end) /\
  (forall h, PropellerMap._original_data st' !! inr h
             = match last_column (inr h) cols with
               | Some c => Some c.1
               | None => PropellerMap._original_data st !! inr h
               end).
Proof.
  induction cols as [|[[v0|h0] [val units]] cols IH]; intros w st w' st'.
  - intros [= <- <-]. repeat split; intros; by rewrite ?bool_decide_eq_false_2
      by apply not_elem_of_nil.
  - unfold read_loop. rewrite read_loop_cons, read_column_recognized.
    destruct (mapM _ val) as [val'|] eqn:Hm; [|discriminate].
    intros H. apply IH in H as (H1 & H2 & H3 & H4).
    cbn [PropellerMap.data PropellerMap.propeller_variables
         PropellerMap._original_data] in *.
    split; [exact H1|]. split; [|split].
    + intros v. rewrite H2, fmap_cons. cbn [fst].
      destruct (decide (v = v0)) as [->|Hne].
      * rewrite lookup_insert_eq.
        rewrite (bool_decide_eq_true_2 (inl v0 ∈ inl v0 :: _))
          by (apply elem_of_cons; by left).
        by destruct (bool_decide _).
      * rewrite lookup_insert_ne by congruence.
        destruct (bool_decide (inl v ∈ cols.*1)) eqn:B.
        -- apply bool_decide_eq_true in B.
           by rewrite bool_decide_eq_true_2 by (apply elem_of_cons; by right).
        -- apply bool_decide_eq_false in B.
           rewrite bool_decide_eq_false_2; [done|].
           rewrite not_elem_of_cons. split; [congruence | done].
    + intros v. rewrite H3, last_column_cons. cbn [fst snd].
      destruct (last_column (inl v) cols); [done|].
      destruct (decide (inl v0 = inl v)) as [[= ->]|Hne].
      * by rewrite lookup_insert_eq.
      * by rewrite lookup_insert_ne.
    + intros h. rewrite H4, last_column_cons. cbn [fst snd].
      destruct (last_column (inr h) cols); [done|].
      destruct (decide (inl v0 = inr h)); [done|].
      by rewrite lookup_insert_ne.
  - unfold read_loop. rewrite read_loop_cons, read_column_unrecognized.
    destruct (get_val Settings.VERBOSITY) as [e|verbosity]; [discriminate|].
    intros H. apply IH in H as (H1 & H2 & H3 & H4).
    cbn [PropellerMap.data PropellerMap.propeller_variables
         PropellerMap._original_data] in *.
    split; [exact H1|]. split; [|split].
    + intros v. rewrite H2, fmap_cons. cbn [fst].
      destruct (bool_decide (inl v ∈ cols.*1)) eqn:B.
      * apply bool_decide_eq_true in B.
        by rewrite bool_decide_eq_true_2 by (apply elem_of_cons; by right).
      * apply bool_decide_eq_false in B.
        rewrite bool_decide_eq_false_2; [done|].
        rewrite not_elem_of_cons. split; [discriminate | done].
    + intros v. rewrite H3, last_column_cons. cbn [fst snd].
      destruct (last_column (inl v) cols); [done|].
      destruct (decide (inr h0 = inl v)); [done|].
      by rewrite lookup_insert_ne.
    + intros h. rewrite H4, last_column_cons. cbn [fst snd].
      destruct (last_column (inr h) cols); [done|].
      destruct (decide (inr h0 = inr h)) as [[= ->]|Hne].
      * by rewrite lookup_insert_eq.
      * by rewrite lookup_insert_ne.
Qed.

(** A loop that ends without exception has converted every recognized
    column. *)
Lemma read_loop_converts message cols : forall w st w' st',
  read_loop message w st cols = (w', inr st') ->
  ~ Exists (inconvertible convert_units default_prop_units) cols.
Proof.
  induction cols as [|[[v0|h0] [val units]] cols IH]; intros w st w' st'.
  - intros _ H. by apply Exists_nil in H.
  - unfold read_loop. rewrite read_loop_cons, read_column_recognized.
    destruct (mapM _ val) as [val'|] eqn:Hm; [|discriminate].
    intros H [(v & Hv & Hc)|H']%Exists_cons.
    + cbn [fst] in Hv. rewrite in_aliases_inl in Hv. injection Hv as <-.
      unfold converted in Hc. cbn [fst snd] in Hc. congruence.
    + by apply (IH _ _ _ _ H).
  - unfold read_loop. rewrite read_loop_cons, read_column_unrecognized.
    destruct (get_val Settings.VERBOSITY) as [e|verbosity]; [discriminate|].
    intros H [(v & Hv & _)|H']%Exists_cons; [discriminate Hv|].
    by apply (IH _ _ _ _ H).
Qed.
End LoadFacts.

(** The loop as [__init__] runs it, with the [get_val] of [om.System]. *)
Section RealLoad.
Variable convert_units : Q -> string -> string -> option Q.
Variable default_prop_units : PropellerMap.PropModelVariables -> string.

Let real_loop :=
  PropellerMap.read_loop convert_units default_prop_units
    PropellerMap.System_get_val.

Lemma real_loop_no_warning message cols : forall w st,
  (real_loop message w st cols).1 = w.
Proof.
  induction cols as [|[[v0|h0] [val units]] cols IH]; intros w st; [done| |done].
  unfold real_loop. rewrite read_loop_cons, read_column_recognized.
  destruct (mapM _ val); [apply IH | done].
Qed.

Lemma not_aborting_cons c cols :
  ~ Exists (aborting convert_units default_prop_units) (c :: cols) ->
  exists v val units val',
    c = (inl v, (val, units)) /\
    mapM (fun i => convert_units i units (default_prop_units v)) val = Some val' /\
    ~ Exists (aborting convert_units default_prop_units) cols.
Proof.
  intros H. destruct c as [[v|h] [val units]].
  - destruct (mapM (fun i => convert_units i units (default_prop_units v)) val)
      as [val'|] eqn:Hm.
    + exists v, val, units, val'. repeat split; [done|].
      intros H'. apply H. by apply Exists_cons; right.
    + exfalso. apply H. apply Exists_cons; left. right.
      exists v. split; [apply in_aliases_inl | exact Hm].
  - exfalso. apply H. apply Exists_cons; left. by left.
Qed.

(** The loop stops at the first column that is unrecognized or does not
    convert, with the exception of that column. *)
Lemma real_loop_stops message pre c post : forall w st,
  ~ Exists (aborting convert_units default_prop_units) pre ->
  aborting convert_units default_prop_units c ->
  real_loop message w st (pre ++ c :: post)
  = (w, inl (abort_exception default_prop_units message c)).
Proof.
  induction pre as [|p pre IH]; intros w st Hpre Hc.
  - cbn [app]. unfold real_loop. rewrite read_loop_cons.
    destruct c as [[v|h] [val units]].
    + rewrite read_column_recognized.
      destruct Hc as [Hc|(v' & Hv & Hc)];
        [cbn [fst] in Hc; by rewrite in_aliases_inl in Hc|].
      cbn [fst] in Hv. rewrite in_aliases_inl in Hv. injection Hv as <-.
      unfold converted in Hc. cbn [fst snd] in Hc. rewrite Hc.
      unfold abort_exception. cbn [fst snd]. by rewrite in_aliases_inl.
    + reflexivity.
  - apply not_aborting_cons in Hpre
      as (v & val & units & val' & -> & Hm & Hpre).
    cbn [app]. unfold real_loop.
    rewrite read_loop_cons, read_column_recognized, Hm.
    by apply IH.
Qed.

Lemma real_loop_succeeds message cols : forall w st,
  ~ Exists (aborting convert_units default_prop_units) cols ->
  exists st', real_loop message w st cols = (w, inr st').
Proof.
  induction cols as [|c cols IH]; intros w st H; [by eexists|].
  apply not_aborting_cons in H as (v & val & units & val' & -> & Hm & H).
  unfold real_loop. rewrite read_loop_cons, read_column_recognized, Hm.
  by apply IH.
Qed.

Lemma real_loop_fails message cols : forall w st w' e,
  real_loop message w st cols = (w', inl e) ->
  Exists (aborting convert_units default_prop_units) cols /\
  exists msg, e = PropellerMap.TypeError msg.
Proof.
  induction cols as [|[[v0|h0] [val units]] cols IH]; intros w st w' e.
  - discriminate.
  - unfold real_loop. rewrite read_loop_cons, read_column_recognized.
    destruct (mapM _ val) as [val'|] eqn:Hm.
    + intros H. apply IH in H as [H1 H2]. split; [|exact H2].
      by apply Exists_cons; right.
    + intros [= <- <-]. split; [|by eexists].
      apply Exists_cons; left. right.
      exists v0. split; [apply in_aliases_inl | exact Hm].
  - intros [= <- <-]. split; [|by eexists].
    apply Exists_cons; left. by left.
Qed.

Lemma real_loop_good message cols : forall w st w' st',
  real_loop message w st cols = (w', inr st') ->
  ~ Exists (aborting convert_units default_prop_units) cols.
Proof.
  induction cols as [|[[v0|h0] [val units]] cols IH]; intros w st w' st'.
  - intros _ H. by apply Exists_nil in H.
  - unfold real_loop. rewrite read_loop_cons, read_column_recognized.
    destruct (mapM _ val) as [val'|] eqn:Hm; [|discriminate].
    intros H [[Hc|(v & Hv & Hc)]|H']%Exists_cons.
    + cbn [fst] in Hc. by rewrite in_aliases_inl in Hc.
    + cbn [fst] in Hv. rewrite in_aliases_inl in Hv. injection Hv as <-.
      unfold converted in Hc. cbn [fst snd] in Hc. congruence.
    + by apply (IH _ _ _ _ H).
  - discriminate.
Qed.
End RealLoad.

Lemma init_data_lookup v :
  PropellerMap.data PropellerMap.init_state !! v = Some [].
Proof. destruct v; vm_compute; reflexivity. Qed.

Lemma init_original_lookup_inl v :
  PropellerMap._original_data PropellerMap.init_state !! inl v = Some [].
Proof. destruct v; vm_compute; reflexivity. Qed.

Lemma init_original_lookup_inr h :
  PropellerMap._original_data PropellerMap.init_state !! inr h = None.
Proof.
  unfold PropellerMap.init_state. cbn [PropellerMap._original_data].
  cbn [PropellerMap.all_variables fmap list_fmap list_to_map foldr uncurry
       fst snd curry].
  by rewrite !lookup_insert_ne, lookup_empty by discriminate.
Qed.

(** What a successful load leaves, in terms of the columns read. *)
Lemma loaded_state_facts convert_units default_prop_units get_val file
    data_file w st :
  PropellerMap.load convert_units default_prop_units get_val file data_file
  = (w, inr st) ->
  let raw := PropellerMap.read_columns (file data_file) in
  ~ Exists (inconvertible convert_units default_prop_units) raw /\
  (forall v, PropellerMap.propeller_variables st !! v
             = if bool_decide (inl v ∈ raw.*1) then Some (default_prop_units v)
               else None) /\
  PropellerMap.propeller_variables st <> ∅ /\
  (forall v, PropellerMap.data st !! v
             = match last_column (inl v) raw with
               | Some c => converted convert_units default_prop_units v c
               | None => Some []
               end) /\
  (forall v, PropellerMap._original_data st !! inl v = PropellerMap.data st !! v) /\
  (forall h, PropellerMap._original_data st !! inr h
             = fst <$> last_column (inr h) raw).
Proof.
  unfold PropellerMap.load, PropellerMap._read_data, PropellerMap.read_data_file.
  set (message := ("<" ++ data_file ++ ">")%string).
  set (raw := PropellerMap.read_columns (file data_file)).
  destruct (PropellerMap.read_loop _ _ _ message [] _ raw) as [w' [e|st']] eqn:E;
    [discriminate|].
  pose proof (read_loop_converts _ _ _ _ _ _ _ _ _ E) as Good.
  apply read_loop_state in E as (H1 & H2 & H3 & H4).
  destruct (bool_decide _) eqn:B; [discriminate|].
  apply bool_decide_eq_false in B.
  intros [= <- <-]. cbn zeta.
  cbn [PropellerMap.propeller_variables PropellerMap.copy_data
       PropellerMap.data PropellerMap._original_data].
  split; [exact Good|].
  split; [|split; [exact B|split; [|split]]].
  - intros v. rewrite H2. cbn. by rewrite lookup_empty.
  - intros v. rewrite map_lookup_imap, H1, init_data_lookup. cbn.
    rewrite H3. by rewrite init_original_lookup_inl.
  - intros v. rewrite map_lookup_imap, H1, init_data_lookup. reflexivity.
  - intros h. rewrite H4, init_original_lookup_inr.
    by destruct (last_column (inr h) raw).
Qed.

(** Every variable has an entry in the working data of a successful
    load, the empty sequence when the file has no column of it. *)
Lemma loaded_data_entries convert_units default_prop_units get_val file
    data_file w st :
  PropellerMap.load convert_units default_prop_units get_val file data_file
  = (w, inr st) ->
  let raw := PropellerMap.read_columns (file data_file) in
  (forall v c, last_column (inl v) raw = Some c ->
     exists values, converted convert_units default_prop_units v c = Some values /\
                    PropellerMap.data st !! v = Some values) /\
  (forall v, inl v ∉ raw.*1 -> PropellerMap.data st !! v = Some []) /\
  (forall v, is_Some (PropellerMap.data st !! v)).
Proof.
  intros H. apply loaded_state_facts in H as (Good & _ & _ & H3 & _). cbn zeta.
  assert (Hconv : forall v c,
            last_column (inl v) (PropellerMap.read_columns (file data_file))
            = Some c ->
            exists values, converted convert_units default_prop_units v c
                           = Some values /\
                           PropellerMap.data st !! v = Some values).
  { intros v c L.
    destruct (converted convert_units default_prop_units v c) as [x|] eqn:C.
    - exists x. split; [done|]. by rewrite H3, L.
    - exfalso. apply Good. apply Exists_exists. exists (inl v, c).
      split; [by apply last_column_elem|].
      exists v. split; [apply in_aliases_inl | exact C]. }
  split; [exact Hconv|]. split.
  - intros v Hno. rewrite H3.
    by rewrite (proj2 (last_column_None (inl v) _) Hno).
  - intros v.
    destruct (last_column (inl v) (PropellerMap.read_columns (file data_file)))
      as [c|] eqn:L.
    + destruct (Hconv v c L) as (x & _ & ->). by eexists.
    + rewrite H3, L. by eexists.
Qed.

(** The outcome of the load [__init__] runs, by the loop's. *)
Lemma real_load_cases convert_units default_prop_units file data_file :
  let load := PropellerMap.load convert_units default_prop_units
                PropellerMap.System_get_val file data_file in
  let raw := PropellerMap.read_columns (file data_file) in
  let message := ("<" ++ data_file ++ ">")%string in
  (Exists (aborting convert_units default_prop_units) raw /\
   exists msg, load = ([], inl (PropellerMap.TypeError msg))) \/
  (raw = [] /\
   load = ([], inl (PropellerMap.UserWarning
                      ("No valid propeller variables found in data for "
                       ++ message)%string))) \/
  (raw <> [] /\ ~ Exists (aborting convert_units default_prop_units) raw /\
   exists st, load = ([], inr st)).
Proof.
  cbn zeta.
  unfold PropellerMap.load, PropellerMap._read_data, PropellerMap.read_data_file.
  set (message := ("<" ++ data_file ++ ">")%string).
  set (raw := PropellerMap.read_columns (file data_file)).
  pose proof (real_loop_no_warning convert_units default_prop_units message raw
                [] PropellerMap.init_state) as W.
  destruct (PropellerMap.read_loop _ _ _ message [] _ raw) as [w' [e|st']] eqn:E;
    cbn [fst] in W; subst w'.
  - apply real_loop_fails in E as [Bad [msg ->]]. left. split; [exact Bad|].
    by eexists.
  - right.
    pose proof (real_loop_good _ _ _ _ _ _ _ _ E) as Good.
    apply read_loop_state in E as (_ & H2 & _ & _).
    destruct raw as [|c raw'] eqn:Hraw.
    + left. split; [reflexivity|].
      rewrite bool_decide_eq_true_2; [reflexivity|].
      apply map_eq. intros v. rewrite H2. cbn. by rewrite lookup_empty.
    + right. split; [discriminate|]. split; [exact Good|].
      apply not_aborting_cons in Good as (v & val & units & val' & -> & _ & _).
      rewrite bool_decide_eq_false_2; [by eexists|].
      intros Hempty. specialize (H2 v). rewrite Hempty, lookup_empty in H2.
      rewrite bool_decide_eq_true_2 in H2; [discriminate|].
      rewrite fmap_cons. apply elem_of_cons; by left.
Qed.

(** X13: what the load that [__init__] runs ends in is decided by the
    columns of the file.  It raises [TypeError] exactly when some column
    is unrecognized or has a value that does not convert to the expected
    units; it raises the [UserWarning] that no valid variable was found
    exactly when the file has no column at all; otherwise it succeeds.
    In no case is a warning issued. *)
Theorem load_outcome_decided_by_columns
    convert_units default_prop_units file data_file :
  let r := PropellerMap.load convert_units default_prop_units
             PropellerMap.System_get_val file data_file in
  let raw := PropellerMap.read_columns (file data_file) in
  r.1 = [] /\
  ((exists msg, r.2 = inl (PropellerMap.TypeError msg)) <->
   Exists (aborting convert_units default_prop_units) raw) /\
  ((exists msg, r.2 = inl (PropellerMap.UserWarning msg)) <-> raw = []) /\
  ((exists st, r.2 = inr st) <->
   raw <> [] /\ ~ Exists (aborting convert_units default_prop_units) raw).
Proof.
  cbn zeta.
  destruct (real_load_cases convert_units default_prop_units file data_file)
    as [(Bad & msg & ->)|[(Hnil & ->)|(Hne & Good & st & ->)]]; cbn [fst snd].
  - split; [reflexivity|]. split; [|split].
    + split; [done | by eexists].
    + split; [by intros [? [=]]|].
      intros Hnil. rewrite Hnil in Bad. by apply Exists_nil in Bad.
    + split; [by intros [? [=]] | by intros [_ ?]].
  - split; [reflexivity|]. rewrite Hnil. split; [|split].
    + split; [by intros [? [=]] | by intros ?%Exists_nil].
    + split; [done | by eexists].
    + split; [by intros [? [=]] | by intros [? _]].
  - split; [reflexivity|]. split; [|split].
    + split; [by intros [? [=]] | done].
    + split; [by intros [? [=]] | done].
    + split; [done | by eexists].
Qed.

(** The file with an RPM column before the Mach column and the file with
    the RPM column alone end in [TypeError], the file without columns in
    the [UserWarning], and the file with a Mach and a thrust-coefficient
    column loads. *)
Lemma load_outcome_witness :
  (exists msg,
     (PropellerMap.load same_units_only all_unitless PropellerMap.System_get_val
        mach_in_feet_file "prop.csv").2 = inl (PropellerMap.TypeError msg)) /\
  (exists msg,
     (PropellerMap.load same_units_only all_unitless PropellerMap.System_get_val
        rpm_file "prop.csv").2 = inl (PropellerMap.TypeError msg)) /\
  (exists msg,
     (PropellerMap.load same_units_only all_unitless PropellerMap.System_get_val
        empty_file "prop.csv").2 = inl (PropellerMap.UserWarning msg)) /\
  (exists st,
     (PropellerMap.load same_units_only all_unitless PropellerMap.System_get_val
        mach_ct_file "prop.csv").2 = inr st).
Proof.
  split; [|split; [|split]].
  - apply (proj1 (proj2 (load_outcome_decided_by_columns same_units_only
                           all_unitless mach_in_feet_file "prop.csv"))).
    apply Exists_cons; left. by left.
  - apply (proj1 (proj2 (load_outcome_decided_by_columns same_units_only
                           all_unitless rpm_file "prop.csv"))).
    apply Exists_cons; left. by left.
  - apply (proj1 (proj2 (proj2 (load_outcome_decided_by_columns same_units_only
                                  all_unitless empty_file "prop.csv")))).
    reflexivity.
  - apply (proj2 (proj2 (proj2 (load_outcome_decided_by_columns same_units_only
                                  all_unitless mach_ct_file "prop.csv")))).
    split; [discriminate|].
    intros [[Hc|(v & Hv & Hc)]|[[Hc|(v & Hv & Hc)]|H]%Exists_cons]%Exists_cons.
    + vm_compute in Hc. discriminate.
    + vm_compute in Hv. injection Hv as <-. vm_compute in Hc. discriminate.
    + vm_compute in Hc. discriminate.
    + vm_compute in Hv. injection Hv as <-. vm_compute in Hc. discriminate.
    + by apply Exists_nil in H.
Defined.

(** X14: the load stops at the first column that is unrecognized or does
    not convert, with the exception of that column and without a warning:
    the [TypeError] of [get_val] at an unrecognized column, whatever comes
    after it, and at a recognized column the [TypeError] that names the
    file, the units of the column, the variable and its expected units. *)
Theorem type_error_names_first_bad_column
    convert_units default_prop_units file data_file pre c post :
  PropellerMap.read_columns (file data_file) = pre ++ c :: post ->
  ~ Exists (aborting convert_units default_prop_units) pre ->
  aborting convert_units default_prop_units c ->
  let message := ("<" ++ data_file ++ ">")%string in
  PropellerMap.load convert_units default_prop_units
    PropellerMap.System_get_val file data_file
  = ([], inl (abort_exception default_prop_units message c)) /\
  (PropellerMap.in_aliases c.1 = None ->
   abort_exception default_prop_units message c
   = PropellerMap.TypeError "'NoneType' object is not subscriptable") /\
  (forall v, PropellerMap.in_aliases c.1 = Some v ->
   abort_exception default_prop_units message c
   = PropellerMap.TypeError
       (message ++ ": units of '" ++ c.2.2 ++ "' provided for <"
        ++ PropellerMap.variable_name v
        ++ "> are not compatible with expected units of "
        ++ default_prop_units v)%string).
Proof.
  intros Hraw Hpre Hc. cbn zeta. split; [|split].
  - unfold PropellerMap.load, PropellerMap._read_data,
      PropellerMap.read_data_file.
    by rewrite Hraw, real_loop_stops.
  - intros Hn. unfold abort_exception. by rewrite Hn.
  - intros v Hv. unfold abort_exception. by rewrite Hv.
Qed.

(** The Mach column in feet raises the error of its units when it comes
    first; behind an RPM column it is never looked at. *)
Lemma type_error_witness :
  PropellerMap.load same_units_only all_unitless PropellerMap.System_get_val
    feet_first_file "prop.csv"
  = ([], inl (PropellerMap.TypeError
                "<prop.csv>: units of 'ft' provided for <MACH> are not compatible with expected units of unitless")) /\
  PropellerMap.load same_units_only all_unitless PropellerMap.System_get_val
    mach_in_feet_file "prop.csv"
  = ([], inl (PropellerMap.TypeError "'NoneType' object is not subscriptable")).
Proof.
  split.
  - apply (type_error_names_first_bad_column same_units_only all_unitless
             feet_first_file "prop.csv" []
             (inl PropellerMap.MACH, ([1 # 2]%Q, "ft"))
             [(inr "RPM", ([1000 # 1]%Q, "rpm"))]).
    + reflexivity.
    + by intros ?%Exists_nil.
    + right. exists PropellerMap.MACH. split; reflexivity.
  - apply (type_error_names_first_bad_column same_units_only all_unitless
             mach_in_feet_file "prop.csv" []
             (inr "RPM", ([1000 # 1]%Q, "rpm"))
             [(inl PropellerMap.MACH, ([1 # 2]%Q, "ft"));
              (inl PropellerMap.CT, ([1 # 5]%Q, "unitless"))]).
    + reflexivity.
    + by intros ?%Exists_nil.
    + by left.
Defined.

(** X15: after a successful load [propeller_variables] is not empty and has
    exactly the variables that some column of the file resolved to, each
    with its default units, whatever units the file declared. *)
Theorem loaded_variables_are_recognized_columns
    convert_units default_prop_units get_val file data_file w st :
  PropellerMap.load convert_units default_prop_units get_val file data_file
  = (w, inr st) ->
  let raw := PropellerMap.read_columns (file data_file) in
  PropellerMap.propeller_variables st <> ∅ /\
  (forall v, v ∈ dom (PropellerMap.propeller_variables st) <-> inl v ∈ raw.*1) /\
  (forall v u, PropellerMap.propeller_variables st !! v = Some u ->
               u = default_prop_units v).
Proof.
  intros H. apply loaded_state_facts in H as (_ & H1 & H2 & _). cbn zeta.
  split; [exact H2|]. split.
  - intros v. rewrite elem_of_dom, H1.
    destruct (bool_decide (inl v ∈ _)) eqn:B.
    + apply bool_decide_eq_true in B. split; [done | by eexists].
    + apply bool_decide_eq_false in B. split; [by intros [? [=]] | done].
  - intros v u. rewrite H1. destruct (bool_decide _); [|discriminate].
    by intros [= <-].
Qed.

(** The file with a Mach and a thrust-coefficient column, loaded as
    [__init__] does, leaves the Mach number among the variables. *)
Lemma loaded_variables_witness :
  exists w st,
    PropellerMap.load same_units_only all_unitless PropellerMap.System_get_val
      mach_ct_file "prop.csv"
    = (w, inr st) /\
    PropellerMap.propeller_variables st <> ∅ /\
    PropellerMap.MACH ∈ dom (PropellerMap.propeller_variables st).
Proof.
  destruct (PropellerMap.load same_units_only all_unitless
              PropellerMap.System_get_val mach_ct_file "prop.csv")
    as [w [e|st]] eqn:E; [vm_compute in E; discriminate|].
  exists w, st. split; [reflexivity|].
  destruct (loaded_variables_are_recognized_columns _ _ _ _ _ _ _ E)
    as (H1 & H2 & _).
  split; [exact H1|]. apply H2. vm_compute. left.
Defined.

(** X16: after a successful load the working data has exactly the four
    variables of the enumeration as keys: a variable with a column holds
    the converted values of the last such column, a variable without one
    holds the empty sequence. *)
Theorem working_data_covers_all_variables
    convert_units default_prop_units get_val file data_file w st :
  PropellerMap.load convert_units default_prop_units get_val file data_file
  = (w, inr st) ->
  let raw := PropellerMap.read_columns (file data_file) in
  dom (PropellerMap.data st)
  = {[ PropellerMap.MACH; PropellerMap.CP; PropellerMap.CT; PropellerMap.J ]} /\
  (forall v, inl v ∉ raw.*1 -> PropellerMap.data st !! v = Some []) /\
  (forall v c, last_column (inl v) raw = Some c ->
     exists values,
       converted convert_units default_prop_units v c = Some values /\
       PropellerMap.data st !! v = Some values /\
       length values = length c.1).
Proof.
  intros H. apply loaded_data_entries in H as (Hconv & Hno & S). cbn zeta.
  split; [|split].
  - apply set_eq. intros v. rewrite elem_of_dom.
    split; [intros _; destruct v; set_solver | intros _; apply S].
  - exact Hno.
  - intros v c L. destruct (Hconv v c L) as (x & Hx & Hd).
    exists x. split; [exact Hx|]. split; [exact Hd|].
    unfold converted in Hx. symmetry. eapply length_mapM. exact Hx.
Qed.

(** The file with a Mach and a thrust-coefficient column has the empty
    sequence for the advance ratio. *)
Lemma working_data_witness :
  exists w st,
    PropellerMap.load same_units_only all_unitless PropellerMap.System_get_val
      mach_ct_file "prop.csv"
    = (w, inr st) /\
    PropellerMap.data st !! PropellerMap.J = Some [].
Proof.
  destruct (PropellerMap.load same_units_only all_unitless
              PropellerMap.System_get_val mach_ct_file "prop.csv")
    as [w [e|st]] eqn:E; [vm_compute in E; discriminate|].
  exists w, st. split; [reflexivity|].
  destruct (working_data_covers_all_variables _ _ _ _ _ _ _ E) as (_ & H & _).
  apply H. vm_compute.
  intros [[=]|[[=]|H']%elem_of_cons]%elem_of_cons. by apply elem_of_nil in H'.
Defined.

(** X17: a load that succeeds has skipped nothing.  Every column of the
    file was recognized, no warning was issued, [_original_data] holds no
    column under a header, and for each of the four variables it holds
    what the working data holds. *)
Theorem original_data_has_no_skipped_column
    convert_units default_prop_units file data_file w st :
  PropellerMap.load convert_units default_prop_units
    PropellerMap.System_get_val file data_file
  = (w, inr st) ->
  let raw := PropellerMap.read_columns (file data_file) in
  w = [] /\
  Forall (fun c => recognized c.1 = true) raw /\
  (forall h, PropellerMap._original_data st !! inr h = None) /\
  (forall v, PropellerMap._original_data st !! inl v = PropellerMap.data st !! v).
Proof.
  intros H. cbn zeta.
  destruct (real_load_cases convert_units default_prop_units file data_file)
    as [(_ & msg & E)|[(_ & E)|(_ & Good & st' & E)]];
    rewrite E in H; try discriminate.
  injection H as <- <-.
  assert (R : Forall (fun c : PropellerMap.Column => recognized c.1 = true)
                (PropellerMap.read_columns (file data_file))).
  { apply Forall_forall. intros c Hin. unfold recognized.
    destruct (PropellerMap.in_aliases c.1) eqn:A; [done|].
    exfalso. apply Good. apply Exists_exists. exists c. split; [done | by left]. }
  apply loaded_state_facts in E as (_ & _ & _ & _ & H4 & H5). cbn zeta in *.
  split; [reflexivity|]. split; [exact R|]. split; [|exact H4].
  intros h. rewrite H5.
  rewrite (proj2 (last_column_None (inr h) _)); [done|].
  intros Hin. apply list_elem_of_fmap in Hin as (c & Hc & Hin).
  rewrite Forall_forall in R. specialize (R c Hin).
  by rewrite <- Hc in R.
Qed.

(** The file with a Mach and a thrust-coefficient column keeps nothing
    under a header. *)
Lemma original_data_witness :
  exists st,
    PropellerMap.load same_units_only all_unitless PropellerMap.System_get_val
      mach_ct_file "prop.csv"
    = ([], inr st) /\
    PropellerMap._original_data st !! inr "RPM" = None /\
    PropellerMap._original_data st !! inl PropellerMap.MACH
    = PropellerMap.data st !! PropellerMap.MACH.
Proof.
  destruct (PropellerMap.load same_units_only all_unitless
              PropellerMap.System_get_val mach_ct_file "prop.csv")
    as [w [e|st]] eqn:E; [vm_compute in E; discriminate|].
  destruct (original_data_has_no_skipped_column _ _ _ _ _ _ E)
    as (-> & _ & H1 & H2).
  exists st. split; [reflexivity|]. split; [apply H1 | apply H2].
Defined.

(** X18: on the state of a successful load [build_propeller_interpolator]
    finds all four entries of the working data and never raises
    [KeyError]; the metamodel extrapolates, has the given method and
    vector size, takes the inputs [selected_mach], [power_coefficient]
    and [advance_ratio] and gives [thrust_coefficient], each with the
    working data of its variable as training data, the empty sequence for
    a variable the file has no column of. *)
Theorem interpolator_built_from_working_data
    convert_units default_prop_units get_val file data_file w st
    num_nodes interp_method :
  PropellerMap.load convert_units default_prop_units get_val file data_file
  = (w, inr st) ->
  exists mm mach cp j ct,
    PropellerMap.build_propeller_interpolator st num_nodes interp_method
    = Some mm /\
    PropellerMap.data st !! PropellerMap.MACH = Some mach /\
    PropellerMap.data st !! PropellerMap.CP = Some cp /\
    PropellerMap.data st !! PropellerMap.J = Some j /\
    PropellerMap.data st !! PropellerMap.CT = Some ct /\
    PropellerMap.mm_method mm = interp_method /\
    PropellerMap.mm_extrapolate mm = true /\
    PropellerMap.mm_vec_size mm = num_nodes /\
    (fun x => (PropellerMap.mv_name x, PropellerMap.mv_training_data x))
    <$> PropellerMap.mm_inputs mm
    = [("selected_mach", mach); ("power_coefficient", cp); ("advance_ratio", j)] /\
    (fun x => (PropellerMap.mv_name x, PropellerMap.mv_training_data x))
    <$> PropellerMap.mm_outputs mm
    = [("thrust_coefficient", ct)] /\
    (forall v, inl v ∉ (PropellerMap.read_columns (file data_file)).*1 ->
               PropellerMap.data st !! v = Some []).
Proof.
  intros H.
  destruct (loaded_data_entries _ _ _ _ _ _ _ H) as (_ & E & S).
  destruct (S PropellerMap.MACH) as [mach Hm], (S PropellerMap.CP) as [cp Hcp],
    (S PropellerMap.J) as [j Hj], (S PropellerMap.CT) as [ct Hct].
  unfold PropellerMap.build_propeller_interpolator.
  rewrite Hm, Hcp, Hj, Hct. cbn [mbind option_bind].
  eexists _, mach, cp, j, ct. split; [reflexivity|].
  repeat split; try reflexivity. exact E.
Qed.

(** The interpolator of the Mach and thrust-coefficient file has no
    training data for the power coefficient. *)
Lemma interpolator_witness :
  exists w st mm,
    PropellerMap.load same_units_only all_unitless PropellerMap.System_get_val
      mach_ct_file "prop.csv"
    = (w, inr st) /\
    PropellerMap.build_propeller_interpolator st 5 "slinear" = Some mm /\
    PropellerMap.data st !! PropellerMap.CP = Some [].
Proof.
  destruct (PropellerMap.load same_units_only all_unitless
              PropellerMap.System_get_val mach_ct_file "prop.csv")
    as [w [e|st]] eqn:E; [vm_compute in E; discriminate|].
  destruct (interpolator_built_from_working_data _ _ _ _ _ _ _ 5%nat "slinear" E)
    as (mm & mach & cp & j & ct & Hb & _ & _ & _ & _ & _ & _ & _ & _ & _ & Hno).
  exists w, st, mm. split; [reflexivity|]. split; [exact Hb|].
  apply Hno. vm_compute.
  intros [[=]|[[=]|H']%elem_of_cons]%elem_of_cons. by apply elem_of_nil in H'.
Defined.


(** ** [read_and_set_mach_type] *)

Lemma append_cons c s t :
  (String c s ++ t)%string = String c (s ++ t)%string.
Proof. reflexivity. Qed.

Lemma append_nil s : (EmptyString ++ s)%string = s.
Proof. reflexivity. Qed.

Lemma readline_no_newline s :
  count_newlines s = 0%nat -> PropellerMap.readline s = (s, EmptyString).
Proof.
  induction s as [|c s IH]; [done|]. cbn [count_newlines PropellerMap.readline].
  destruct (Ascii.eqb c "010"); [discriminate|]. cbn [plus].
  intros H. by rewrite (IH H).
Qed.

Lemma readline_line l rest :
  count_newlines l = 0%nat ->
  PropellerMap.readline (l ++ newline ++ rest)%string = ((l ++ newline)%string, rest).
Proof.
  induction l as [|c l IH]; [done|].
  rewrite !append_cons. cbn [count_newlines PropellerMap.readline].
  destruct (Ascii.eqb c "010"); [discriminate|]. cbn [plus].
  intros H. by rewrite (IH H).
Qed.

Lemma readline_rest s :
  count_newlines (PropellerMap.readline s).2 = pred (count_newlines s) /\
  (count_newlines s = 0%nat -> PropellerMap.readline s = (s, EmptyString)).
Proof.
  split; [|apply readline_no_newline].
  induction s as [|c s IH]; [done|].
  cbn [count_newlines PropellerMap.readline].
  destruct (Ascii.eqb c "010"); [done|].
  destruct (PropellerMap.readline s) as [l r]. cbn [snd plus] in *. exact IH.
Qed.

Lemma has_space_app s t : has_space (s ++ t)%string = has_space s || has_space t.
Proof.
  induction s as [|c s IH]; [done|]. rewrite append_cons. cbn [has_space].
  by rewrite IH, orb_assoc.
Qed.

Lemma append_nonempty s c : (s ++ String c EmptyString)%string <> EmptyString.
Proof. by destruct s. Qed.

(** The tokens of a line are not empty and hold no white space. *)
Lemma split_from_tokens line : forall cur,
  has_space cur = false ->
  Forall (fun t => t <> EmptyString /\ has_space t = false)
    (PropellerMap.split_from cur line).
Proof.
  induction line as [|c line IH]; intros cur Hc; cbn [PropellerMap.split_from].
  - destruct cur; [constructor|]. repeat constructor; done.
  - destruct (PropellerMap.py_isspace c) eqn:Sp.
    + destruct cur.
      * by apply IH.
      * constructor; [done | by apply IH].
    + apply IH. rewrite has_space_app, Hc. cbn. by rewrite Sp.
Qed.

(** White space at the end of a line adds no token. *)
Lemma split_from_trailing_space line c : forall cur,
  PropellerMap.py_isspace c = true ->
  PropellerMap.split_from cur (line ++ String c EmptyString)%string
  = PropellerMap.split_from cur line.
Proof.
  induction line as [|d line IH]; intros cur Hc;
    rewrite ?append_cons, ?append_nil; cbn [PropellerMap.split_from].
  - rewrite Hc. by destruct cur.
  - destruct (PropellerMap.py_isspace d); [|by apply IH].
    destruct cur; by rewrite IH.
Qed.

(** X19: [read_and_set_mach_type] returns the fourth token of the fourth
    line of the file, whatever the first three lines and the lines after
    it hold and whether or not the fourth line ends the file; when that
    line has fewer than four tokens the index raises [IndexError]. *)
Theorem mach_type_is_fourth_token_of_fourth_line
    open_text data_file l1 l2 l3 l4 tail :
  count_newlines l1 = 0%nat -> count_newlines l2 = 0%nat ->
  count_newlines l3 = 0%nat -> count_newlines l4 = 0%nat ->
  tail = EmptyString \/ (exists rest, tail = (newline ++ rest)%string) ->
  open_text data_file
  = Some (l1 ++ newline ++ l2 ++ newline ++ l3 ++ newline ++ l4 ++ tail)%string ->
  PropellerMap.read_and_set_mach_type open_text data_file
  = match PropellerMap.split l4 !! 3%nat with
    | Some mach_type => inr mach_type
    | None => inl PropellerMap.IndexError
    end.
Proof.
  intros H1 H2 H3 H4 Ht Ho. unfold PropellerMap.read_and_set_mach_type.
  rewrite Ho, !readline_line by done.
  destruct Ht as [->|[rest ->]].
  - assert (E : (l4 ++ EmptyString)%string = l4).
    { clear. induction l4 as [|c l IH]; [done|]. by rewrite append_cons, IH. }
    rewrite E, readline_no_newline by done. reflexivity.
  - rewrite readline_line by done. unfold PropellerMap.split.
    by rewrite (split_from_trailing_space l4 "010"%char).
Qed.

(** The header of the comment in the source names the Mach type [mach]. *)
Lemma mach_type_witness :
  PropellerMap.read_and_set_mach_type (fun _ => Some sample_header) "PropFan.prop"
  = inr "mach".
Proof.
  rewrite (mach_type_is_fourth_token_of_fourth_line (fun _ => Some sample_header)
             "PropFan.prop" "# created 06/24/24 at 17:13"
             "# GASP propeller map converted from PropFan.map"
             "# Propfan format - CT = f(Mach, Adv Ratio & CP)"
             "# mach_type = mach"
             (newline ++ "# Hamilton Standard 10 Bladed Propfan Performance Deck:  Ct Tables" ++ newline)%string);
    try reflexivity.
  right. by eexists.
Defined.

(** X20: when the file cannot be opened [read_and_set_mach_type] raises;
    when the file has fewer than four lines, that is fewer than three
    newlines, the fourth [readline] gives the empty string and the index
    raises [IndexError]; and whatever it returns is one token: not empty
    and without white space. *)
Theorem mach_type_errors_and_token open_text data_file :
  let r := PropellerMap.read_and_set_mach_type open_text data_file in
  (open_text data_file = None -> r = inl PropellerMap.FileNotFoundError) /\
  (forall text, open_text data_file = Some text ->
     (count_newlines text < 3)%nat -> r = inl PropellerMap.IndexError) /\
  (forall mach_type, r = inr mach_type ->
     mach_type <> EmptyString /\ has_space mach_type = false).
Proof.
  cbn zeta. unfold PropellerMap.read_and_set_mach_type.
  split; [by intros ->|]. split.
  - intros text -> Hn.
    destruct (readline_rest text) as [C1 Z1].
    destruct (PropellerMap.readline text) as [a1 r1] eqn:E1. cbn [snd] in C1.
    destruct (readline_rest r1) as [C2 Z2].
    destruct (PropellerMap.readline r1) as [a2 r2] eqn:E2. cbn [snd] in C2.
    destruct (readline_rest r2) as [C3 Z3].
    destruct (PropellerMap.readline r2) as [a3 r3] eqn:E3. cbn [snd] in C3.
    assert (r3 = EmptyString) as ->.
    { destruct (count_newlines text) as [|[|[|n]]] eqn:N; [| | |lia].
      - specialize (Z1 eq_refl). injection Z1 as -> ->.
        cbn in E2. injection E2 as <- <-. cbn in E3. by injection E3 as <- <-.
      - cbn in C1. specialize (Z2 C1). injection Z2 as -> ->.
        cbn in E3. by injection E3 as <- <-.
      - cbn in C1. rewrite C1 in C2. cbn in C2.
        specialize (Z3 C2). by injection Z3 as -> ->. }
    reflexivity.
  - intros t.
    destruct (open_text data_file) as [text|]; [|discriminate].
    destruct (PropellerMap.readline text) as [a1 r1].
    destruct (PropellerMap.readline r1) as [a2 r2].
    destruct (PropellerMap.readline r2) as [a3 r3].
    destruct (PropellerMap.readline r3) as [a4 r4].
    destruct (PropellerMap.split a4 !! 3%nat) as [t'|] eqn:L; [|discriminate].
    intros [= ->].
    pose proof (split_from_tokens a4 EmptyString eq_refl) as F.
    rewrite Forall_forall in F. apply F.
    apply list_elem_of_lookup. by exists 3%nat.
Qed.

(** A file of three lines has no fourth line to index. *)
Lemma mach_type_errors_witness :
  PropellerMap.read_and_set_mach_type
    (fun _ => Some "# created 06/24/24 at 17:13
# GASP propeller map
# mach_type = mach") "short.prop"
  = inl PropellerMap.IndexError.
Proof.
  destruct (mach_type_errors_and_token
              (fun _ => Some "# created 06/24/24 at 17:13
# GASP propeller map
# mach_type = mach") "short.prop") as (_ & H & _).
  apply (H _ eq_refl). cbn. lia.
Defined.

(** ** Registration of the battery variables *)

Import BatteryMetaData.

Lemma registered_keys key (l : list (BatteryVar * MetaEntry)) :
  (keyed key <$> l).*1 = key <$> l.*1.
Proof. induction l as [|[v e] l IH]; [done|]. cbn. by rewrite IH. Qed.

Lemma registered_nil key reg : registered key [] reg = reg.
Proof. unfold registered. cbn. apply (left_id_L ∅ (∪)). Qed.

Lemma registered_cons key v e l reg :
  key v ∉ key <$> l.*1 ->
  registered key l (<[key v := e]> reg) = registered key ((v, e) :: l) reg.
Proof.
  intros Hv. unfold registered.
  change (keyed key <$> (v, e) :: l) with ((key v, e) :: (keyed key <$> l)).
  cbn [list_to_map foldr uncurry fst snd].
  rewrite <- insert_union_l. symmetry. apply insert_union_r.
  apply not_elem_of_list_to_map_1. by rewrite registered_keys.
Qed.

Lemma add_meta_data_fresh k e a h reg :
  h !! a = Some reg -> reg !! k = None ->
  add_meta_data k e a h = (<[a := <[k := e]> reg]> h, inr tt).
Proof. intros Ha Hk. unfold add_meta_data. by rewrite Ha; cbn; rewrite Hk. Qed.

Lemma add_meta_data_duplicate k e a h reg :
  h !! a = Some reg -> is_Some (reg !! k) ->
  add_meta_data k e a h = (h, inl (DuplicateVariableError k)).
Proof.
  intros Ha [x Hk]. unfold add_meta_data. by rewrite Ha; cbn; rewrite Hk.
Qed.

Lemma add_all_fresh key l a h reg :
  h !! a = Some reg ->
  NoDup (key <$> l.*1) ->
  (forall v, v ∈ l.*1 -> reg !! key v = None) ->
  add_all key l a h = (<[a := registered key l reg]> h, inr tt).
Proof.
  revert h reg. induction l as [|[v e] l IH]; intros h reg Ha ND Hf.
  { cbn [add_all]. by rewrite registered_nil, insert_id. }
  cbn [add_all].
  rewrite (add_meta_data_fresh _ _ _ _ reg) by (try done; apply Hf; cbn; left).
  cbn in ND. apply NoDup_cons in ND as [Hv ND].
  rewrite (IH _ (<[key v := e]> reg)); [| |done|].
  - by rewrite insert_insert_eq, registered_cons.
  - by rewrite lookup_insert_eq.
  - intros v' Hv'. rewrite lookup_insert_ne.
    + apply Hf. cbn. by right.
    + intros E. apply Hv. rewrite E. by apply list_elem_of_fmap_2.
Qed.

Lemma add_all_stops key pre v e post a h reg :
  h !! a = Some reg ->
  NoDup (key <$> pre.*1) ->
  (forall v', v' ∈ pre.*1 -> reg !! key v' = None) ->
  is_Some (reg !! key v) \/ key v ∈ key <$> pre.*1 ->
  add_all key (pre ++ (v, e) :: post) a h
  = (<[a := registered key pre reg]> h, inl (DuplicateVariableError (key v))).
Proof.
  revert h reg. induction pre as [|[v0 e0] pre IH]; intros h reg Ha ND Hf Hd.
  - cbn [app add_all].
    rewrite (add_meta_data_duplicate _ _ _ _ reg); [|done|].
    + by rewrite registered_nil, insert_id.
    + destruct Hd as [Hd|Hd]; [done|]. cbn in Hd. by apply elem_of_nil in Hd.
  - cbn [app add_all].
    rewrite (add_meta_data_fresh _ _ _ _ reg) by (try done; apply Hf; cbn; left).
    cbn in ND. apply NoDup_cons in ND as [Hv ND].
    rewrite (IH _ (<[key v0 := e0]> reg)); [| |done| |].
    + by rewrite insert_insert_eq, registered_cons.
    + by rewrite lookup_insert_eq.
    + intros v' Hv'. rewrite lookup_insert_ne.
      * apply Hf. cbn. by right.
      * intros E. apply Hv. rewrite E. by apply list_elem_of_fmap_2.
    + destruct (decide (key v = key v0)) as [E|NE].
      * left. rewrite E, lookup_insert_eq. by eexists.
      * rewrite lookup_insert_ne by done.
        destruct Hd as [Hd|Hd]; [by left|right].
        cbn in Hd. apply elem_of_cons in Hd as [Hd|Hd]; [done|exact Hd].
Qed.

Lemma registrations_nodup : NoDup registrations.*1.
Proof. apply (bool_decide_unpack (NoDup registrations.*1)). vm_compute. exact I. Qed.

Lemma registrations_complete v : v ∈ registrations.*1.
Proof.
  destruct v;
    match goal with
    | |- ?P => apply (bool_decide_unpack P); vm_compute; exact I
    end.
Qed.

Lemma registered_lookup key l reg v e :
  NoDup (key <$> l.*1) -> (v, e) ∈ l ->
  registered key l reg !! key v = Some e.
Proof.
  intros ND Hin. unfold registered. apply lookup_union_Some_l.
  apply elem_of_list_to_map_1.
  - by rewrite registered_keys.
  - by apply (list_elem_of_fmap_2 (keyed key) l (v, e)).
Qed.

Lemma registered_other key l reg k :
  (forall v, v ∈ l.*1 -> k <> key v) ->
  registered key l reg !! k = reg !! k.
Proof.
  intros Hk. unfold registered. apply lookup_union_r.
  apply not_elem_of_list_to_map_1. rewrite registered_keys.
  intros Hin. apply list_elem_of_fmap in Hin as (v & -> & Hv).
  by apply (Hk v).
Qed.

Lemma registered_size key l reg :
  NoDup (key <$> l.*1) -> (forall v, v ∈ l.*1 -> reg !! key v = None) ->
  size (registered key l reg) = length l + size reg.
Proof.
  intros ND Hf. unfold registered.
  rewrite map_size_disj_union.
  - rewrite map_size_list_to_map by by rewrite registered_keys.
    by rewrite length_fmap.
  - apply map_disjoint_spec. intros k x y Hx Hy.
    apply elem_of_list_to_map_2 in Hx.
    apply list_elem_of_fmap in Hx as ([v e] & [= -> ->] & Hin).
    rewrite Hf in Hy; [done|].
    by apply (list_elem_of_fmap_2 fst l (v, e)).
Qed.

Lemma path_inj : Inj (=) (=) path.
Proof. intros x y; destruct x, y; (reflexivity || discriminate). Qed.

(** X21: the module registers its variables in the dictionary
    [av.CoreMetaData] itself holds, since [ExtendedMetaData] is that same
    object: when the constants stand for different names, none of them
    registered yet, the module ends without exception, every one of the
    23 variables is then found in the core dictionary with the units,
    description, default and multivalue flag of its call, every other
    name is as before, and no other object has changed. *)
Theorem battery_variables_registered_in_core key core h reg :
  Inj (=) (=) key ->
  h !! core = Some reg ->
  (forall v, reg !! key v = None) ->
  exists reg',
    run_module key core h = (<[core := reg']> h, core, inr tt) /\
    (forall v e, (v, e) ∈ registrations -> reg' !! key v = Some e) /\
    (forall v, is_Some (reg' !! key v)) /\
    (forall k, (forall v, k <> key v) -> reg' !! k = reg !! k) /\
    size reg' = (23 + size reg)%nat.
Proof.
  intros Hinj Hc Hf.
  assert (ND : NoDup (key <$> registrations.*1))
    by (apply (NoDup_fmap_2 key), registrations_nodup).
  exists (registered key registrations reg). split; [|split; [|split; [|split]]].
  - unfold run_module. by rewrite (add_all_fresh _ _ _ _ reg).
  - intros v e Hin. by apply registered_lookup.
  - intros v. pose proof (registrations_complete v) as Hv.
    apply list_elem_of_fmap in Hv as ([v' e] & -> & Hin).
    exists e. by apply registered_lookup.
  - intros k Hk. apply registered_other. intros v _. apply Hk.
  - by rewrite registered_size.
Qed.

Lemma battery_variables_registered_witness :
  exists reg',
    run_module path 0 core_heap = (<[0%nat := reg']> core_heap, 0%nat, inr tt) /\
    (forall v e, (v, e) ∈ registrations -> reg' !! path v = Some e) /\
    (forall v, is_Some (reg' !! path v)) /\
    (forall k, (forall v, k <> path v) -> reg' !! k = core_registry !! k) /\
    size reg' = (23 + size core_registry)%nat.
Proof.
  apply (battery_variables_registered_in_core path 0%nat core_heap core_registry).
  - exact path_inj.
  - reflexivity.
  - intros v. destruct v; vm_compute; reflexivity.
Defined.

(** X22: a name that is registered already, in the core dictionary or by
    an earlier call of the module, ends the module with
    [DuplicateVariableError] at that call; the calls before it have
    changed the shared dictionary and stay registered, the calls after
    it are not made. *)
Theorem duplicate_name_stops_registration key core h reg pre v e post :
  registrations = pre ++ (v, e) :: post ->
  h !! core = Some reg ->
  NoDup (key <$> pre.*1) ->
  (forall v', v' ∈ pre.*1 -> reg !! key v' = None) ->
  is_Some (reg !! key v) \/ key v ∈ key <$> pre.*1 ->
  run_module key core h
  = (<[core := registered key pre reg]> h, core,
     inl (DuplicateVariableError (key v))) /\
  (forall v' e', (v', e') ∈ pre -> registered key pre reg !! key v' = Some e') /\
  (forall k, (forall v', v' ∈ pre.*1 -> k <> key v') ->
     registered key pre reg !! k = reg !! k).
Proof.
  intros Hr Hc ND Hf Hd. split; [|split].
  - unfold run_module. rewrite Hr.
    by rewrite (add_all_stops _ _ _ _ _ _ _ reg).
  - intros v' e' Hin. by apply registered_lookup.
  - intros k Hk. by apply registered_other.
Qed.

Lemma duplicate_name_witness :
  run_module path 0 clashing_heap
  = (<[0%nat := registered path (take 4 registrations)
                  (<[ path N_SERIES := entry None "cells in series" 1 false ]>
                     core_registry)]> clashing_heap, 0%nat,
     inl (DuplicateVariableError (path N_SERIES))) /\
  (forall v' e', (v', e') ∈ take 4 registrations ->
     registered path (take 4 registrations)
       (<[ path N_SERIES := entry None "cells in series" 1 false ]> core_registry)
     !! path v' = Some e') /\
  (forall k, (forall v', v' ∈ (take 4 registrations).*1 -> k <> path v') ->
     registered path (take 4 registrations)
       (<[ path N_SERIES := entry None "cells in series" 1 false ]> core_registry)
     !! k
     = (<[ path N_SERIES := entry None "cells in series" 1 false ]> core_registry)
       !! k).
Proof.
  apply (duplicate_name_stops_registration path 0%nat clashing_heap
           (<[ path N_SERIES := entry None "cells in series" 1 false ]> core_registry)
           (take 4 registrations) N_SERIES
           (entry None "Number of cells in series" 1 false)
           (drop 5 registrations)).
  - reflexivity.
  - reflexivity.
  - apply (bool_decide_unpack (NoDup (path <$> (take 4 registrations).*1))).
    vm_compute. exact I.
  - intros v' Hv'. cbn in Hv'.
    repeat (apply elem_of_cons in Hv' as [->|Hv']; [vm_compute; reflexivity|]).
    by apply elem_of_nil in Hv'.
  - left. vm_compute. by eexists.
Defined.

(** X23: the module cannot be executed a second time against the same
    core dictionary: after a run that registered everything, a further
    run fails at its first call and changes nothing. *)
Theorem second_run_fails_at_first_call key core h reg :
  Inj (=) (=) key ->
  h !! core = Some reg ->
  (forall v, reg !! key v = None) ->
  forall h1, run_module key core h = (h1, core, inr tt) ->
  run_module key core h1
  = (h1, core, inl (DuplicateVariableError (key CURRENT_MAX))).
Proof.
  intros Hinj Hc Hf h1 Hrun.
  assert (ND : NoDup (key <$> registrations.*1))
    by (apply (NoDup_fmap_2 key), registrations_nodup).
  unfold run_module in Hrun.
  rewrite (add_all_fresh _ _ _ _ reg) in Hrun by done.
  injection Hrun as <-.
  unfold run_module.
  change registrations with ([] ++ (CURRENT_MAX, entry (Some "A")
         "Max current through the pack" (10 # 1) false) :: tail registrations)
    at 1.
  rewrite (add_all_stops _ _ _ _ _ _ _ (registered key registrations reg)).
  - by rewrite registered_nil, insert_insert_eq.
  - by rewrite lookup_insert_eq.
  - constructor.
  - intros v' Hv'. by apply elem_of_nil in Hv'.
  - left. eexists. apply registered_lookup; [done|]. vm_compute. left.
Qed.

Lemma second_run_witness :
  exists h1,
    run_module path 0 core_heap = (h1, 0%nat, inr tt) /\
    run_module path 0 h1
    = (h1, 0%nat, inl (DuplicateVariableError (path CURRENT_MAX))).
Proof.
  exists (run_module path 0 core_heap).1.1.
  assert (E : run_module path 0 core_heap
              = ((run_module path 0 core_heap).1.1, 0%nat, inr tt))
    by (vm_compute; reflexivity).
  split; [exact E|].
  apply (second_run_fails_at_first_call path 0%nat core_heap core_registry).
  - exact path_inj.
  - reflexivity.
  - intros v. destruct v; vm_compute; reflexivity.
  - exact E.
Defined.

(** ** The phases of the maximum-payload mission *)

Import C5MaxPayload.

(** X24: the flight phases of [phase_info] are [climb_1], [climb_2] and
    [descent_1], every one complete; each keeps its initial and final Mach
    number and altitude, and its guesses of initial time and duration,
    inside its own bounds, in the same units; each but the first starts at
    the Mach number and altitude where the one before ends, with bounds
    and guess of its initial time the sums of initial time and duration of
    the one before; and all three give the subsystems the same options,
    the method [computed] for [core_aerodynamics]. *)
Theorem mission_phases_are_chained :
  exists ps,
    mapM read_phase flight_phases = Some ps /\
    phase_name <$> ps = ["climb_1"; "climb_2"; "descent_1"]%string /\
    Forall well_bounded ps /\
    chained ps /\
    Forall (fun p => as_subsystem_options (phase_subsystem_options p)
                     = c5_subsystem_options) ps.
Proof.
  eexists. split; [vm_compute; reflexivity|].
  split; [reflexivity|].
  split; [|split].
  - repeat constructor; cbn; unfold Qle; cbn; lia.
  - cbn. unfold follows, Qeq. cbn. repeat split; lia.
  - repeat constructor.
Qed.
